(** * ScalableDataAPI: the ingest-and-batch pipeline, its data service and
    its HTTP facade

    A shallow embedding of the Python sources

      - [app/worker/worker.py]       (the batch consumer, [BlogWorker]),
      - [app/dataservice/server.py]  (the gRPC [DataService]),
      - [app/api/main.py]            (the FastAPI facade),
      - [app/models/blogs.py]        ([INSERT_SQL], [bulk_insert]),
      - [app/common/config.py]       ([Settings]),

    followed by the properties of the natural-language specification that
    can be stated over it.

    Conventions.
      - A Python [str] is a [string], one [ascii] for each character: the
        strings of the model are those over the code points below 256.
        [len] is [String.length].
      - An [int] is a [Z].
      - A [dict] whose iteration order is never observed is a [gmap]; the
        [buffers] dictionary of the worker, whose keys [run] iterates over,
        carries the insertion order of its keys beside the map.
      - [datetime.now(timezone.utc)] is an input of the function that reads
        the clock: an instant, in microseconds since the epoch.
      - A call to an external service (Redis, MySQL, the gRPC channel) takes
        the reply of the service as an input and records the command in the
        trace the function returns; a reply may be an exception. *)

From Stdlib Require Import Ascii String.
From stdpp Require Import gmap strings list fin_maps.

Open Scope Z_scope.

(* ===================================================================== *)
(** * Part I: definitions                                                  *)
(* ===================================================================== *)

(** ** Python strings *)

(** [str.isspace] on one character, for the code points below 256: the
    controls 9..13 and 28..31, the space, NEL (133) and NBSP (160). *)
Definition py_isspace (c : ascii) : bool :=
  let n := nat_of_ascii c in
  (Nat.leb 9 n && Nat.leb n 13) || (Nat.leb 28 n && Nat.leb n 32)
  || Nat.eqb n 133 || Nat.eqb n 160.

(** [s.lstrip()] *)
Fixpoint lstrip (s : string) : string :=
  match s with
  | EmptyString => EmptyString
  | String c s' => if py_isspace c then lstrip s' else s
  end.

(** [s.rstrip()] *)
Fixpoint rstrip (s : string) : string :=
  match s with
  | EmptyString => EmptyString
  | String c s' =>
      match rstrip s' with
      | EmptyString => if py_isspace c then EmptyString else String c EmptyString
      | r => String c r
      end
  end.

(** [s.strip()] *)
Definition strip (s : string) : string := rstrip (lstrip s).

(** Every character of [s] is whitespace. *)
Fixpoint all_space (s : string) : bool :=
  match s with
  | EmptyString => true
  | String c s' => py_isspace c && all_space s'
  end.

(** Python truthiness of a [str]: [not s] is [is_empty s]. *)
Definition is_empty (s : string) : bool :=
  match s with EmptyString => true | _ => false end.

(** [a or b] on strings. *)
Definition str_or (a b : string) : string := if is_empty a then b else a.

(** [len(s)] as an [int]. *)
Definition len (s : string) : Z := Z.of_nat (String.length s).

(** ** Time *)

(** A [datetime] value: its wall-clock reading in microseconds and, when it
    is timezone-aware, its offset from UTC. *)
Record datetime := mk_datetime {
  dt_micros : Z;
  dt_utcoffset : option Z
}.

(** The aware value [datetime.now(timezone.utc)] read at instant [t]. *)
Definition utc_datetime (t : Z) : datetime :=
  {| dt_micros := t; dt_utcoffset := Some 0 |}.

(** [dt.replace(tzinfo=timezone.utc)] *)
Definition replace_tzinfo_utc (dt : datetime) : datetime :=
  {| dt_micros := dt_micros dt; dt_utcoffset := Some 0 |}.

(** ** External services *)

(** What a call to an external service gives back: a value, or an
    exception. *)
Inductive Reply (A : Type) :=
| Returns (a : A)
| Raises (exn : string).
Arguments Returns {A} a.
Arguments Raises {A} exn.

(** The Redis commands the programs issue. *)
Inductive RedisCmd :=
| SADD (name member : string)
| XADD (stream : string) (fields : list (string * string)) (maxlen : Z) (approximate : bool)
| XACK (stream group : string) (mids : list string)
| XDEL (stream : string) (mids : list string).

(** [os.getenv(name, fallback)] followed by [int(...)], the variable being
    given already parsed when it is set. *)
Definition getenv_int (var : option Z) (fallback : Z) : Z := default fallback var.

(** ** [app/common/config.py] *)

Module Config.

Record Settings := {
  stream_maxlen : Z;
  consumer_group : string;
  consumer_name : string;
  batch_max_count : Z;
  batch_max_age_ms : Z;
  batch_max_bytes : Z
}.

(** The field defaults of [class Settings]. *)
Definition settings : Settings := {|
  stream_maxlen := 200000;
  consumer_group := "blog_group";
  consumer_name := "worker-1";
  batch_max_count := 1000;
  batch_max_age_ms := 300;
  batch_max_bytes := 2097152
|}.

End Config.

(** ** [app/models/blogs.py] and the table of [app/common/db.py] *)

Module Blogs.

Record BlogRow := {
  client_msg_id : option string;
  author : string;
  created_at : datetime;
  updated_at : datetime;
  genre : string;
  location : string;
  content : string
}.

(** A row of the table [blogs] of [CREATE_TABLE_SQL]: the [AUTO_INCREMENT]
    primary key [id] and the seven columns an [INSERT] supplies. *)
Record Stored := {
  id : Z;
  cols : BlogRow
}.

(** The table: its rows in insertion order and its [AUTO_INCREMENT]
    counter. Values are stored as they are given; a statement MySQL
    refuses (a value too long for its column, say) is a statement for which
    the driver raises. *)
Record Table := {
  rows : list Stored;
  auto_increment : Z
}.

(** The stored row [s] with [updated_at] set to [v] and every other
    column, and the primary key, as they are. *)
Definition set_updated_at (s : Stored) (v : datetime) : Stored :=
  {| id := id s;
     cols := {| client_msg_id := client_msg_id (cols s);
                author := author (cols s);
                created_at := created_at (cols s);
                updated_at := v;
                genre := genre (cols s);
                location := location (cols s);
                content := content (cols s) |} |}.

(** [updated_at = VALUES(updated_at)]: the only assignment of the
    [ON DUPLICATE KEY UPDATE] clause of [INSERT_SQL]. *)
Definition on_duplicate_key_update (incoming : BlogRow) (s : Stored) : Stored :=
  set_updated_at s (updated_at incoming).

Section Statement.

(** The collation of the table ([utf8mb4_0900_ai_ci]) compares two strings
    by their weight strings; [collation_key] is that weight string. *)
Variable collation_key : string -> string.

(** Whether a row that hits a duplicate key still consumes a value of the
    [AUTO_INCREMENT] counter (it depends on [innodb_autoinc_lock_mode]). *)
Variable duplicate_consumes_id : bool.

(** [s] holds the key [c] in the unique index [uq_client_msg_id]. A [NULL]
    never equals anything, so it never collides. *)
Definition holds_key (c : string) (s : Stored) : bool :=
  match client_msg_id (cols s) with
  | Some c' => String.eqb (collation_key c') (collation_key c)
  | None => false
  end.

(** The incoming row [r] hits the unique key of the stored row [s]. *)
Definition collides (r : BlogRow) (s : Stored) : bool :=
  match client_msg_id r with
  | Some c => holds_key c s
  | None => false
  end.

(** Apply the [ON DUPLICATE KEY UPDATE] clause to the first stored row that
    [r] collides with. *)
Fixpoint update_first (r : BlogRow) (l : list Stored) : list Stored :=
  match l with
  | [] => []
  | s :: l' =>
      if collides r s then on_duplicate_key_update r s :: l'
      else s :: update_first r l'
  end.

(** One tuple of the [VALUES] clause of [INSERT_SQL]. *)
Definition insert_row (t : Table) (r : BlogRow) : Table :=
  if existsb (collides r) (rows t) then
    {| rows := update_first r (rows t);
       auto_increment :=
         auto_increment t + (if duplicate_consumes_id then 1 else 0) |}
  else
    {| rows := rows t ++ [ {| id := auto_increment t; cols := r |} ];
       auto_increment := auto_increment t + 1 |}.

(** [INSERT_SQL] with one tuple per element of [rs], in order. *)
Definition execute_INSERT_SQL (t : Table) (rs : list BlogRow) : Table :=
  fold_left insert_row rs t.

(** [bulk_insert(conn, rows)]. [driver] is what [conn.exec_driver_sql]
    gives back: the row count the driver reports, or an exception, in which
    case the statement has changed nothing. An empty [rows] returns 0
    without a statement. *)
Definition bulk_insert (t : Table) (rs : list BlogRow) (driver : Reply Z)
  : Table * Reply Z :=
  match rs with
  | [] => (t, Returns 0)
  | _ =>
      match driver with
      | Raises e => (t, Raises e)
      | Returns rowcount =>
          (execute_INSERT_SQL t rs, Returns (if rowcount =? 0 then 0 else rowcount))
      end
  end.

(** The constraints of the table that the theorems rely on: the primary
    key is unique and below the counter, and [uq_client_msg_id] is
    unique. *)
Definition ids_unique (l : list Stored) : Prop :=
  forall i j s1 s2,
    l !! i = Some s1 -> l !! j = Some s2 -> id s1 = id s2 -> i = j.

Definition keys_unique (l : list Stored) : Prop :=
  forall i j s1 s2 c,
    l !! i = Some s1 -> l !! j = Some s2 ->
    holds_key c s1 = true -> holds_key c s2 = true -> i = j.

Definition table_ok (t : Table) : Prop :=
  ids_unique (rows t)
  /\ Forall (fun s => id s < auto_increment t) (rows t)
  /\ keys_unique (rows t).

(** The [updated_at] of the last tuple of [rs] that hits the key [c]. *)
Definition last_incoming (c : string) (rs : list BlogRow) : option datetime :=
  fold_left
    (fun acc r =>
       match client_msg_id r with
       | Some c' =>
           if String.eqb (collation_key c) (collation_key c')
           then Some (updated_at r) else acc
       | None => acc
       end)
    rs None.

End Statement.

End Blogs.

(** ** [app/worker/worker.py] *)

Module Worker.

(** The key of a buffer: [(genre, location)]. *)
Abbreviation Key := (string * string)%type.

Record BufferedItem := {
  row : Blogs.BlogRow;
  redis_stream : string;
  redis_message_id : string
}.

(** The fields of [BlogWorker] that [__init__] sets, but for the Redis
    handle. [buffers] and [buffer_bytes] are [defaultdict]s; [buffers_keys]
    is the insertion order of the keys of [buffers]. *)
Record BlogWorker := {
  consumer_group : string;
  consumer_name : string;
  batch_max_count : Z;
  batch_max_age_ms : Z;
  batch_max_bytes : Z;
  buffers : gmap Key (list BufferedItem);
  buffers_keys : list Key;
  buffer_first_at : gmap Key Z;
  buffer_bytes : gmap Key Z
}.

(** [BlogWorker.__init__]: the environment variables and, for the consumer
    name, the host name and process id. *)
Definition __init__ (CONSUMER_GROUP CONSUMER_NAME : option string)
    (BATCH_MAX_COUNT BATCH_MAX_AGE_MS BATCH_MAX_BYTES : option Z)
    (hostname_pid : string) : BlogWorker :=
  {| consumer_group := default (Config.consumer_group Config.settings) CONSUMER_GROUP;
     consumer_name := default hostname_pid CONSUMER_NAME;
     batch_max_count := getenv_int BATCH_MAX_COUNT (Config.batch_max_count Config.settings);
     batch_max_age_ms := getenv_int BATCH_MAX_AGE_MS (Config.batch_max_age_ms Config.settings);
     batch_max_bytes := getenv_int BATCH_MAX_BYTES (Config.batch_max_bytes Config.settings);
     buffers := ∅;
     buffers_keys := [];
     buffer_first_at := ∅;
     buffer_bytes := ∅ |}.

(** The worker with its three dictionaries replaced. *)
Definition with_buffers (w : BlogWorker)
    (b : gmap Key (list BufferedItem)) (ks : list Key)
    (fa : gmap Key Z) (bb : gmap Key Z) : BlogWorker :=
  {| consumer_group := consumer_group w;
     consumer_name := consumer_name w;
     batch_max_count := batch_max_count w;
     batch_max_age_ms := batch_max_age_ms w;
     batch_max_bytes := batch_max_bytes w;
     buffers := b;
     buffers_keys := ks;
     buffer_first_at := fa;
     buffer_bytes := bb |}.

Definition stream_for_genre (genre : string) : string := "blogs:genre:" +:+ genre.

(** [self.buffers[key]] on the [defaultdict(list)]: a missing key is
    inserted with an empty list. *)
Definition buffers_getitem (w : BlogWorker) (key : Key)
  : list BufferedItem * BlogWorker :=
  match buffers w !! key with
  | Some items => (items, w)
  | None =>
      ([], with_buffers w (<[key := []]> (buffers w)) (buffers_keys w ++ [key])
             (buffer_first_at w) (buffer_bytes w))
  end.

(** [self.buffers.get(key, [])] *)
Definition items_of (w : BlogWorker) (key : Key) : list BufferedItem :=
  default [] (buffers w !! key).

(** [self.buffer_bytes.get(key, 0)], which is also what the
    [defaultdict(int)] reads. *)
Definition bytes_of (w : BlogWorker) (key : Key) : Z :=
  default 0 (buffer_bytes w !! key).

(** The row the stored procedure receives for one item: an element of
    [rows_json_list]. *)
Record RowJson := {
  j_client_msg_id : string;
  j_author : string;
  j_created_at : string;
  j_updated_at : string;
  j_genre : string;
  j_location : string;
  j_content : string
}.

Inductive DbEvent :=
| BEGIN
| CALL_sp_bulk_insert_blogs (rows_json : list RowJson)
| COMMIT
| ROLLBACK.

(** What [_flush_key] does to the outside, in order. *)
Inductive Event :=
| Db (e : DbEvent)
| Bus (c : RedisCmd)
| Warning (stream : string).

(** How the transaction [async with engine.begin() as conn: ...] ends. *)
Inductive TxOutcome :=
| ConnectFails
| ExecuteFails
| CommitFails
| Commits.

(** How [xack] followed by [xdel] on one stream ends. *)
Inductive AckOutcome :=
| AckFails
| DelFails
| AckDelOk.

(** What a call leaves behind: the trace, whether it raised, the worker. *)
Record Outcome := {
  trace : list Event;
  raised : bool;
  after : BlogWorker
}.

Section Methods.

(** [datetime.fromisoformat]; [None] when it raises. *)
Variable fromisoformat : string -> option datetime.

(** [dt.astimezone(timezone.utc).strftime("%Y-%m-%d %H:%M:%S.%f")]. *)
Variable strftime_utc : datetime -> Reply string.

(** [_add_to_buffer]. [now_except] is the clock read in the [except]
    branch, [now] the one read after it. *)
Definition _add_to_buffer (w : BlogWorker) (stream mid : string)
    (fields : gmap string string) (now_except now : Z) : BlogWorker :=
  let genre := default "" (fields !! "genre") in
  let location := default "" (fields !! "location") in
  let author := default "" (fields !! "author") in
  let content := default "" (fields !! "content") in
  let client_msg_id := fields !! "client_msg_id" in
  let created_at_iso := fields !! "created_at_iso" in
  let created_at :=
    match created_at_iso ≫= fromisoformat with
    | Some dt => dt
    | None => utc_datetime now_except
    end in
  let row :=
    {| Blogs.client_msg_id := client_msg_id;
       Blogs.author := author;
       Blogs.created_at := created_at;
       Blogs.updated_at := utc_datetime now;
       Blogs.genre := genre;
       Blogs.location := location;
       Blogs.content := content |} in
  let key := (genre, location) in
  let '(items, w1) := buffers_getitem w key in
  let item := {| row := row; redis_stream := stream; redis_message_id := mid |} in
  let buffers' := <[key := items ++ [item]]> (buffers w1) in
  let first_at' :=
    match buffer_first_at w1 !! key with
    | Some _ => buffer_first_at w1
    | None => <[key := now]> (buffer_first_at w1)
    end in
  let approx_bytes := len content + len author + len location + len genre + 64 in
  let bytes' := <[key := bytes_of w1 key + approx_bytes]> (buffer_bytes w1) in
  with_buffers w1 buffers' (buffers_keys w1) first_at' bytes'.

(** [_should_flush]; [now] is the clock read for the age test. A
    [timedelta] counts microseconds. *)
Definition _should_flush (w : BlogWorker) (key : Key) (now : Z)
  : bool * BlogWorker :=
  let '(items, w1) := buffers_getitem w key in
  match items with
  | [] => (false, w1)
  | _ =>
      if Z.of_nat (length items) >=? batch_max_count w1 then (true, w1)
      else
        match buffer_first_at w1 !! key with
        | Some first_at =>
            if now - first_at >=? 1000 * batch_max_age_ms w1 then (true, w1)
            else if bytes_of w1 key >=? batch_max_bytes w1 then (true, w1)
            else (false, w1)
        | None =>
            if bytes_of w1 key >=? batch_max_bytes w1 then (true, w1)
            else (false, w1)
        end
  end.

(** [r.client_msg_id or ""] *)
Definition client_msg_id_or_empty (r : Blogs.BlogRow) : string :=
  default "" (Blogs.client_msg_id r).

(** The loop that builds [rows_json_list]; [_format_dt] may raise. *)
Fixpoint rows_json_list (items : list BufferedItem) : Reply (list RowJson) :=
  match items with
  | [] => Returns []
  | bi :: rest =>
      let r := row bi in
      match strftime_utc (Blogs.created_at r) with
      | Raises e => Raises e
      | Returns c =>
          match strftime_utc (Blogs.updated_at r) with
          | Raises e => Raises e
          | Returns u =>
              match rows_json_list rest with
              | Raises e => Raises e
              | Returns l =>
                  Returns ({| j_client_msg_id := client_msg_id_or_empty r;
                              j_author := Blogs.author r;
                              j_created_at := c;
                              j_updated_at := u;
                              j_genre := Blogs.genre r;
                              j_location := Blogs.location r;
                              j_content := Blogs.content r |} :: l)
              end
          end
      end
  end.

(** [stream_to_mids[stream].append(mid)] on the [defaultdict(list)], whose
    items come out in the order their keys went in. *)
Fixpoint append_mid (d : list (string * list string)) (stream mid : string)
  : list (string * list string) :=
  match d with
  | [] => [(stream, [mid])]
  | (s, mids) :: d' =>
      if String.eqb s stream then (s, mids ++ [mid]) :: d'
      else (s, mids) :: append_mid d' stream mid
  end.

Definition stream_to_mids (items : list BufferedItem) : list (string * list string) :=
  fold_left (fun d bi => append_mid d (redis_stream bi) (redis_message_id bi)) items [].

(** The body of the acknowledgement loop for one stream: [xack], then
    [xdel]; an exception of either is logged and swallowed. *)
Definition ack_stream (group : string) (bus : string -> AckOutcome)
    (sm : string * list string) : list Event :=
  let '(stream, mids) := sm in
  match bus stream with
  | AckFails => [Bus (XACK stream group mids); Warning stream]
  | DelFails => [Bus (XACK stream group mids); Bus (XDEL stream mids); Warning stream]
  | AckDelOk => [Bus (XACK stream group mids); Bus (XDEL stream mids)]
  end.

(** The three statements under [# reset buffer]. *)
Definition reset_buffer (w : BlogWorker) (key : Key) : BlogWorker :=
  let '(_, w1) := buffers_getitem w key in
  with_buffers w1 (<[key := []]> (buffers w1)) (buffers_keys w1)
    (delete key (buffer_first_at w1)) (<[key := 0]> (buffer_bytes w1)).

(** [_flush_key]. *)
Definition _flush_key (w : BlogWorker) (key : Key)
    (tx : TxOutcome) (bus : string -> AckOutcome) : Outcome :=
  match items_of w key with
  | [] => {| trace := []; raised := false; after := w |}
  | items =>
      match rows_json_list items with
      | Raises _ => {| trace := []; raised := true; after := w |}
      | Returns rows_json =>
          match tx with
          | ConnectFails => {| trace := []; raised := true; after := w |}
          | ExecuteFails | CommitFails =>
              {| trace := [Db BEGIN; Db (CALL_sp_bulk_insert_blogs rows_json); Db ROLLBACK];
                 raised := true; after := w |}
          | Commits =>
              {| trace :=
                   [Db BEGIN; Db (CALL_sp_bulk_insert_blogs rows_json); Db COMMIT]
                   ++ concat (map (ack_stream (consumer_group w) bus) (stream_to_mids items));
                 raised := false;
                 after := reset_buffer w key |}
          end
      end
  end.

(** The shape of every outcome of [_flush_key]. *)
Inductive flush_case (w : BlogWorker) (key : Key) (tx : TxOutcome)
    (bus : string -> AckOutcome) : Outcome -> Prop :=
| flush_nothing :
    items_of w key = [] ->
    flush_case w key tx bus {| trace := []; raised := false; after := w |}
| flush_format_error e :
    items_of w key <> [] ->
    rows_json_list (items_of w key) = Raises e ->
    flush_case w key tx bus {| trace := []; raised := true; after := w |}
| flush_no_connection rows_json :
    items_of w key <> [] ->
    rows_json_list (items_of w key) = Returns rows_json ->
    tx = ConnectFails ->
    flush_case w key tx bus {| trace := []; raised := true; after := w |}
| flush_rolled_back rows_json :
    items_of w key <> [] ->
    rows_json_list (items_of w key) = Returns rows_json ->
    tx = ExecuteFails \/ tx = CommitFails ->
    flush_case w key tx bus
      {| trace := [Db BEGIN; Db (CALL_sp_bulk_insert_blogs rows_json); Db ROLLBACK];
         raised := true; after := w |}
| flush_committed rows_json :
    items_of w key <> [] ->
    rows_json_list (items_of w key) = Returns rows_json ->
    tx = Commits ->
    flush_case w key tx bus
      {| trace := [Db BEGIN; Db (CALL_sp_bulk_insert_blogs rows_json); Db COMMIT]
                  ++ concat (map (ack_stream (consumer_group w) bus)
                               (stream_to_mids (items_of w key)));
         raised := false; after := reset_buffer w key |}.

(** The loop of [run] over the reply of [xreadgroup]; [clock stream mid]
    gives the two clock readings of the call for that message. *)
Definition buffer_messages (w : BlogWorker)
    (resp : list (string * list (string * gmap string string)))
    (clock : string -> string -> Z * Z) : BlogWorker :=
  fold_left
    (fun w sm =>
       let '(stream, messages) := sm in
       fold_left
         (fun w m =>
            let '(mid, fields) := m in
            let '(t1, t2) := clock stream mid in
            _add_to_buffer w stream mid fields t1 t2)
         messages w)
    resp w.

(** [[k for k in list(self.buffers.keys()) if self._should_flush(k)]];
    [now_at k] is the clock read by the call for [k]. *)
Fixpoint select_keys (w : BlogWorker) (keys : list Key) (now_at : Key -> Z)
  : list Key * BlogWorker :=
  match keys with
  | [] => ([], w)
  | k :: keys' =>
      let '(b, w1) := _should_flush w k (now_at k) in
      let '(ks, w2) := select_keys w1 keys' now_at in
      (if b then k :: ks else ks, w2)
  end.

Definition keys_to_flush (w : BlogWorker) (now_at : Key -> Z) : list Key * BlogWorker :=
  select_keys w (buffers_keys w) now_at.

(** [for key in keys_to_flush: await self._flush_key(key)]: the first
    exception ends the loop. *)
Fixpoint flush_keys (w : BlogWorker) (keys : list Key)
    (tx : Key -> TxOutcome) (bus : Key -> string -> AckOutcome) : Outcome :=
  match keys with
  | [] => {| trace := []; raised := false; after := w |}
  | k :: keys' =>
      let o := _flush_key w k (tx k) (bus k) in
      if raised o then o
      else
        let o' := flush_keys (after o) keys' tx bus in
        {| trace := trace o ++ trace o'; raised := raised o'; after := after o' |}
  end.

(** One iteration of [run] from the reply of [xreadgroup] on: buffer the
    messages, select the keys, flush them. The [except] clause logs the
    exception and sleeps; the worker is left as the failing call left it. *)
Definition run_after_read (w : BlogWorker)
    (resp : list (string * list (string * gmap string string)))
    (clock : string -> string -> Z * Z) (now_at : Key -> Z)
    (tx : Key -> TxOutcome) (bus : Key -> string -> AckOutcome) : Outcome :=
  let w1 := buffer_messages w resp clock in
  let '(keys, w2) := keys_to_flush w1 now_at in
  flush_keys w2 keys tx bus.

End Methods.

(** The approximate byte cost [_add_to_buffer] charges for an item, and
    the cost of a list of items. *)
Definition approx_bytes (bi : BufferedItem) : Z :=
  len (Blogs.content (row bi)) + len (Blogs.author (row bi))
  + len (Blogs.location (row bi)) + len (Blogs.genre (row bi)) + 64.

Definition total_bytes (items : list BufferedItem) : Z :=
  foldr (fun bi acc => approx_bytes bi + acc) 0 items.

(** The invariant of the three dictionaries: the byte accumulator of a key
    is the cost of its buffered items, a key has a first-insert timestamp
    exactly when its buffer is not empty, and [buffers_keys] lists the keys
    of [buffers] once each. *)
Definition buffer_inv (w : BlogWorker) : Prop :=
  (forall key, bytes_of w key = total_bytes (items_of w key))
  /\ (forall key, items_of w key = [] <-> buffer_first_at w !! key = None)
  /\ NoDup (buffers_keys w)
  /\ (forall key, key ∈ buffers_keys w <-> is_Some (buffers w !! key)).

End Worker.

(** ** [app/dataservice/server.py] *)

Module Server.

(** [grpc.StatusCode] *)
Inductive StatusCode :=
| OK | CANCELLED | UNKNOWN | INVALID_ARGUMENT | DEADLINE_EXCEEDED | NOT_FOUND
| ALREADY_EXISTS | PERMISSION_DENIED | RESOURCE_EXHAUSTED | FAILED_PRECONDITION
| ABORTED | OUT_OF_RANGE | UNIMPLEMENTED | INTERNAL | UNAVAILABLE | DATA_LOSS
| UNAUTHENTICATED.

(** How a handler ends: it returns its response, it leaves through
    [context.abort(code, details)], or an exception escapes it. *)
Inductive Rpc (A : Type) :=
| Respond (a : A)
| Abort (code : StatusCode) (details : string)
| Unhandled (exn : string).
Arguments Respond {A} a.
Arguments Abort {A} code details.
Arguments Unhandled {A} exn.

(** The messages of [blog_pb2] the handlers below read and build. A string
    field that is not set reads as the empty string, an integer as 0. *)
Record BlogCreateRequest := {
  client_msg_id : string;
  author : string;
  content : string;
  genre : string;
  location : string;
  created_at_iso : string
}.

Record BlogEnqueueResponse := {
  enqueued : bool;
  stream : string;
  message_id : string
}.

Record ListBlogsRequest := {
  list_author : string;
  list_genre : string;
  list_location : string;
  limit : Z;
  offset : Z
}.

Record Blog := {
  blog_id : Z;
  blog_client_msg_id : string;
  blog_author : string;
  blog_created_at_iso : string;
  blog_updated_at_iso : string;
  blog_genre : string;
  blog_location : string;
  blog_content : string
}.

Record UpdateBlogRequest := {
  id : Z;
  new_content : string;
  updated_at_iso : string
}.

(** The bound parameters of [SELECT_LIST_SQL]. *)
Record ListParams := {
  p_author : option string;
  p_genre : option string;
  p_location : option string;
  p_limit : Z;
  p_offset : Z
}.

(** The statements the handlers send to MySQL. *)
Inductive SqlCall :=
| SELECT_LIST_SQL (params : ListParams)
| CALL_sp_update_blog_content (id : Z) (content : string) (updated_at : datetime).

Record DataService := {
  stream_maxlen : Z
}.

(** [DataService.__init__] *)
Definition __init__ (STREAM_MAXLEN : option Z) : DataService :=
  {| stream_maxlen := getenv_int STREAM_MAXLEN (Config.stream_maxlen Config.settings) |}.

Definition _stream_for_genre (genre : string) : string := "blogs:genre:" +:+ genre.

(** [x or None] on a string, [x or d] on an integer. *)
Definition or_None (x : string) : option string := if is_empty x then None else Some x.
Definition int_or (x d : Z) : Z := if x =? 0 then d else x.

(** [EnqueueBlog]. [uuid4] is [str(uuid.uuid4())], [now_iso] is
    [_now_iso()], [sadd] and [xadd] are the replies of Redis. *)
Definition EnqueueBlog (self : DataService) (request : BlogCreateRequest)
    (uuid4 now_iso : string) (sadd : Reply Z) (xadd : Reply string)
  : list RedisCmd * Rpc BlogEnqueueResponse :=
  let client_msg_id := str_or (client_msg_id request) uuid4 in
  let genre := strip (str_or (genre request) "") in
  let location := strip (str_or (location request) "") in
  let author := strip (str_or (author request) "") in
  let content := str_or (content request) "" in
  let created_at_iso := str_or (created_at_iso request) now_iso in
  if is_empty genre || is_empty location || is_empty author || is_empty content then
    ([], Abort INVALID_ARGUMENT "author, content, genre, location are required")
  else
    let stream := _stream_for_genre genre in
    let fields :=
      [("client_msg_id", client_msg_id);
       ("author", author);
       ("content", content);
       ("genre", genre);
       ("location", location);
       ("created_at_iso", created_at_iso)] in
    let sadd_cmd := SADD "blogs:genres" genre in
    let xadd_cmd := XADD stream fields (stream_maxlen self) true in
    match sadd with
    | Raises e => ([sadd_cmd], Unhandled e)
    | Returns _ =>
        match xadd with
        | Raises e => ([sadd_cmd; xadd_cmd], Unhandled e)
        | Returns message_id =>
            ([sadd_cmd; xadd_cmd],
             Respond {| enqueued := true; stream := stream; message_id := message_id |})
        end
    end.

Section Handlers.

(** [datetime.fromisoformat]; [None] when it raises. *)
Variable fromisoformat : string -> option datetime.

(** [dt.astimezone(timezone.utc)]; [None] when it raises. *)
Variable astimezone_utc : datetime -> option datetime.

(** [dt.isoformat()] *)
Variable isoformat : datetime -> string.

(** [_dt_to_iso] *)
Definition _dt_to_iso (dt : datetime) : Reply string :=
  let dt := match dt_utcoffset dt with None => replace_tzinfo_utc dt | Some _ => dt end in
  match astimezone_utc dt with
  | Some u => Returns (isoformat u)
  | None => Raises "OverflowError"
  end.

(** [_iso_to_dt]; [now] is the clock, read where the function falls back
    on it. *)
Definition _iso_to_dt (s : option string) (now : Z) : datetime :=
  match s with
  | None => utc_datetime now
  | Some s =>
      if is_empty s then utc_datetime now
      else
        match fromisoformat s with
        | None => utc_datetime now
        | Some dt =>
            let dt := match dt_utcoffset dt with
                      | None => replace_tzinfo_utc dt
                      | Some _ => dt
                      end in
            match astimezone_utc dt with
            | Some u => u
            | None => utc_datetime now
            end
        end
  end.

(** The [params] dictionary of [ListBlogs]. *)
Definition ListBlogs_params (request : ListBlogsRequest) : ListParams :=
  {| p_author := or_None (list_author request);
     p_genre := or_None (list_genre request);
     p_location := or_None (list_location request);
     p_limit := int_or (limit request) 50;
     p_offset := int_or (offset request) 0 |}.

(** The loop of [ListBlogs] over the mappings of the result. *)
Fixpoint blogs_of (ms : list Blogs.Stored) : Reply (list Blog) :=
  match ms with
  | [] => Returns []
  | m :: ms' =>
      match _dt_to_iso (Blogs.created_at (Blogs.cols m)) with
      | Raises e => Raises e
      | Returns c =>
          match _dt_to_iso (Blogs.updated_at (Blogs.cols m)) with
          | Raises e => Raises e
          | Returns u =>
              match blogs_of ms' with
              | Raises e => Raises e
              | Returns l =>
                  Returns ({| blog_id := Blogs.id m;
                              blog_client_msg_id :=
                                default "" (Blogs.client_msg_id (Blogs.cols m));
                              blog_author := Blogs.author (Blogs.cols m);
                              blog_created_at_iso := c;
                              blog_updated_at_iso := u;
                              blog_genre := Blogs.genre (Blogs.cols m);
                              blog_location := Blogs.location (Blogs.cols m);
                              blog_content := Blogs.content (Blogs.cols m) |} :: l)
              end
          end
      end
  end.

(** [ListBlogs]; [db] is what MySQL answers to the statement. *)
Definition ListBlogs (request : ListBlogsRequest)
    (db : ListParams -> Reply (list Blogs.Stored))
  : list SqlCall * Rpc (list Blog) :=
  let params := ListBlogs_params request in
  ([SELECT_LIST_SQL params],
   match db params with
   | Raises e => Unhandled e
   | Returns ms =>
       match blogs_of ms with
       | Raises e => Unhandled e
       | Returns blogs => Respond blogs
       end
   end).

(** [int(row["updated"]) if row and "updated" in row else 0] *)
Definition updated_of (row : option (gmap string Z)) : Z :=
  match row with
  | Some m => default 0 (m !! "updated")
  | None => 0
  end.

(** [UpdateBlog]; [db] is the first row MySQL answers to the call,
    [commit] whether the transaction then commits. The response is
    [UpdateBlogResponse(updated=True)]. *)
Definition UpdateBlog (request : UpdateBlogRequest) (now : Z)
    (db : Reply (option (gmap string Z))) (commit : Reply ())
  : list SqlCall * Rpc bool :=
  let updated_at := _iso_to_dt (Some (updated_at_iso request)) now in
  ([CALL_sp_update_blog_content (id request) (new_content request) updated_at],
   match db with
   | Raises e => Unhandled e
   | Returns row =>
       if updated_of row =? 0 then Abort NOT_FOUND "Not found"
       else
         match commit with
         | Raises e => Unhandled e
         | Returns _ => Respond true
         end
   end).

End Handlers.

End Server.

(** ** [app/api/main.py] *)

Module Api.

(** [grpc.aio.AioRpcError], as the client sees it. *)
Record AioRpcError := {
  code : Server.StatusCode;
  details : string
}.

(** What the channel hands to the caller of a stub method for each way the
    handler can end. An exception that escapes a handler reaches the client
    with status [UNKNOWN]. *)
Definition deliver {A : Type} (r : Server.Rpc A) : AioRpcError + A :=
  match r with
  | Server.Respond a => inr a
  | Server.Abort c d => inl {| code := c; details := d |}
  | Server.Unhandled e => inl {| code := Server.UNKNOWN; details := "Unexpected " +:+ e |}
  end.

(** The response of [CreateBlogSync], as [create_blog] reads it. *)
Record BlogCreateSyncResponse := {
  sync_id : Z;
  sync_stream : string;
  sync_message_id : string
}.

(** [blog_pb2_grpc.DataServiceStub]: the methods the endpoints below call.
    [BlogCreateSyncRequest] has the fields of [BlogCreateRequest]. *)
Record Stub := {
  stub_CreateBlogSync : Server.BlogCreateRequest -> AioRpcError + BlogCreateSyncResponse;
  stub_EnqueueBlog : Server.BlogCreateRequest -> AioRpcError + Server.BlogEnqueueResponse;
  stub_ListBlogs : Server.ListBlogsRequest -> AioRpcError + list Server.Blog;
  stub_UpdateBlog : Server.UpdateBlogRequest -> AioRpcError + bool
}.

(** The pydantic models. FastAPI builds them from the body and calls the
    endpoint only when the [Field] constraints hold. *)
Record BlogCreate := {
  author : string;
  content : string;
  genre : string;
  location : string;
  created_at_iso : option string;
  client_msg_id : option string
}.

Record BlogOut := {
  out_id : Z;
  out_client_msg_id : option string;
  out_author : string;
  out_created_at_iso : string;
  out_updated_at_iso : string;
  out_genre : string;
  out_location : string;
  out_content : string
}.

Record BlogUpdate := {
  update_content : string;
  update_updated_at_iso : option string
}.

(** A value of a JSON object the endpoints return. *)
Inductive Json :=
| JStr (s : string)
| JInt (z : Z).

(** How an endpoint fails: it raises [HTTPException(status_code, detail)],
    or FastAPI refuses the request before the body of the endpoint runs
    ([RequestValidationError], answered with status 422; [param] is the
    first parameter it refuses). *)
Inductive Failure :=
| HTTPException (status_code : Z) (detail : string)
| RequestValidationError (param : string).

Definition http_status {A : Type} (r : Failure + A) : Z :=
  match r with
  | inl (HTTPException st _) => st
  | inl (RequestValidationError _) => 422
  | inr _ => 200
  end.

(** A query parameter of the URL: absent, an integer, or not an integer. *)
Inductive QueryValue :=
| Absent
| Int (z : Z)
| NotAnInt.

(** [Query(default=d, ge=lo, le=hi)] on an [int] parameter: the value the
    endpoint receives, or [None] when FastAPI refuses the request. *)
Definition Query_int (d : Z) (ge le : option Z) (q : QueryValue) : option Z :=
  match q with
  | Absent => Some d
  | NotAnInt => None
  | Int z =>
      if match ge with Some lo => lo <=? z | None => true end
         && match le with Some hi => z <=? hi | None => true end
      then Some z else None
  end.

(** [x or ""] on an optional string. *)
Definition or_empty (x : option string) : string := default "" x.

Definition request_of (req : BlogCreate) : Server.BlogCreateRequest :=
  {| Server.client_msg_id := or_empty (client_msg_id req);
     Server.author := author req;
     Server.content := content req;
     Server.genre := genre req;
     Server.location := location req;
     Server.created_at_iso := or_empty (created_at_iso req) |}.

(** [create_blog] *)
Definition create_blog (req : BlogCreate) (sync : bool) (stub : Stub)
  : Failure + list (string * Json) :=
  if sync then
    match stub_CreateBlogSync stub (request_of req) with
    | inr resp =>
        inr [("status", JStr "created"); ("id", JInt (sync_id resp));
             ("stream", JStr (sync_stream resp));
             ("message_id", JStr (sync_message_id resp))]
    | inl e => inl (HTTPException 400 (details e))
    end
  else
    match stub_EnqueueBlog stub (request_of req) with
    | inr resp =>
        inr [("status", JStr "enqueued"); ("stream", JStr (Server.stream resp));
             ("message_id", JStr (Server.message_id resp))]
    | inl e => inl (HTTPException 400 (details e))
    end.

Definition BlogOut_of (b : Server.Blog) : BlogOut :=
  {| out_id := Server.blog_id b;
     out_client_msg_id := Server.or_None (Server.blog_client_msg_id b);
     out_author := Server.blog_author b;
     out_created_at_iso := Server.blog_created_at_iso b;
     out_updated_at_iso := Server.blog_updated_at_iso b;
     out_genre := Server.blog_genre b;
     out_location := Server.blog_location b;
     out_content := Server.blog_content b |}.

(** [list_blogs], with the [Query] declarations of its signature. *)
Definition list_blogs (author genre location : option string)
    (limit offset : QueryValue) (stub : Stub) : Failure + list BlogOut :=
  match Query_int 50 (Some 1) (Some 500) limit with
  | None => inl (RequestValidationError "limit")
  | Some limit =>
      match Query_int 0 (Some 0) None offset with
      | None => inl (RequestValidationError "offset")
      | Some offset =>
          match stub_ListBlogs stub
                  {| Server.list_author := or_empty author;
                     Server.list_genre := or_empty genre;
                     Server.list_location := or_empty location;
                     Server.limit := limit;
                     Server.offset := offset |} with
          | inl e => inl (HTTPException 500 (details e))
          | inr blogs => inr (map BlogOut_of blogs)
          end
      end
  end.

(** [update_blog] *)
Definition update_blog (blog_id : Z) (req : BlogUpdate) (stub : Stub)
  : Failure + list (string * Json) :=
  match stub_UpdateBlog stub
          {| Server.id := blog_id;
             Server.new_content := update_content req;
             Server.updated_at_iso := or_empty (update_updated_at_iso req) |} with
  | inl e =>
      match code e with
      | Server.NOT_FOUND => inl (HTTPException 404 "Not found")
      | _ => inl (HTTPException 500 (details e))
      end
  | inr updated =>
      inr [("status", JStr (if updated then "updated" else "noop")); ("id", JInt blog_id)]
  end.

(** What stands behind a running data service: the values and replies its
    handlers take from the clock, the random source, Redis and MySQL. *)
Record Backend := {
  uuid4 : string;
  now_iso : string;
  now : Z;
  sadd : Reply Z;
  xadd : Reply string;
  select_list : Server.ListParams -> Reply (list Blogs.Stored);
  sp_update_blog_content : Reply (option (gmap string Z));
  commit : Reply ()
}.

Section Served.

Variable fromisoformat : string -> option datetime.
Variable astimezone_utc : datetime -> option datetime.
Variable isoformat : datetime -> string.

(** The error with which the servicer class generated from the service
    definition answers a method that [DataService] does not override. *)
Variable not_overridden : AioRpcError.

(** The stub of a channel to a running [DataService]. The class defines
    [EnqueueBlog], [GetBlog], [ListBlogs], [UpdateBlog], [DeleteBlog],
    [BulkDelete] and [BulkUpdate]; it has no [CreateBlogSync], so that call
    is answered by the generated base class. *)
Definition DataService_stub (self : Server.DataService) (b : Backend) : Stub :=
  {| stub_CreateBlogSync := fun _ => inl not_overridden;
     stub_EnqueueBlog := fun request =>
       deliver (snd (Server.EnqueueBlog self request (uuid4 b) (now_iso b) (sadd b) (xadd b)));
     stub_ListBlogs := fun request =>
       deliver (snd (Server.ListBlogs astimezone_utc isoformat request (select_list b)));
     stub_UpdateBlog := fun request =>
       deliver (snd (Server.UpdateBlog fromisoformat astimezone_utc request (now b)
                       (sp_update_blog_content b) (commit b))) |}.

End Served.

End Api.

(** ** Vocabulary of the properties *)

(** [t] is [s] with its leading and trailing whitespace removed: [s] is [t]
    between two runs of whitespace, and [t] neither starts nor ends with
    whitespace. *)
Definition trimmed_of (s t : string) : Prop :=
  (exists l r, all_space l = true /\ all_space r = true /\ s = l +:+ t +:+ r)
  /\ lstrip t = t
  /\ rstrip t = t.

(** The key under which [_add_to_buffer] files a message, and the byte
    cost it charges for it. *)
Definition message_key (fields : gmap string string) : Worker.Key :=
  (default "" (fields !! "genre"), default "" (fields !! "location")).

Definition message_cost (fields : gmap string string) : Z :=
  len (default "" (fields !! "content")) + len (default "" (fields !! "author"))
  + len (default "" (fields !! "location")) + len (default "" (fields !! "genre")) + 64.

(** The workers [w] and [w'] hold the same buffer, first-insert timestamp
    and byte accumulator for the key [k]. *)
Definition same_entries (w w' : Worker.BlogWorker) (k : Worker.Key) : Prop :=
  Worker.items_of w' k = Worker.items_of w k
  /\ Worker.buffer_first_at w' !! k = Worker.buffer_first_at w !! k
  /\ Worker.bytes_of w' k = Worker.bytes_of w k.

(** [w] and [w'] have the same batching thresholds. *)
Definition same_thresholds (w w' : Worker.BlogWorker) : Prop :=
  Worker.batch_max_count w' = Worker.batch_max_count w
  /\ Worker.batch_max_age_ms w' = Worker.batch_max_age_ms w
  /\ Worker.batch_max_bytes w' = Worker.batch_max_bytes w.

(** The caller of an endpoint asked for the value [v] of a query parameter
    whose default is [d]: it gave [v], or it gave nothing and [v] is [d]. *)
Definition asked_for (d : Z) (q : Api.QueryValue) (v : Z) : Prop :=
  q = Api.Int v \/ (q = Api.Absent /\ v = d).

(** What [list_blogs] answers once it has called [ListBlogs]. *)
Definition forwarded (reply : Api.AioRpcError + list Server.Blog)
  : Api.Failure + list Api.BlogOut :=
  match reply with
  | inl e => inl (Api.HTTPException 500 (Api.details e))
  | inr blogs => inr (map Api.BlogOut_of blogs)
  end.

(** ** Sample data

    The record of the first scenario of the specification,
    [{author: "a", content: "hi", genre: "g1", location: "l1"}], as it
    travels through the facade, the data service, the stream and the
    worker. *)

Module Sample.

(** Stand-ins for the library functions: one timestamp parses. *)
Definition fromisoformat (s : string) : option datetime :=
  if String.eqb s "2024-01-01T00:00:00+00:00"
  then Some (utc_datetime 1704067200000000) else None.

Definition strftime_utc (dt : datetime) : Reply string :=
  match dt_utcoffset dt with
  | Some _ => Returns "2024-01-01 00:00:00.000000"
  | None => Raises "OverflowError"
  end.

Definition astimezone_utc (dt : datetime) : option datetime :=
  match dt_utcoffset dt with
  | Some off => Some (utc_datetime (dt_micros dt - off))
  | None => None
  end.

Definition isoformat (dt : datetime) : string := "2024-01-01T00:00:00+00:00".

Definition collation_key (s : string) : string := s.

Definition not_overridden : Api.AioRpcError :=
  {| Api.code := Server.UNIMPLEMENTED; Api.details := "Method not implemented!" |}.

Definition client_msg_id : string := "11111111-1111-1111-1111-111111111111".

(** The body of [POST /blogs]. *)
Definition body : Api.BlogCreate :=
  {| Api.author := "a"; Api.content := "hi"; Api.genre := "g1"; Api.location := "l1";
     Api.created_at_iso := None; Api.client_msg_id := Some client_msg_id |}.

(** The same with an author made of blanks. *)
Definition blank_author : Server.BlogCreateRequest :=
  {| Server.client_msg_id := ""; Server.author := "  "; Server.content := "hi";
     Server.genre := " g1 "; Server.location := "l1"; Server.created_at_iso := "" |}.

Definition service : Server.DataService := Server.__init__ None.

(** A backend in which everything answers. *)
Definition backend_up : Api.Backend :=
  {| Api.uuid4 := "22222222-2222-2222-2222-222222222222";
     Api.now_iso := "2024-01-01T00:00:00+00:00";
     Api.now := 1704067200000000;
     Api.sadd := Returns 1;
     Api.xadd := Returns "1704067200000-0";
     Api.select_list := fun _ => Returns [];
     Api.sp_update_blog_content := Returns (Some {[ "updated" := 1 ]});
     Api.commit := Returns () |}.

(** A backend whose Redis is down. *)
Definition backend_redis_down : Api.Backend :=
  {| Api.uuid4 := "22222222-2222-2222-2222-222222222222";
     Api.now_iso := "2024-01-01T00:00:00+00:00";
     Api.now := 1704067200000000;
     Api.sadd := Raises "ConnectionError";
     Api.xadd := Raises "ConnectionError";
     Api.select_list := fun _ => Returns [];
     Api.sp_update_blog_content := Returns (Some {[ "updated" := 1 ]});
     Api.commit := Returns () |}.

Definition stub_up : Api.Stub :=
  Api.DataService_stub fromisoformat astimezone_utc isoformat not_overridden
    service backend_up.

Definition stub_redis_down : Api.Stub :=
  Api.DataService_stub fromisoformat astimezone_utc isoformat not_overridden
    service backend_redis_down.

(** The entry of the stream, as the worker reads it. *)
Definition fields : gmap string string :=
  list_to_map
    [("client_msg_id", client_msg_id); ("author", "a"); ("content", "hi");
     ("genre", "g1"); ("location", "l1");
     ("created_at_iso", "2024-01-01T00:00:00+00:00")].

Definition key : Worker.Key := ("g1", "l1").

Definition worker0 : Worker.BlogWorker :=
  Worker.__init__ None None None None None "host-1".

(** The worker after it has buffered the entry at instant
    1704067200000000. *)
Definition worker1 : Worker.BlogWorker :=
  Worker._add_to_buffer fromisoformat worker0 "blogs:genre:g1" "1704067200000-0"
    fields 1704067200000000 1704067200000000.

(** A table with the record, and the tuple a second delivery of the same
    [client_msg_id] inserts. *)
Definition stored : Blogs.Stored :=
  {| Blogs.id := 1;
     Blogs.cols :=
       {| Blogs.client_msg_id := Some client_msg_id;
          Blogs.author := "a";
          Blogs.created_at := utc_datetime 1704067200000000;
          Blogs.updated_at := utc_datetime 1704067200000000;
          Blogs.genre := "g1"; Blogs.location := "l1"; Blogs.content := "hi" |} |}.

Definition table : Blogs.Table :=
  {| Blogs.rows := [stored]; Blogs.auto_increment := 2 |}.

Definition redelivered : Blogs.BlogRow :=
  {| Blogs.client_msg_id := Some client_msg_id;
     Blogs.author := "a";
     Blogs.created_at := utc_datetime 1704067200000000;
     Blogs.updated_at := utc_datetime 1704067205000000;
     Blogs.genre := "g1"; Blogs.location := "l1"; Blogs.content := "hi" |}.

End Sample.

From stdpp Require Import sorting pretty.

Open Scope Z_scope.

(** ** More of Python: substring test, [lower], [sorted], [join] *)

(** [needle in hay] on strings. *)
Fixpoint py_in (needle hay : string) : bool :=
  String.prefix needle hay
  || match hay with
     | EmptyString => false
     | String _ hay' => py_in needle hay'
     end.

(** [str.lower] on one character, for the code points below 256: the
    letters A..Z and the capital letters 192..222 but for the
    multiplication sign 215. *)
Definition lower_char (c : ascii) : ascii :=
  let n := nat_of_ascii c in
  if (Nat.leb 65 n && Nat.leb n 90)
     || (Nat.leb 192 n && Nat.leb n 222 && negb (Nat.eqb n 215))
  then ascii_of_nat (n + 32) else c.

(** [s.lower()] *)
Fixpoint lower (s : string) : string :=
  match s with
  | EmptyString => EmptyString
  | String c s' => String (lower_char c) (lower s')
  end.

(** The order of [str]: lexicographic on the code points. *)
Definition str_le (a b : string) : Prop := String.leb a b = true.

#[global] Instance str_le_dec : RelDecision str_le.
Proof. intros a b. unfold str_le. apply _. Defined.

(** [sorted(l)] on strings. *)
Definition sorted (l : list string) : list string := merge_sort str_le l.

(** [sep.join(l)] *)
Fixpoint join (sep : string) (l : list string) : string :=
  match l with
  | [] => EmptyString
  | [x] => x
  | x :: l' => x +:+ sep +:+ join sep l'
  end.

(** ** The rest of [app/worker/worker.py]: discovery, groups, the loop *)

Module WorkerLoop.

(** What [xgroup_create] gives back: it returns, it raises
    [redis.ResponseError] with a message, or it raises something else. *)
Inductive GroupReply :=
| GroupCreated
| ResponseError (msg : string)
| OtherException (exn : string).

(** What [ensure_groups] does to the outside, in order. *)
Inductive GroupEvent :=
| XGROUP_CREATE (name groupname id : string) (mkstream : bool)
| Info (stream : string)
| Warn (stream msg : string).

(** The three tests of the [except] branch that end in [continue]. *)
Definition ignored (msg : string) : bool :=
  py_in "BUSYGROUP" msg || py_in "NOGROUP" msg || py_in "exists" (lower msg).

(** [ensure_groups]; [reply i] is what Redis answers to the [i]-th call of
    the loop, counted from [i0]. The result is the trace and whether an
    exception left the function. *)
Fixpoint ensure_groups_from (i0 : nat) (self : Worker.BlogWorker)
    (streams : list string) (reply : nat -> GroupReply) : list GroupEvent * bool :=
  match streams with
  | [] => ([], false)
  | s :: streams' =>
      let cmd := XGROUP_CREATE s (Worker.consumer_group self) "0" true in
      match reply i0 with
      | GroupCreated =>
          let '(tr, r) := ensure_groups_from (S i0) self streams' reply in
          (cmd :: Info s :: tr, r)
      | ResponseError msg =>
          let '(tr, r) := ensure_groups_from (S i0) self streams' reply in
          if ignored msg then (cmd :: tr, r) else (cmd :: Warn s msg :: tr, r)
      | OtherException _ => ([cmd], true)
      end
  end.

Definition ensure_groups := ensure_groups_from 0.

(** [discover_streams]; [smembers] is the reply to [SMEMBERS blogs:genres],
    the members of the set in the order the set gives them. *)
Definition discover_streams (smembers : Reply (list string)) : Reply (list string) :=
  match smembers with
  | Raises e => Raises e
  | Returns genres => Returns (map Worker.stream_for_genre (sorted genres))
  end.

(** What one iteration of [run] takes from the outside. *)
Record World := {
  smembers : Reply (list string);
  group_reply : nat -> GroupReply;
  xreadgroup : Reply (list (string * list (string * gmap string string)));
  clock : string -> string -> Z * Z;
  now_at : Worker.Key -> Z;
  tx : Worker.Key -> Worker.TxOutcome;
  bus : Worker.Key -> string -> Worker.AckOutcome
}.

(** What one iteration of [run] does to the outside, in order. [Sleep]
    counts milliseconds. *)
Inductive LoopEvent :=
| SMEMBERS (name : string)
| Group (e : GroupEvent)
| XREADGROUP (groupname consumername : string) (streams : list (string * string))
    (count block : Z)
| Flush (e : Worker.Event)
| LogException
| Sleep (ms : Z).

Section Loop.

Variable fromisoformat : string -> option datetime.
Variable strftime_utc : datetime -> Reply string.

(** The body of [while True] in [run]: one iteration. *)
Definition run_iteration (self : Worker.BlogWorker) (world : World)
  : list LoopEvent * Worker.BlogWorker :=
  let failed := [LogException; Sleep 1000] in
  match discover_streams (smembers world) with
  | Raises _ => (SMEMBERS "blogs:genres" :: failed, self)
  | Returns [] => ([SMEMBERS "blogs:genres"; Sleep 500], self)
  | Returns streams =>
      let '(groups, groups_raised) := ensure_groups self streams (group_reply world) in
      let head := SMEMBERS "blogs:genres" :: map Group groups in
      if groups_raised then (head ++ failed, self)
      else
        let read :=
          XREADGROUP (Worker.consumer_group self) (Worker.consumer_name self)
            (map (fun s => (s, ">")) streams) (Worker.batch_max_count self) 1000 in
        match xreadgroup world with
        | Raises _ => (head ++ read :: failed, self)
        | Returns resp =>
            let o := Worker.run_after_read fromisoformat strftime_utc self resp
                       (clock world) (now_at world) (tx world) (bus world) in
            (head ++ read :: map Flush (Worker.trace o)
               ++ (if Worker.raised o then failed else []),
             Worker.after o)
        end
  end.

(** The first iterations of the loop of [run], one [World] for each. *)
Fixpoint run_iterations (self : Worker.BlogWorker) (worlds : list World)
  : list LoopEvent * Worker.BlogWorker :=
  match worlds with
  | [] => ([], self)
  | world :: worlds' =>
      let '(tr, self1) := run_iteration self world in
      let '(tr', self2) := run_iterations self1 worlds' in
      (tr ++ tr', self2)
  end.

End Loop.

(** The events of [_flush_key] in the trace of the loop. *)
Definition flush_events (tr : list LoopEvent) : list Worker.Event :=
  omap (fun e => match e with Flush e' => Some e' | _ => None end) tr.

End WorkerLoop.

(** ** The rest of [app/dataservice/server.py] *)

Module ServerRest.

(** The messages of [blog_pb2] the handlers below read. A repeated field
    is a list. *)
Record BulkUpdateRequest := {
  ids : list Z;
  genre : string;
  location : string;
  content : string
}.

(** The statements the handlers send to MySQL; [ids_json] is the array
    that [_json.dumps(ids)] writes. *)
Inductive SqlCall :=
| SELECT_BY_ID_SQL (id : Z)
| CALL_sp_delete_blog (id : Z)
| CALL_sp_bulk_delete_blogs (ids_json : list Z)
| CALL_sp_bulk_update_blogs (ids_json : list Z) (genre location content : string).

(** [int(row[name]) if row and name in row else 0] *)
Definition count_of (name : string) (row : option (gmap string Z)) : Z :=
  match row with
  | Some m => default 0 (m !! name)
  | None => 0
  end.

Section Handlers.

Variable astimezone_utc : datetime -> option datetime.
Variable isoformat : datetime -> string.

(** [GetBlog]; [db] is the first row MySQL answers, if any. *)
Definition GetBlog (id : Z) (db : Reply (option Blogs.Stored))
  : list SqlCall * Server.Rpc Server.Blog :=
  ([SELECT_BY_ID_SQL id],
   match db with
   | Raises e => Server.Unhandled e
   | Returns None => Server.Abort Server.NOT_FOUND "Not found"
   | Returns (Some row) =>
       match Server._dt_to_iso astimezone_utc isoformat
               (Blogs.created_at (Blogs.cols row)) with
       | Raises e => Server.Unhandled e
       | Returns c =>
           match Server._dt_to_iso astimezone_utc isoformat
                   (Blogs.updated_at (Blogs.cols row)) with
           | Raises e => Server.Unhandled e
           | Returns u =>
               Server.Respond
                 {| Server.blog_id := Blogs.id row;
                    Server.blog_client_msg_id :=
                      default "" (Blogs.client_msg_id (Blogs.cols row));
                    Server.blog_author := Blogs.author (Blogs.cols row);
                    Server.blog_created_at_iso := c;
                    Server.blog_updated_at_iso := u;
                    Server.blog_genre := Blogs.genre (Blogs.cols row);
                    Server.blog_location := Blogs.location (Blogs.cols row);
                    Server.blog_content := Blogs.content (Blogs.cols row) |}
           end
       end
   end).

End Handlers.

(** [DeleteBlog]; [db] is the first row MySQL answers to the call, [commit]
    whether the transaction then commits. The response is
    [DeleteBlogResponse(deleted=True)]. *)
Definition DeleteBlog (id : Z) (db : Reply (option (gmap string Z))) (commit : Reply ())
  : list SqlCall * Server.Rpc bool :=
  ([CALL_sp_delete_blog id],
   match db with
   | Raises e => Server.Unhandled e
   | Returns row =>
       if count_of "deleted" row =? 0 then Server.Abort Server.NOT_FOUND "Not found"
       else
         match commit with
         | Raises e => Server.Unhandled e
         | Returns _ => Server.Respond true
         end
   end).

(** [BulkDelete]; the response carries the count [deleted]. *)
Definition BulkDelete (ids : list Z) (db : Reply (option (gmap string Z)))
    (commit : Reply ()) : list SqlCall * Server.Rpc Z :=
  match ids with
  | [] => ([], Server.Abort Server.INVALID_ARGUMENT "ids required")
  | _ =>
      ([CALL_sp_bulk_delete_blogs ids],
       match db with
       | Raises e => Server.Unhandled e
       | Returns row =>
           match commit with
           | Raises e => Server.Unhandled e
           | Returns _ => Server.Respond (count_of "deleted" row)
           end
       end)
  end.

(** [BulkUpdate]; the response carries the count [updated]. *)
Definition BulkUpdate (request : BulkUpdateRequest)
    (db : Reply (option (gmap string Z))) (commit : Reply ())
  : list SqlCall * Server.Rpc Z :=
  match ids request with
  | [] => ([], Server.Abort Server.INVALID_ARGUMENT "ids required")
  | _ =>
      if is_empty (str_or (genre request) (str_or (location request) (content request)))
      then ([], Server.Abort Server.INVALID_ARGUMENT "no fields to update")
      else
        ([CALL_sp_bulk_update_blogs (ids request)
            (str_or (genre request) "") (str_or (location request) "")
            (str_or (content request) "")],
         match db with
         | Raises e => Server.Unhandled e
         | Returns row =>
             match commit with
             | Raises e => Server.Unhandled e
             | Returns _ => Server.Respond (count_of "updated" row)
             end
         end)
  end.

End ServerRest.

(** ** The rest of [app/api/main.py] *)

Module ApiRest.

(** The methods of [blog_pb2_grpc.DataServiceStub] the endpoints below
    call. *)
Record Stub := {
  stub_GetBlog : Z -> Api.AioRpcError + Server.Blog;
  stub_DeleteBlog : Z -> Api.AioRpcError + bool;
  stub_BulkDelete : list Z -> Api.AioRpcError + Z;
  stub_BulkUpdate : ServerRest.BulkUpdateRequest -> Api.AioRpcError + Z
}.

(** [class BulkUpdateSet] and [class BulkUpdateIn] *)
Record BulkUpdateSet := {
  set_genre : option string;
  set_location : option string;
  set_content : option string
}.

Record BulkUpdateIn := {
  update_ids : list Z;
  set : BulkUpdateSet
}.

(** The [Field] constraints of [class BlogCreate]. *)
Definition BlogCreate_valid (req : Api.BlogCreate) : bool :=
  (1 <=? len (Api.author req)) && (len (Api.author req) <=? 128)
  && (1 <=? len (Api.content req))
  && (1 <=? len (Api.genre req)) && (len (Api.genre req) <=? 64)
  && (1 <=? len (Api.location req)) && (len (Api.location req) <=? 128).

(** [POST /blogs]: FastAPI checks the body against [BlogCreate], then calls
    [create_blog]. *)
Definition POST_blogs (req : Api.BlogCreate) (sync : bool) (stub : Api.Stub)
  : Api.Failure + list (string * Api.Json) :=
  if BlogCreate_valid req then Api.create_blog req sync stub
  else inl (Api.RequestValidationError "body").

(** [PUT /blogs/{blog_id}]: [BlogUpdate] asks for a content of at least one
    character. *)
Definition PUT_blog (blog_id : Z) (req : Api.BlogUpdate) (stub : Api.Stub)
  : Api.Failure + list (string * Api.Json) :=
  if 1 <=? len (Api.update_content req) then Api.update_blog blog_id req stub
  else inl (Api.RequestValidationError "body").

(** [get_blog] *)
Definition get_blog (blog_id : Z) (stub : Stub) : Api.Failure + Api.BlogOut :=
  match stub_GetBlog stub blog_id with
  | inl e =>
      match Api.code e with
      | Server.NOT_FOUND => inl (Api.HTTPException 404 "Not found")
      | _ => inl (Api.HTTPException 500 (Api.details e))
      end
  | inr b => inr (Api.BlogOut_of b)
  end.

(** [delete_blog] *)
Definition delete_blog (blog_id : Z) (stub : Stub)
  : Api.Failure + list (string * Api.Json) :=
  match stub_DeleteBlog stub blog_id with
  | inl e =>
      match Api.code e with
      | Server.NOT_FOUND => inl (Api.HTTPException 404 "Not found")
      | _ => inl (Api.HTTPException 500 (Api.details e))
      end
  | inr deleted =>
      inr [("status", Api.JStr (if deleted then "deleted" else "noop"));
           ("id", Api.JInt blog_id)]
  end.

(** The body of [bulk_delete], which FastAPI calls with a [BulkDeleteIn]. *)
Definition bulk_delete_body (ids : list Z) (stub : Stub)
  : Api.Failure + list (string * Api.Json) :=
  match ids with
  | [] => inl (Api.HTTPException 400 "ids required")
  | _ =>
      match stub_BulkDelete stub ids with
      | inl e => inl (Api.HTTPException 500 (Api.details e))
      | inr deleted => inr [("deleted", Api.JInt deleted)]
      end
  end.

(** [POST /blogs/bulk-delete]: [BulkDeleteIn] asks for at least one id. *)
Definition bulk_delete (ids : list Z) (stub : Stub)
  : Api.Failure + list (string * Api.Json) :=
  match ids with
  | [] => inl (Api.RequestValidationError "body")
  | _ => bulk_delete_body ids stub
  end.

(** [any([set.genre, set.location, set.content])] *)
Definition any_field (s : BulkUpdateSet) : bool :=
  negb (is_empty (Api.or_empty (set_genre s)))
  || negb (is_empty (Api.or_empty (set_location s)))
  || negb (is_empty (Api.or_empty (set_content s))).

(** The body of [bulk_update], which FastAPI calls with a [BulkUpdateIn];
    a model instance is true, so [req.set or BulkUpdateSet()] is
    [req.set]. *)
Definition bulk_update_body (req : BulkUpdateIn) (stub : Stub)
  : Api.Failure + list (string * Api.Json) :=
  match update_ids req with
  | [] => inl (Api.HTTPException 400 "ids required")
  | _ =>
      if negb (any_field (set req)) then inl (Api.HTTPException 400 "no fields to update")
      else
        match stub_BulkUpdate stub
                {| ServerRest.ids := update_ids req;
                   ServerRest.genre := Api.or_empty (set_genre (set req));
                   ServerRest.location := Api.or_empty (set_location (set req));
                   ServerRest.content := Api.or_empty (set_content (set req)) |} with
        | inl e => inl (Api.HTTPException 500 (Api.details e))
        | inr updated => inr [("updated", Api.JInt updated)]
        end
  end.

(** [POST /blogs/bulk-update]: [BulkUpdateIn] asks for at least one id. *)
Definition bulk_update (req : BulkUpdateIn) (stub : Stub)
  : Api.Failure + list (string * Api.Json) :=
  match update_ids req with
  | [] => inl (Api.RequestValidationError "body")
  | _ => bulk_update_body req stub
  end.

(** What stands behind the handlers of [ServerRest]. *)
Record Backend := {
  select_by_id : Z -> Reply (option Blogs.Stored);
  sp_delete_blog : Z -> Reply (option (gmap string Z));
  sp_bulk_delete_blogs : list Z -> Reply (option (gmap string Z));
  sp_bulk_update_blogs : list Z -> string -> string -> string -> Reply (option (gmap string Z));
  commit : Reply ()
}.

Section Served.

Variable astimezone_utc : datetime -> option datetime.
Variable isoformat : datetime -> string.

(** The stub of a channel to a running [DataService], for these
    methods. *)
Definition DataService_stub (b : Backend) : Stub :=
  {| stub_GetBlog := fun id =>
       Api.deliver (snd (ServerRest.GetBlog astimezone_utc isoformat id (select_by_id b id)));
     stub_DeleteBlog := fun id =>
       Api.deliver (snd (ServerRest.DeleteBlog id (sp_delete_blog b id) (commit b)));
     stub_BulkDelete := fun ids =>
       Api.deliver (snd (ServerRest.BulkDelete ids (sp_bulk_delete_blogs b ids) (commit b)));
     stub_BulkUpdate := fun request =>
       Api.deliver
         (snd (ServerRest.BulkUpdate request
                 (sp_bulk_update_blogs b (ServerRest.ids request)
                    (str_or (ServerRest.genre request) "")
                    (str_or (ServerRest.location request) "")
                    (str_or (ServerRest.content request) ""))
                 (commit b))) |}.

End Served.

End ApiRest.

(** ** [app/common/db.py], [app/common/sp_check.py] and [serve] *)

Module Startup.

(** What [init_db] does to the outside, in order. *)
Inductive InitEvent :=
| CREATE_TABLE_SQL
| SleepOneSecond.

(** [k] failed rounds of the retry loop: an execution, then a sleep. *)
Definition failed_rounds (k : nat) : list InitEvent :=
  concat (replicate k [CREATE_TABLE_SQL; SleepOneSecond]).

(** The [for] loop of [init_db] with [n] rounds left; [attempt i] tells
    whether the [i]-th execution of [CREATE_TABLE_SQL] succeeds. The
    result is the trace and whether the loop returned. *)
Fixpoint init_db_loop (n i : nat) (attempt : nat -> bool) : list InitEvent * bool :=
  match n with
  | O => ([], false)
  | S n' =>
      if attempt i then ([CREATE_TABLE_SQL], true)
      else
        let '(tr, returned) := init_db_loop n' (S i) attempt in
        (CREATE_TABLE_SQL :: SleepOneSecond :: tr, returned)
  end.

(** [init_db]: the trace and whether it raised. *)
Definition init_db (attempt : nat -> bool) : list InitEvent * bool :=
  let '(tr, returned) := init_db_loop 30 0 attempt in
  if returned then (tr, false)
  else (tr ++ [CREATE_TABLE_SQL], negb (attempt 30%nat)).

(** The MySQL fields of [class Settings], and their defaults. *)
Record MysqlSettings := {
  mysql_host : string;
  mysql_port : Z;
  mysql_db : string;
  mysql_user : string;
  mysql_password : string;
  mysql_pool_size : Z;
  mysql_max_overflow : Z
}.

Definition mysql_settings : MysqlSettings := {|
  mysql_host := "localhost";
  mysql_port := 3306;
  mysql_db := "blogs";
  mysql_user := "bloguser";
  mysql_password := "blogpass";
  mysql_pool_size := 50;
  mysql_max_overflow := 50
|}.

(** [get_mysql_dsn] *)
Definition get_mysql_dsn (settings : MysqlSettings) : string :=
  "mysql+asyncmy://" +:+ mysql_user settings +:+ ":" +:+ mysql_password settings
  +:+ "@" +:+ mysql_host settings +:+ ":" +:+ pretty (mysql_port settings)
  +:+ "/" +:+ mysql_db settings +:+ "?charset=utf8mb4".

(** The handle [create_async_engine] returns, by its arguments. *)
Record Engine := {
  dsn : string;
  pool_size : Z;
  max_overflow : Z;
  pool_pre_ping : bool
}.

(** [get_engine]: the global [_engine] before the call; the engine
    returned, whether [create_async_engine] was called, and the global
    after the call. *)
Definition get_engine (settings : MysqlSettings) (_engine : option Engine)
  : Engine * bool * option Engine :=
  match _engine with
  | Some e => (e, false, Some e)
  | None =>
      let e := {| dsn := get_mysql_dsn settings;
                  pool_size := mysql_pool_size settings;
                  max_overflow := mysql_max_overflow settings;
                  pool_pre_ping := true |} in
      (e, true, Some e)
  end.

(** What [verify_stored_procedures] does to the outside, in order. *)
Inductive CheckEvent :=
| SELECT_ROUTINE_NAME (db : string) (names : list string)
| LogError (missing : string)
| LogInfo (present : string).

(** [verify_stored_procedures]; [routines] is what MySQL answers to the
    query: the routine names of its rows. *)
Definition verify_stored_procedures (mysql_db : string) (required_names : list string)
    (routines : Reply (list string)) : list CheckEvent * Reply (gset string) :=
  match required_names with
  | [] => ([], Returns ∅)
  | names =>
      match routines with
      | Raises e => ([SELECT_ROUTINE_NAME mysql_db names], Raises e)
      | Returns rows =>
          let present : gset string := list_to_set rows in
          let missing : gset string := list_to_set names ∖ present in
          ([SELECT_ROUTINE_NAME mysql_db names;
            if decide (missing = ∅)
            then LogInfo (join ", " (sorted names))
            else LogError (join ", " (sorted (elements missing)))],
           Returns missing)
      end
  end.

(** The stored procedures [serve] asks for. *)
Definition required_procedures : list string :=
  ["sp_bulk_insert_blogs"; "sp_bulk_delete_blogs"; "sp_bulk_update_blogs";
   "sp_update_blog_content"; "sp_delete_blog"].

(** What [serve] does to the outside, in order. *)
Inductive ServeEvent :=
| Init (e : InitEvent)
| Check (e : CheckEvent)
| StartupError (missing : string)
| ServerStart (max_send_message_length max_receive_message_length : Z)
    (listen_addr : string).

(** [serve] up to [server.start()]: the trace and whether it raised. *)
Definition serve (mysql_db : string) (grpc_port : Z) (attempt : nat -> bool)
    (routines : Reply (list string)) : list ServeEvent * bool :=
  let '(init, init_raised) := init_db attempt in
  if init_raised then (map Init init, true)
  else
    match verify_stored_procedures mysql_db required_procedures routines with
    | (check, Raises _) => (map Init init ++ map Check check, true)
    | (check, Returns missing) =>
        (map Init init ++ map Check check
           ++ (if decide (missing = ∅) then []
               else [StartupError (join ", " (sorted (elements missing)))])
           ++ [ServerStart (20 * 1024 * 1024) (20 * 1024 * 1024)
                 ("0.0.0.0:" +:+ pretty grpc_port)],
         false)
    end.

End Startup.

(** ** The statement text of [app/models/blogs.py] *)

Module BlogsSql.

(** A value bound to a placeholder. *)
Inductive SqlValue :=
| NULL
| Str (s : string)
| Datetime (dt : datetime).

(** [_values_clause] *)
Definition _values_clause (num_rows : nat) : string :=
  join ", " (replicate num_rows "(%s, %s, %s, %s, %s, %s, %s)").

(** [INSERT_SQL.format(values_clause=...)] *)
Definition INSERT_SQL (values_clause : string) : string :=
  "
INSERT INTO blogs (client_msg_id, author, created_at, updated_at, genre, location, content)
VALUES " +:+ values_clause +:+ "
ON DUPLICATE KEY UPDATE
  updated_at = VALUES(updated_at)
".

(** The [values] list [bulk_insert] builds. *)
Definition values_of (rows_list : list Blogs.BlogRow) : list SqlValue :=
  concat (map (fun r =>
                 [match Blogs.client_msg_id r with Some c => Str c | None => NULL end;
                  Str (Blogs.author r);
                  Datetime (Blogs.created_at r);
                  Datetime (Blogs.updated_at r);
                  Str (Blogs.genre r);
                  Str (Blogs.location r);
                  Str (Blogs.content r)])
            rows_list).

(** The statement and the parameters [bulk_insert] hands to
    [conn.exec_driver_sql], when it hands any. *)
Definition bulk_insert_call (rows_list : list Blogs.BlogRow)
  : option (string * list SqlValue) :=
  match rows_list with
  | [] => None
  | _ => Some (INSERT_SQL (_values_clause (length rows_list)), values_of rows_list)
  end.

(** The number of [%s] placeholders of a statement. *)
Fixpoint placeholders (sql : string) : nat :=
  match sql with
  | EmptyString => 0
  | String c rest =>
      match rest with
      | String c' _ =>
          if Ascii.eqb c "%" && Ascii.eqb c' "s" then S (placeholders rest)
          else placeholders rest
      | EmptyString => 0
      end
  end.

(** The last character of the string is a percent sign. *)
Definition ends_with_percent (s : string) : bool :=
  match last (list_ascii_of_string s) with
  | Some c => Ascii.eqb c "%"
  | None => false
  end.

End BlogsSql.

(** ** Vocabulary of the further properties *)

(** The streams on which a trace of [ensure_groups] asks for a group. *)
Definition group_requests (tr : list WorkerLoop.GroupEvent) : list string :=
  omap (fun e => match e with
                 | WorkerLoop.XGROUP_CREATE name _ _ _ => Some name
                 | _ => None
                 end) tr.

(** [hay] has [needle] somewhere inside. *)
Definition has_substring (needle hay : string) : Prop :=
  exists pre post, hay = pre +:+ needle +:+ post.

(** [row] is the row of the payload that [_flush_key] writes for the item
    [bi]: the fields of the item, its timestamps formatted, and the empty
    string for a missing [client_msg_id]. *)
Definition payload_of (strftime_utc : datetime -> Reply string)
    (bi : Worker.BufferedItem) (row : Worker.RowJson) : Prop :=
  Worker.j_client_msg_id row = default "" (Blogs.client_msg_id (Worker.row bi))
  /\ Worker.j_author row = Blogs.author (Worker.row bi)
  /\ strftime_utc (Blogs.created_at (Worker.row bi)) = Returns (Worker.j_created_at row)
  /\ strftime_utc (Blogs.updated_at (Worker.row bi)) = Returns (Worker.j_updated_at row)
  /\ Worker.j_genre row = Blogs.genre (Worker.row bi)
  /\ Worker.j_location row = Blogs.location (Worker.row bi)
  /\ Worker.j_content row = Blogs.content (Worker.row bi).

(** The entry ids of the items that came from [stream], in the order of
    the items. *)
Definition ids_from (stream : string) (items : list Worker.BufferedItem) : list string :=
  map Worker.redis_message_id
    (List.filter (fun bi => String.eqb (Worker.redis_stream bi) stream) items).

(** The trace has a transaction that called the stored procedure with the
    payload of exactly [items] and committed. *)
Definition committed (strftime_utc : datetime -> Reply string)
    (tr : list Worker.Event) (items : list Worker.BufferedItem) : Prop :=
  exists rows pre post,
    Worker.rows_json_list strftime_utc items = Returns rows
    /\ tr = pre ++ [Worker.Db Worker.BEGIN;
                    Worker.Db (Worker.CALL_sp_bulk_insert_blogs rows);
                    Worker.Db Worker.COMMIT] ++ post.

(** The item [_add_to_buffer] builds for a message. *)
Definition item_of (fromisoformat : string -> option datetime)
    (stream mid : string) (fields : gmap string string) (now_except now : Z)
  : Worker.BufferedItem :=
  {| Worker.row :=
       {| Blogs.client_msg_id := fields !! "client_msg_id";
          Blogs.author := default "" (fields !! "author");
          Blogs.created_at :=
            default (utc_datetime now_except) (fields !! "created_at_iso" ≫= fromisoformat);
          Blogs.updated_at := utc_datetime now;
          Blogs.genre := default "" (fields !! "genre");
          Blogs.location := default "" (fields !! "location");
          Blogs.content := default "" (fields !! "content") |};
     Worker.redis_stream := stream;
     Worker.redis_message_id := mid |}.

(** The messages of a reply of [xreadgroup], in the order [run] goes
    through them. *)
Definition messages_of (resp : list (string * list (string * gmap string string)))
  : list (string * string * gmap string string) :=
  concat (map (fun sm => map (fun m => (sm.1, m.1, m.2)) sm.2) resp).

(** The items [run] builds for the messages that go to the key [k], in
    the order of the messages. *)
Definition arrivals (fromisoformat : string -> option datetime)
    (clock : string -> string -> Z * Z) (k : Worker.Key)
    (msgs : list (string * string * gmap string string)) : list Worker.BufferedItem :=
  map (fun m => item_of fromisoformat m.1.1 m.1.2 m.2
                  (clock m.1.1 m.1.2).1 (clock m.1.1 m.1.2).2)
    (List.filter (fun m => bool_decide (message_key m.2 = k)) msgs).

(** The trace of the loop has a call of [xreadgroup]. *)
Definition has_read (tr : list WorkerLoop.LoopEvent) : Prop :=
  exists g c streams count block,
    WorkerLoop.XREADGROUP g c streams count block ∈ tr.

(** Besides [buffer_inv]: every item lies under the key of its own genre
    and location, and the first-insert timestamp of a key is the clock at
    which its oldest item was buffered. *)
Definition buffers_keyed (w : Worker.BlogWorker) : Prop :=
  (forall k bi, bi ∈ Worker.items_of w k ->
     (Blogs.genre (Worker.row bi), Blogs.location (Worker.row bi)) = k)
  /\ (forall k bi, head (Worker.items_of w k) = Some bi ->
        Worker.buffer_first_at w !! k
        = Some (dt_micros (Blogs.updated_at (Worker.row bi)))).

(** The state the loop of [run] keeps from the worker [w0] on: the
    dictionaries agree with each other and with the items, and the
    thresholds are those of [w0]. *)
Definition consistent (w0 w : Worker.BlogWorker) : Prop :=
  Worker.buffer_inv w /\ buffers_keyed w /\ same_thresholds w0 w.

(** Every [xack] of the trace comes after a committed transaction of the
    trace, and names the entry ids of the items of that transaction that
    came from its stream. *)
Definition acks_follow_commits (strftime_utc : datetime -> Reply string)
    (tr : list Worker.Event) : Prop :=
  forall i stream group mids,
    tr !! i = Some (Worker.Bus (XACK stream group mids)) ->
    exists batch,
      committed strftime_utc (take i tr) batch
      /\ mids = ids_from stream batch.

(** The facade shows the stored row as [out]: both timestamps can be
    written, the columns are as stored, and a [client_msg_id] that is NULL
    or empty is shown as [None]. *)
Definition shows (astimezone_utc : datetime -> option datetime)
    (isoformat : datetime -> string) (stored : Blogs.Stored) (out : Api.BlogOut) : Prop :=
  exists c u,
    Server._dt_to_iso astimezone_utc isoformat (Blogs.created_at (Blogs.cols stored))
    = Returns c
    /\ Server._dt_to_iso astimezone_utc isoformat (Blogs.updated_at (Blogs.cols stored))
       = Returns u
    /\ out = {| Api.out_id := Blogs.id stored;
                Api.out_client_msg_id :=
                  Blogs.client_msg_id (Blogs.cols stored) ≫= Server.or_None;
                Api.out_author := Blogs.author (Blogs.cols stored);
                Api.out_created_at_iso := c;
                Api.out_updated_at_iso := u;
                Api.out_genre := Blogs.genre (Blogs.cols stored);
                Api.out_location := Blogs.location (Blogs.cols stored);
                Api.out_content := Blogs.content (Blogs.cols stored) |}.

(** ** Sample runs of the loop, the facade and the start-up *)

Module SampleRun.

(** The entry of [Sample.fields], as [xreadgroup] hands it over. *)
Definition resp : list (string * list (string * gmap string string)) :=
  [("blogs:genre:g1", [("1704067200000-0", Sample.fields)])].

(** The item the consumer builds for it. *)
Definition item : Worker.BufferedItem :=
  item_of Sample.fromisoformat "blogs:genre:g1" "1704067200000-0" Sample.fields
    1704067200000000 1704067200000000.

(** An iteration that reads the entry; 300 ms later the key is due. MySQL
    is down in the first world and up in the second. *)
Definition world_db_down : WorkerLoop.World :=
  {| WorkerLoop.smembers := Returns ["g1"];
     WorkerLoop.group_reply := fun _ => WorkerLoop.ResponseError "BUSYGROUP Consumer Group name already exists";
     WorkerLoop.xreadgroup := Returns resp;
     WorkerLoop.clock := fun _ _ => (1704067200000000, 1704067200000000);
     WorkerLoop.now_at := fun _ => 1704067200300000;
     WorkerLoop.tx := fun _ => Worker.ExecuteFails;
     WorkerLoop.bus := fun _ _ => Worker.AckDelOk |}.

Definition world_db_up : WorkerLoop.World :=
  {| WorkerLoop.smembers := Returns ["g1"];
     WorkerLoop.group_reply := fun _ => WorkerLoop.ResponseError "BUSYGROUP Consumer Group name already exists";
     WorkerLoop.xreadgroup := Returns [];
     WorkerLoop.clock := fun _ _ => (1704067201000000, 1704067201000000);
     WorkerLoop.now_at := fun _ => 1704067201300000;
     WorkerLoop.tx := fun _ => Worker.Commits;
     WorkerLoop.bus := fun _ _ => Worker.AckDelOk |}.

(** A backend with the stored row of [Sample.stored] under id 1. *)
Definition backend : ApiRest.Backend :=
  {| ApiRest.select_by_id := fun id =>
       Returns (if id =? 1 then Some Sample.stored else None);
     ApiRest.sp_delete_blog := fun id =>
       Returns (Some {[ "deleted" := if id =? 1 then 1 else 0 ]});
     ApiRest.sp_bulk_delete_blogs := fun ids => Returns (Some {[ "deleted" := 1 ]});
     ApiRest.sp_bulk_update_blogs := fun ids _ _ _ => Returns (Some {[ "updated" := 1 ]});
     ApiRest.commit := Returns () |}.

(** A running service whose table holds the row of [Sample.stored]. *)
Definition list_backend : Api.Backend :=
  {| Api.uuid4 := "22222222-2222-2222-2222-222222222222";
     Api.now_iso := "2024-01-01T00:00:00+00:00";
     Api.now := 1704067200000000;
     Api.sadd := Returns 1;
     Api.xadd := Returns "1704067200000-0";
     Api.select_list := fun _ => Returns [Sample.stored];
     Api.sp_update_blog_content := Returns (Some {[ "updated" := 1 ]});
     Api.commit := Returns () |}.

(** MySQL answers from the third execution on. *)
Definition attempt (i : nat) : bool := (2 <=? i)%nat.

End SampleRun.

(* ===================================================================== *)
(** * Part II: properties                                                  *)
(* ===================================================================== *)

#[local] Set Default Proof Using "Type".

(** ** Whitespace trimming *)

Lemma is_empty_true (s : string) : is_empty s = true <-> s = "".
Proof. destruct s; simpl; split; congruence. Qed.

Lemma is_empty_false (s : string) : s <> "" <-> is_empty s = false.
Proof. destruct s; simpl; split; congruence. Qed.

Lemma str_or_empty_r (s : string) : str_or s "" = s.
Proof. now destruct s. Qed.

Lemma lstrip_all_space (s : string) : lstrip s = "" <-> all_space s = true.
Proof.
  induction s as [|c s IH]; simpl; [tauto|].
  destruct (py_isspace c); simpl; [exact IH|].
  split; discriminate.
Qed.

Lemma rstrip_all_space (s : string) : rstrip s = "" <-> all_space s = true.
Proof.
  induction s as [|c s IH]; simpl; [tauto|].
  destruct (rstrip s) eqn:E.
  - destruct (py_isspace c); simpl.
    + split; [intros _; now apply IH | reflexivity].
    + split; discriminate.
  - split; [discriminate|].
    intros H. apply andb_true_iff in H as [_ H].
    apply IH in H. discriminate.
Qed.

Lemma all_space_lstrip (s : string) : all_space (lstrip s) = true -> all_space s = true.
Proof.
  induction s as [|c s IH]; simpl; [tauto|].
  destruct (py_isspace c) eqn:E; simpl; [exact IH|].
  rewrite E. simpl. discriminate.
Qed.

(** [strip] gives the empty string exactly on the strings made of
    whitespace only. *)
Lemma strip_empty_iff (s : string) : strip s = "" <-> all_space s = true.
Proof.
  unfold strip. rewrite rstrip_all_space. split.
  - apply all_space_lstrip.
  - intros H. apply lstrip_all_space in H. now rewrite H.
Qed.

Lemma lstrip_split (s : string) :
  exists l, all_space l = true /\ s = l +:+ lstrip s.
Proof.
  induction s as [|c s [l [Hl Hs]]]; simpl.
  - now exists "".
  - destruct (py_isspace c) eqn:E.
    + exists (String c l). simpl. rewrite E, Hl. split; [reflexivity|].
      change (String c s = String c (l +:+ lstrip s)). now f_equal.
    + now exists "".
Qed.

Lemma rstrip_split (s : string) :
  exists r, all_space r = true /\ s = rstrip s +:+ r.
Proof.
  induction s as [|c s [r [Hr Hs]]]; simpl.
  - now exists "".
  - destruct (rstrip s) eqn:E.
    + destruct (py_isspace c) eqn:Ec.
      * exists (String c s). simpl. rewrite Ec. simpl. split; [|reflexivity].
        apply rstrip_all_space. exact E.
      * exists r. split; [exact Hr|].
        change (String c s = String c ("" +:+ r)). now f_equal.
    + exists r. split; [exact Hr|].
      change (String c s = String c (String a s0 +:+ r)). now f_equal.
Qed.

Lemma lstrip_fixed (s : string) : lstrip (lstrip s) = lstrip s.
Proof.
  induction s as [|c s IH]; simpl; [reflexivity|].
  destruct (py_isspace c) eqn:E; [exact IH|].
  simpl. now rewrite E.
Qed.

Lemma rstrip_fixed (s : string) : rstrip (rstrip s) = rstrip s.
Proof.
  induction s as [|c s IH]; simpl; [reflexivity|].
  destruct (rstrip s) eqn:E.
  - destruct (py_isspace c) eqn:Ec; simpl; [reflexivity|]. now rewrite Ec.
  - simpl in IH. simpl. now rewrite IH.
Qed.

(** [rstrip] keeps the first character of a string that does not start
    with whitespace. *)
Lemma lstrip_rstrip (s : string) : lstrip s = s -> lstrip (rstrip s) = rstrip s.
Proof.
  destruct s as [|c s]; simpl; [reflexivity|].
  destruct (py_isspace c) eqn:E.
  - intros H.
    assert (Hlen : (String.length (lstrip s) <= String.length s)%nat).
    { clear. induction s as [|a s IH]; simpl; [lia|].
      destruct (py_isspace a); simpl; lia. }
    rewrite H in Hlen. simpl in Hlen. lia.
  - intros _. destruct (rstrip s); simpl; now rewrite E.
Qed.

(** What [strip] is: it removes a run of whitespace at each end, and what
    is left neither starts nor ends with whitespace. *)
Lemma strip_spec (s : string) : trimmed_of s (strip s).
Proof.
  unfold trimmed_of, strip. split; [|split].
  - destruct (lstrip_split s) as [l [Hl Hs]].
    destruct (rstrip_split (lstrip s)) as [r [Hr Hs']].
    exists l, r. repeat split; try assumption.
    now rewrite <- Hs', <- Hs.
  - apply lstrip_rstrip, lstrip_fixed.
  - apply rstrip_fixed.
Qed.

(** ** The ingest endpoint *)

(** The six entry fields [EnqueueBlog] appends for a request whose trimmed
    author, genre and location are [a], [g] and [l]. *)
Lemma EnqueueBlog_accepted (self : Server.DataService)
    (request : Server.BlogCreateRequest) (uuid4 now_iso : string)
    (sadd : Reply Z) (xadd : Reply string) :
  strip (Server.author request) <> "" -> Server.content request <> "" ->
  strip (Server.genre request) <> "" -> strip (Server.location request) <> "" ->
  let g := strip (Server.genre request) in
  let sadd_cmd := SADD "blogs:genres" g in
  let xadd_cmd :=
    XADD ("blogs:genre:" +:+ g)
      [("client_msg_id", str_or (Server.client_msg_id request) uuid4);
       ("author", strip (Server.author request));
       ("content", Server.content request);
       ("genre", g);
       ("location", strip (Server.location request));
       ("created_at_iso", str_or (Server.created_at_iso request) now_iso)]
      (Server.stream_maxlen self) true in
  Server.EnqueueBlog self request uuid4 now_iso sadd xadd =
  match sadd with
  | Raises e => ([sadd_cmd], Server.Unhandled e)
  | Returns _ =>
      match xadd with
      | Raises e => ([sadd_cmd; xadd_cmd], Server.Unhandled e)
      | Returns message_id =>
          ([sadd_cmd; xadd_cmd],
           Server.Respond {| Server.enqueued := true;
                             Server.stream := "blogs:genre:" +:+ g;
                             Server.message_id := message_id |})
      end
  end.
Proof.
  intros Ha Hc Hg Hl g sadd_cmd xadd_cmd.
  unfold Server.EnqueueBlog. rewrite !str_or_empty_r.
  apply is_empty_false in Ha, Hc, Hg, Hl.
  rewrite Ha, Hc, Hg, Hl. reflexivity.
Qed.

Lemma EnqueueBlog_rejected (self : Server.DataService)
    (request : Server.BlogCreateRequest) (uuid4 now_iso : string)
    (sadd : Reply Z) (xadd : Reply string) :
  strip (Server.author request) = "" \/ Server.content request = ""
  \/ strip (Server.genre request) = "" \/ strip (Server.location request) = "" ->
  Server.EnqueueBlog self request uuid4 now_iso sadd xadd =
  ([], Server.Abort Server.INVALID_ARGUMENT "author, content, genre, location are required").
Proof.
  intros H. unfold Server.EnqueueBlog.
  assert (E : is_empty (strip (str_or (Server.genre request) ""))
              || is_empty (strip (str_or (Server.location request) ""))
              || is_empty (strip (str_or (Server.author request) ""))
              || is_empty (str_or (Server.content request) "") = true).
  { rewrite !str_or_empty_r, !orb_true_iff, !is_empty_true. tauto. }
  now rewrite E.
Qed.

(** C4. The ingest endpoint trims author, genre and location (and not the
    content); it rejects the request with INVALID_ARGUMENT exactly when the
    trimmed author, the content, the trimmed genre or the trimmed location
    is empty, whatever Redis would have answered; and a request it does not
    reject is carried on with the trimmed values. *)
Theorem EnqueueBlog_rejects_iff_empty_after_trim
    (self : Server.DataService) (request : Server.BlogCreateRequest)
    (uuid4 now_iso : string) (sadd : Reply Z) (xadd : Reply string) :
  let a := strip (Server.author request) in
  let g := strip (Server.genre request) in
  let l := strip (Server.location request) in
  let out := Server.EnqueueBlog self request uuid4 now_iso sadd xadd in
  trimmed_of (Server.author request) a
  /\ trimmed_of (Server.genre request) g
  /\ trimmed_of (Server.location request) l
  /\ ((exists d, snd out = Server.Abort Server.INVALID_ARGUMENT d)
      <-> (a = "" \/ Server.content request = "" \/ g = "" \/ l = ""))
  /\ (a = "" \/ Server.content request = "" \/ g = "" \/ l = "" -> fst out = [])
  /\ (a <> "" /\ Server.content request <> "" /\ g <> "" /\ l <> "" ->
      forall cmd, cmd ∈ fst out ->
        cmd = SADD "blogs:genres" g
        \/ cmd = XADD ("blogs:genre:" +:+ g)
                   [("client_msg_id", str_or (Server.client_msg_id request) uuid4);
                    ("author", a);
                    ("content", Server.content request);
                    ("genre", g);
                    ("location", l);
                    ("created_at_iso", str_or (Server.created_at_iso request) now_iso)]
                   (Server.stream_maxlen self) true).
Proof.
  intros a g l out. subst a g l out.
  split; [apply strip_spec|]. split; [apply strip_spec|]. split; [apply strip_spec|].
  split; [|split].
  - split.
    + intros [d Hd].
      destruct (decide (strip (Server.author request) = "")) as [|Ha]; [tauto|].
      destruct (decide (Server.content request = "")) as [|Hc]; [tauto|].
      destruct (decide (strip (Server.genre request) = "")) as [|Hg]; [tauto|].
      destruct (decide (strip (Server.location request) = "")) as [|Hl]; [tauto|].
      exfalso. revert Hd.
      rewrite (EnqueueBlog_accepted self request uuid4 now_iso sadd xadd Ha Hc Hg Hl).
      destruct sadd; [destruct xadd|]; discriminate.
    + intros H. eexists. now rewrite EnqueueBlog_rejected.
  - intros H. now rewrite EnqueueBlog_rejected.
  - intros (Ha & Hc & Hg & Hl) cmd.
    rewrite (EnqueueBlog_accepted self request uuid4 now_iso sadd xadd Ha Hc Hg Hl).
    destruct sadd; [destruct xadd|]; cbn [fst];
      rewrite ?elem_of_cons, elem_of_nil; tauto.
Qed.

(** C5. A successful ingest has issued exactly two commands, in this
    order: the SADD of the trimmed genre to [blogs:genres], then the XADD
    of the six fields to [blogs:genre:<genre>] with the approximate length
    cap of the service, 200000 unless configured; it returns that stream
    name and the entry id Redis assigned. However the call ends, an XADD in
    its trace comes after the SADD, which Redis has answered. *)
Theorem EnqueueBlog_advertises_then_appends
    (self : Server.DataService) (request : Server.BlogCreateRequest)
    (uuid4 now_iso : string) (sadd : Reply Z) (xadd : Reply string) :
  let out := Server.EnqueueBlog self request uuid4 now_iso sadd xadd in
  let g := strip (Server.genre request) in
  let fields :=
    [("client_msg_id", str_or (Server.client_msg_id request) uuid4);
     ("author", strip (Server.author request));
     ("content", Server.content request);
     ("genre", g);
     ("location", strip (Server.location request));
     ("created_at_iso", str_or (Server.created_at_iso request) now_iso)] in
  (forall resp, snd out = Server.Respond resp ->
     fst out = [SADD "blogs:genres" g;
                XADD ("blogs:genre:" +:+ g) fields (Server.stream_maxlen self) true]
     /\ (exists n, sadd = Returns n)
     /\ xadd = Returns (Server.message_id resp)
     /\ Server.stream resp = "blogs:genre:" +:+ g
     /\ Server.enqueued resp = true)
  /\ (forall i stream fs maxlen approx,
        fst out !! i = Some (XADD stream fs maxlen approx) ->
        i = 1%nat
        /\ fst out !! 0%nat = Some (SADD "blogs:genres" g)
        /\ (exists n, sadd = Returns n)
        /\ stream = "blogs:genre:" +:+ g /\ fs = fields
        /\ maxlen = Server.stream_maxlen self /\ approx = true)
  /\ Server.stream_maxlen (Server.__init__ None) = 200000.
Proof.
  intros out g fields. subst out.
  destruct (decide (strip (Server.author request) = "" \/ Server.content request = ""
                    \/ strip (Server.genre request) = ""
                    \/ strip (Server.location request) = "")) as [Hbad|Hok].
  - rewrite (EnqueueBlog_rejected self request uuid4 now_iso sadd xadd Hbad).
    split; [|split]; [discriminate| |reflexivity].
    intros i ? ? ? ? H. cbn [fst] in H. now rewrite lookup_nil in H.
  - rewrite (EnqueueBlog_accepted self request uuid4 now_iso sadd xadd)
      by (intros E; apply Hok; tauto).
    fold g. fold fields.
    split; [|split]; [| |reflexivity].
    + intros resp. destruct sadd as [n|e]; [destruct xadd as [m|e]|]; cbn [fst snd];
        try discriminate.
      intros [= <-]. cbn. eauto 10.
    + intros i stream fs maxlen approx.
      destruct sadd as [n|e]; [destruct xadd as [m|e]|]; cbn [fst snd];
        (destruct i as [|[|i]]; cbn; try discriminate);
        intros [= <- <- <- <-]; eauto 10.
Qed.

(** ** The batch consumer: buffers *)

Section WorkerBuffers.

Import Worker.

Lemma buffers_getitem_items (w : BlogWorker) (key : Key) :
  fst (buffers_getitem w key) = items_of w key.
Proof. unfold buffers_getitem, items_of. now destruct (buffers w !! key). Qed.

(** Reading [self.buffers[key]] changes nothing that can be read back: at
    most it records an empty list under a key that had none. *)
Lemma buffers_getitem_after (w : BlogWorker) (key : Key) :
  let w1 := snd (buffers_getitem w key) in
  (forall k, items_of w1 k = items_of w k)
  /\ buffer_first_at w1 = buffer_first_at w
  /\ buffer_bytes w1 = buffer_bytes w
  /\ batch_max_count w1 = batch_max_count w
  /\ batch_max_age_ms w1 = batch_max_age_ms w
  /\ batch_max_bytes w1 = batch_max_bytes w
  /\ consumer_group w1 = consumer_group w
  /\ buffers w1 !! key = Some (items_of w key)
  /\ (is_Some (buffers w !! key) -> w1 = w).
Proof.
  unfold buffers_getitem, items_of. destruct (buffers w !! key) eqn:E; cbn.
  - repeat split; auto.
  - repeat split; auto.
    + intros k. destruct (decide (key = k)) as [<-|Hne].
      * now rewrite lookup_insert_eq, E.
      * now rewrite lookup_insert_ne.
    + now rewrite lookup_insert_eq.
    + intros [? ?]. discriminate.
Qed.

(** The state [_should_flush] leaves is the one its read of
    [self.buffers[key]] leaves. *)
Lemma should_flush_after (w : BlogWorker) (key : Key) (now : Z) :
  snd (_should_flush w key now) = snd (buffers_getitem w key).
Proof.
  unfold _should_flush. destruct (buffers_getitem w key) as [items w1]. cbn.
  destruct items; [reflexivity|].
  destruct (Z.of_nat _ >=? _); [reflexivity|].
  destruct (buffer_first_at w1 !! key).
  - destruct (_ >=? _); [reflexivity|]. now destruct (_ >=? _).
  - now destruct (_ >=? _).
Qed.

Lemma should_flush_spec (w : BlogWorker) (key : Key) (now : Z) :
  fst (_should_flush w key now) = true <->
  items_of w key <> []
  /\ (batch_max_count w <= Z.of_nat (length (items_of w key))
      \/ (exists first_at, buffer_first_at w !! key = Some first_at
                           /\ 1000 * batch_max_age_ms w <= now - first_at)
      \/ batch_max_bytes w <= bytes_of w key).
Proof.
  unfold _should_flush.
  pose proof (buffers_getitem_items w key) as Hi.
  pose proof (buffers_getitem_after w key) as Ha.
  destruct (buffers_getitem w key) as [items w1]. cbn in Hi, Ha.
  destruct Ha as (_ & Hfa & Hbb & Hc & Hage & Hb & _).
  unfold bytes_of. rewrite Hfa, Hbb, Hc, Hage, Hb. subst items.
  destruct (items_of w key) as [|bi items] eqn:E.
  { cbn. split; [discriminate|]. now intros [? _]. }
  destruct (Z.geb_spec (Z.of_nat (length (bi :: items))) (batch_max_count w)).
  { cbn [fst]. split; [|reflexivity]. intros _. split; [discriminate|]. left. lia. }
  destruct (buffer_first_at w !! key) as [first_at|].
  - destruct (Z.geb_spec (now - first_at) (1000 * batch_max_age_ms w)).
    { cbn [fst]. split; [|reflexivity]. intros _. split; [discriminate|].
      right. left. exists first_at. split; [reflexivity|lia]. }
    destruct (Z.geb_spec (default 0 (buffer_bytes w !! key)) (batch_max_bytes w)); cbn [fst].
    + split; [|reflexivity]. intros _. split; [discriminate|]. right. right. lia.
    + split; [discriminate|]. intros [_ [Hx|[[f [Hf Hx]]|Hx]]]; [lia| |lia]. injection Hf as <-. lia.
  - destruct (Z.geb_spec (default 0 (buffer_bytes w !! key)) (batch_max_bytes w)); cbn [fst].
    + split; [|reflexivity]. intros _. split; [discriminate|]. right. right. lia.
    + split; [discriminate|]. intros [_ [Hx|[[f [Hf Hx]]|Hx]]]; [lia| |lia]. discriminate.
Qed.

Variable fromisoformat : string -> option datetime.

(** What [_add_to_buffer] does to each dictionary. *)
Lemma add_to_buffer_spec (w : BlogWorker) (stream mid : string)
    (fields : gmap string string) (t1 t2 : Z) :
  let w' := _add_to_buffer fromisoformat w stream mid fields t1 t2 in
  let key := message_key fields in
  (exists item,
      items_of w' key = items_of w key ++ [item]
      /\ redis_stream item = stream /\ redis_message_id item = mid
      /\ approx_bytes item = message_cost fields)
  /\ (forall k, k <> key -> items_of w' k = items_of w k)
  /\ bytes_of w' key = bytes_of w key + message_cost fields
  /\ (forall k, k <> key -> bytes_of w' k = bytes_of w k)
  /\ buffer_first_at w' !! key
     = Some (default t2 (buffer_first_at w !! key))
  /\ (forall k, k <> key -> buffer_first_at w' !! k = buffer_first_at w !! k)
  /\ buffers_keys w' = buffers_keys (snd (buffers_getitem w key))
  /\ batch_max_count w' = batch_max_count w
  /\ batch_max_age_ms w' = batch_max_age_ms w
  /\ batch_max_bytes w' = batch_max_bytes w
  /\ consumer_group w' = consumer_group w.
Proof.
  intros w' key. subst w'. unfold _add_to_buffer. fold (message_key fields). fold key.
  pose proof (buffers_getitem_items w key) as Hi.
  pose proof (buffers_getitem_after w key) as Ha.
  destruct (buffers_getitem w key) as [items w1]. cbn in Hi, Ha.
  destruct Ha as (Hit & Hfa & Hbb & Hc & Hage & Hb & Hg & _). subst items.
  unfold items_of, bytes_of in *. cbn.
  rewrite Hfa, Hbb.
  split; [|split; [|split; [|split; [|split; [|split]]]]].
  - eexists. rewrite lookup_insert_eq. cbn. split; [reflexivity|].
    repeat split. 
  - intros k Hk. rewrite lookup_insert_ne by congruence. apply Hit.
  - rewrite lookup_insert_eq. cbn. unfold message_cost. lia.
  - intros k Hk. now rewrite lookup_insert_ne by congruence.
  - destruct (buffer_first_at w !! key) eqn:E; cbn.
    + exact E.
    + now rewrite lookup_insert_eq.
  - intros k Hk. destruct (buffer_first_at w !! key); [reflexivity|].
    now rewrite lookup_insert_ne by congruence.
  - auto.
Qed.

End WorkerBuffers.

(** ** The batch consumer: flushing *)

Section WorkerFlush.

Import Worker.

(** What the three statements under [# reset buffer] do. *)
Lemma reset_buffer_spec (w : BlogWorker) (key : Key) :
  let w' := reset_buffer w key in
  items_of w' key = []
  /\ buffer_first_at w' !! key = None
  /\ bytes_of w' key = 0
  /\ (forall k, k <> key ->
        items_of w' k = items_of w k
        /\ buffer_first_at w' !! k = buffer_first_at w !! k
        /\ bytes_of w' k = bytes_of w k)
  /\ buffers_keys w' = buffers_keys (snd (buffers_getitem w key))
  /\ buffers w' !! key = Some []
  /\ batch_max_count w' = batch_max_count w
  /\ batch_max_age_ms w' = batch_max_age_ms w
  /\ batch_max_bytes w' = batch_max_bytes w
  /\ consumer_group w' = consumer_group w.
Proof.
  intros w'. subst w'. unfold reset_buffer.
  pose proof (buffers_getitem_after w key) as Ha.
  destruct (buffers_getitem w key) as [items w1]. cbn in Ha.
  destruct Ha as (Hit & Hfa & Hbb & Hc & Hage & Hb & Hg & _).
  unfold items_of, bytes_of in *. cbn. rewrite Hfa, Hbb.
  rewrite !lookup_insert_eq, lookup_delete_eq. cbn.
  repeat split; auto.
  - rewrite lookup_insert_ne by congruence. apply Hit.
  - now rewrite lookup_delete_ne by congruence.
  - now rewrite lookup_insert_ne by congruence.
Qed.

(** The acknowledgement loop issues only XACK and XDEL, on the streams and
    entry ids it was given. *)
Lemma ack_stream_events (group : string) (bus : string -> AckOutcome)
    (sm : string * list string) (e : Event) :
  e ∈ ack_stream group bus sm ->
  e = Bus (XACK sm.1 group sm.2) \/ e = Bus (XDEL sm.1 sm.2) \/ e = Warning sm.1.
Proof.
  destruct sm as [stream mids]. unfold ack_stream. cbn.
  destruct (bus stream); rewrite ?elem_of_cons, elem_of_nil; tauto.
Qed.

Variable strftime_utc : datetime -> Reply string.

Lemma flush_key_case (w : BlogWorker) (key : Key) (tx : TxOutcome)
    (bus : string -> AckOutcome) :
  flush_case strftime_utc w key tx bus (_flush_key strftime_utc w key tx bus).
Proof.
  unfold _flush_key. destruct (items_of w key) as [|bi items] eqn:E.
  - now constructor.
  - rewrite <- E.
    assert (Hne : items_of w key <> []) by (rewrite E; discriminate).
    destruct (rows_json_list strftime_utc (items_of w key)) as [rows_json|e] eqn:R.
    + destruct tx.
      * now apply flush_no_connection with rows_json.
      * apply flush_rolled_back; auto.
      * apply flush_rolled_back; auto.
      * now apply flush_committed.
    + now apply flush_format_error with e.
Qed.

End WorkerFlush.

(** ** The batch consumer: the invariant of the buffers *)

Section WorkerInvariant.

Import Worker.

Variable fromisoformat : string -> option datetime.
Variable strftime_utc : datetime -> Reply string.

Lemma buffer_inv_init (g n : option string) (c a b : option Z) (hp : string) :
  buffer_inv (__init__ g n c a b hp).
Proof.
  unfold buffer_inv, items_of, bytes_of. cbn. repeat split; auto.
  - constructor.
  - intros H. now apply elem_of_nil in H.
  - intros [? H]. now rewrite lookup_empty in H.
Qed.

Lemma buffer_inv_getitem (w : BlogWorker) (key : Key) :
  buffer_inv w -> buffer_inv (snd (buffers_getitem w key)).
Proof.
  intros Hinv. unfold buffers_getitem.
  destruct (buffers w !! key) eqn:E; [exact Hinv|]. cbn.
  destruct Hinv as (Hb & Hf & Hnd & Hdom).
  assert (Hit : forall k, default [] (<[key:=[]]> (buffers w) !! k) = items_of w k).
  { intros k. unfold items_of. destruct (decide (key = k)) as [<-|Hne].
    - now rewrite lookup_insert_eq, E.
    - now rewrite lookup_insert_ne. }
  unfold buffer_inv, items_of, bytes_of in *. cbn.
  split; [|split; [|split]].
  - intros k. rewrite Hit. apply Hb.
  - intros k. rewrite Hit. apply Hf.
  - apply NoDup_app. split; [exact Hnd|]. split; [|apply NoDup_singleton].
    intros k Hk ->%list_elem_of_singleton.
    apply Hdom in Hk. rewrite E in Hk. now destruct Hk.
  - intros k. rewrite elem_of_app, list_elem_of_singleton, Hdom.
    destruct (decide (key = k)) as [<-|Hne].
    + rewrite lookup_insert_eq. split; eauto.
    + rewrite lookup_insert_ne by exact Hne. split; [|tauto].
      intros [H| ->]; [exact H|congruence].
Qed.

Lemma buffer_inv_should_flush (w : BlogWorker) (key : Key) (now : Z) :
  buffer_inv w -> buffer_inv (snd (_should_flush w key now)).
Proof. rewrite should_flush_after. apply buffer_inv_getitem. Qed.

Lemma total_bytes_app (l1 l2 : list BufferedItem) :
  total_bytes (l1 ++ l2) = total_bytes l1 + total_bytes l2.
Proof.
  induction l1 as [|x l1 IH]; [reflexivity|].
  change (approx_bytes x + total_bytes (l1 ++ l2)
          = approx_bytes x + total_bytes l1 + total_bytes l2).
  rewrite IH. lia.
Qed.

Lemma buffer_inv_add (w : BlogWorker) (stream mid : string)
    (fields : gmap string string) (t1 t2 : Z) :
  buffer_inv w -> buffer_inv (_add_to_buffer fromisoformat w stream mid fields t1 t2).
Proof.
  intros Hinv.
  pose proof (add_to_buffer_spec fromisoformat w stream mid fields t1 t2) as Hs.
  cbn zeta in Hs.
  destruct Hs as ((item & Hit & _ & _ & Hcost) & Hit' & Hb & Hb' & Hf & Hf' & Hk & _).
  pose proof (buffer_inv_getitem w (message_key fields) Hinv) as Hinv1.
  pose proof (buffers_getitem_after w (message_key fields)) as Ha. cbn zeta in Ha.
  destruct Ha as (Hit1 & _ & _ & _ & _ & _ & _ & Hsome & _).
  destruct Hinv as (Ib & If & _ & _). destruct Hinv1 as (_ & _ & Ind & Idom).
  split; [|split; [|split]].
  - intros k. destruct (decide (k = message_key fields)) as [->|Hne].
    + rewrite Hb, Hit, total_bytes_app, Ib. cbn. rewrite Hcost. lia.
    + rewrite Hb', Hit' by exact Hne. apply Ib.
  - intros k. destruct (decide (k = message_key fields)) as [->|Hne].
    + rewrite Hit, Hf. split; [|discriminate].
      intros H. now apply app_eq_nil in H as [_ H].
    + rewrite Hit', Hf' by exact Hne. apply If.
  - rewrite Hk. exact Ind.
  - intros k. rewrite Hk, Idom.
    unfold _add_to_buffer. fold (message_key fields).
    destruct (buffers_getitem w (message_key fields)) as [items w1]. cbn in *.
    destruct (decide (message_key fields = k)) as [<-|Hne].
    + rewrite lookup_insert_eq, Hsome. split; eauto.
    + now rewrite lookup_insert_ne.
Qed.

Lemma buffer_inv_reset (w : BlogWorker) (key : Key) :
  buffer_inv w -> buffer_inv (reset_buffer w key).
Proof.
  intros Hinv.
  pose proof (reset_buffer_spec w key) as Hs. cbn zeta in Hs.
  destruct Hs as (Hi & Hf & Hb & Hother & Hk & _).
  pose proof (buffer_inv_getitem w key Hinv) as Hinv1.
  pose proof (buffers_getitem_after w key) as Ha. cbn zeta in Ha.
  destruct Ha as (_ & _ & _ & _ & _ & _ & _ & Hsome & _).
  destruct Hinv as (Ib & If & _ & _). destruct Hinv1 as (_ & _ & Ind & Idom).
  split; [|split; [|split]].
  - intros k. destruct (decide (k = key)) as [->|Hne].
    + now rewrite Hb, Hi.
    + destruct (Hother k Hne) as (-> & _ & ->). apply Ib.
  - intros k. destruct (decide (k = key)) as [->|Hne].
    + now rewrite Hi, Hf.
    + destruct (Hother k Hne) as (-> & -> & _). apply If.
  - rewrite Hk. exact Ind.
  - intros k. rewrite Hk, Idom. unfold reset_buffer.
    destruct (buffers_getitem w key) as [items w1]. cbn in *.
    destruct (decide (key = k)) as [<-|Hne].
    + rewrite lookup_insert_eq, Hsome. split; eauto.
    + now rewrite lookup_insert_ne.
Qed.

Lemma buffer_inv_flush (w : BlogWorker) (key : Key) (tx : TxOutcome)
    (bus : string -> AckOutcome) :
  buffer_inv w -> buffer_inv (after (_flush_key strftime_utc w key tx bus)).
Proof.
  intros Hinv. destruct (flush_key_case strftime_utc w key tx bus); cbn; auto.
  now apply buffer_inv_reset.
Qed.

End WorkerInvariant.

(** ** The batch consumer: the properties of the specification *)

Section WorkerProperties.

Import Worker.

Variable fromisoformat : string -> option datetime.
Variable strftime_utc : datetime -> Reply string.

(** C3. A key is selected for flushing exactly when its buffer is not
    empty and the number of its items has reached [batch_max_count], or its
    first-insert timestamp is at least [batch_max_age_ms] milliseconds
    (clock readings are in microseconds) behind the clock, or its byte
    accumulator has reached [batch_max_bytes]. Buffering a message adds
    [len(content) + len(author) + len(location) + len(genre) + 64] to the
    accumulator of the key of the message and to no other; under the
    invariant of the buffers the accumulator is the sum of these costs over
    the buffered items, and a non-empty buffer has its timestamp. *)
Theorem should_flush_iff_threshold_reached (w : BlogWorker) (key : Key) (now : Z) :
  (fst (_should_flush w key now) = true <->
     items_of w key <> []
     /\ (batch_max_count w <= Z.of_nat (length (items_of w key))
         \/ (exists first_at, buffer_first_at w !! key = Some first_at
                              /\ 1000 * batch_max_age_ms w <= now - first_at)
         \/ batch_max_bytes w <= bytes_of w key))
  /\ (forall stream mid fields t1 t2,
        let w' := _add_to_buffer fromisoformat w stream mid fields t1 t2 in
        let genre := default "" (fields !! "genre") in
        let location := default "" (fields !! "location") in
        bytes_of w' (genre, location)
        = bytes_of w (genre, location)
          + (len (default "" (fields !! "content")) + len (default "" (fields !! "author"))
             + len location + len genre + 64)
        /\ (forall k, k <> (genre, location) -> bytes_of w' k = bytes_of w k))
  /\ (buffer_inv w ->
        bytes_of w key = total_bytes (items_of w key)
        /\ (items_of w key <> [] -> is_Some (buffer_first_at w !! key))).
Proof.
  split; [apply should_flush_spec|]. split.
  - intros stream mid fields t1 t2 w' genre location.
    destruct (add_to_buffer_spec fromisoformat w stream mid fields t1 t2)
      as (_ & _ & Hb & Hb' & _).
    split; [exact Hb | exact Hb'].
  - intros (Hb & Hf & _). split; [apply Hb|].
    intros Hne. destruct (buffer_first_at w !! key) eqn:E; [eauto|].
    now apply Hf in E.
Qed.

(** C7. A flush returns normally exactly when the buffer is empty or the
    rows were formatted and the transaction committed, whatever XACK and
    XDEL did; and after a flush that returned normally the buffer of the
    key is empty, the key has no first-insert timestamp and its byte
    accumulator is zero. *)
Theorem successful_flush_resets_key (w : BlogWorker) (key : Key)
    (tx : TxOutcome) (bus : string -> AckOutcome) :
  let o := _flush_key strftime_utc w key tx bus in
  (raised o = false <->
     items_of w key = []
     \/ (tx = Commits
         /\ exists rows_json,
              rows_json_list strftime_utc (items_of w key) = Returns rows_json))
  /\ (raised o = false -> buffer_inv w \/ items_of w key <> [] ->
        items_of (after o) key = []
        /\ buffer_first_at (after o) !! key = None
        /\ bytes_of (after o) key = 0).
Proof.
  intros o. subst o.
  destruct (flush_key_case strftime_utc w key tx bus)
    as [He|e Hne Hr|rj Hne Hr Htx|rj Hne Hr Htx|rj Hne Hr Htx]; cbn [raised after].
  - split; [tauto|]. intros _ [Hinv|Hne]; [|contradiction].
    destruct Hinv as (Hb & Hf & _). split; [exact He|].
    split; [now apply Hf|]. now rewrite Hb, He.
  - split; [|discriminate]. split; [discriminate|].
    intros [He|(_ & rj & Hrj)]; congruence.
  - split; [|discriminate]. split; [discriminate|].
    intros [He|(Hc & _)]; congruence.
  - split; [|discriminate]. split; [discriminate|].
    intros [He|(Hc & _)]; [congruence|]. destruct Htx; congruence.
  - split; [split; eauto|]. intros _ _.
    pose proof (reset_buffer_spec w key) as Hs. cbn zeta in Hs.
    destruct Hs as (Hi & Hf & Hb & _). auto.
Qed.

(** [append_mid] and [stream_to_mids] keep exactly the entry ids of the
    items, under the stream each came from. *)
Lemma append_mid_elem (d : list (string * list string)) (stream mid s m : string) :
  (exists mids, (s, mids) ∈ append_mid d stream mid /\ m ∈ mids) ->
  (exists mids, (s, mids) ∈ d /\ m ∈ mids) \/ (s = stream /\ m = mid).
Proof.
  induction d as [|[s0 mids0] d IH]; cbn.
  - intros (mids & Hin & Hm). apply list_elem_of_singleton in Hin.
    injection Hin as -> ->. apply list_elem_of_singleton in Hm. auto.
  - destruct (String.eqb_spec s0 stream) as [->|Hne].
    + intros (mids & Hin & Hm). apply elem_of_cons in Hin as [Heq|Hin].
      * injection Heq as -> ->. apply elem_of_app in Hm as [Hm|Hm].
        -- left. exists mids0. split; [left|exact Hm].
        -- apply list_elem_of_singleton in Hm. auto.
      * left. exists mids. split; [now right|exact Hm].
    + intros (mids & Hin & Hm). apply elem_of_cons in Hin as [Heq|Hin].
      * injection Heq as -> ->. left. exists mids0. split; [left|exact Hm].
      * destruct IH as [(mids' & Hin' & Hm')|Heq]; [eauto| |auto].
        left. exists mids'. split; [now right|exact Hm'].
Qed.

Lemma stream_to_mids_elem (items : list BufferedItem) (s m : string) (mids : list string) :
  (s, mids) ∈ stream_to_mids items -> m ∈ mids ->
  exists bi, bi ∈ items /\ redis_stream bi = s /\ redis_message_id bi = m.
Proof.
  unfold stream_to_mids.
  assert (H : forall d,
             (exists mids, (s, mids) ∈
                fold_left (fun d bi => append_mid d (redis_stream bi) (redis_message_id bi))
                  items d /\ m ∈ mids) ->
             (exists mids, (s, mids) ∈ d /\ m ∈ mids)
             \/ exists bi, bi ∈ items /\ redis_stream bi = s /\ redis_message_id bi = m).
  { induction items as [|bi items IH]; cbn; intros d Hd; [now left|].
    apply IH in Hd as [Hd|(bi' & Hin & Hs & Hm)].
    - apply append_mid_elem in Hd as [Hd|[-> ->]]; [now left|].
      right. exists bi. split; [left|auto].
    - right. exists bi'. split; [now right|auto]. }
  intros Hin Hm. destruct (H []) as [(mids' & Hin' & _)|Hbi]; [eauto| |exact Hbi].
  now apply elem_of_nil in Hin'.
Qed.

(** A flush that raises leaves the worker as it was, and so does a flush
    of a key other than [k] to the three entries of [k]. *)
Lemma flush_key_raised (w : BlogWorker) (key : Key) (tx : TxOutcome)
    (bus : string -> AckOutcome) :
  raised (_flush_key strftime_utc w key tx bus) = true ->
  after (_flush_key strftime_utc w key tx bus) = w /\ items_of w key <> [].
Proof.
  destruct (flush_key_case strftime_utc w key tx bus); cbn; auto; discriminate.
Qed.

Lemma flush_key_frame (w : BlogWorker) (key k : Key) (tx : TxOutcome)
    (bus : string -> AckOutcome) :
  k <> key ->
  let w' := after (_flush_key strftime_utc w key tx bus) in
  items_of w' k = items_of w k
  /\ buffer_first_at w' !! k = buffer_first_at w !! k
  /\ bytes_of w' k = bytes_of w k.
Proof.
  intros Hne. destruct (flush_key_case strftime_utc w key tx bus); cbn; auto.
  pose proof (reset_buffer_spec w key) as Hs. cbn zeta in Hs.
  destruct Hs as (_ & _ & _ & Hother & _). now apply Hother.
Qed.

(** Whether a key is selected depends on its three entries and on the
    thresholds only. *)
Lemma should_flush_same (w w' : BlogWorker) (k : Key) (now : Z) :
  same_entries w w' k -> same_thresholds w w' ->
  fst (_should_flush w' k now) = fst (_should_flush w k now).
Proof.
  intros (Hi & Hf & Hb) (Hc & Ha & Hm).
  apply eq_true_iff_eq. rewrite !should_flush_spec, Hi, Hf, Hb, Hc, Ha, Hm. tauto.
Qed.

(** Once selected, a key stays selected as the clock advances, as long as
    its entries are not touched. *)
Lemma should_flush_later (w : BlogWorker) (k : Key) (now now' : Z) :
  now <= now' ->
  fst (_should_flush w k now) = true -> fst (_should_flush w k now') = true.
Proof.
  intros Hle. rewrite !should_flush_spec.
  intros (Hne & [Hc|[(f & Hf & Hage)|Hb]]); split; auto.
  right. left. exists f. split; [exact Hf|lia].
Qed.

Lemma select_keys_spec (w : BlogWorker) (keys : list Key) (now_at : Key -> Z) :
  let ks := fst (select_keys w keys now_at) in
  let w2 := snd (select_keys w keys now_at) in
  (forall k, same_entries w w2 k)
  /\ same_thresholds w w2
  /\ (buffer_inv w -> buffer_inv w2)
  /\ (forall k, k ∈ ks -> k ∈ keys /\ fst (_should_flush w k (now_at k)) = true)
  /\ (NoDup keys -> NoDup ks).
Proof.
  revert w. induction keys as [|k keys IH]; intros w; cbn.
  - split; [|split; [|split; [|split]]]; auto using NoDup_nil_2.
    + intros k. now unfold same_entries.
    + now unfold same_thresholds.
    + intros k Hk. now apply elem_of_nil in Hk.
  - pose proof (should_flush_after w k (now_at k)) as Hafter.
    destruct (_should_flush w k (now_at k)) as [b w1] eqn:E. cbn in Hafter.
    specialize (IH w1). cbn zeta in IH.
    destruct (select_keys w1 keys now_at) as [ks w2]. cbn in IH |- *.
    destruct IH as (Hsame & Hthr & Hinv & Hsel & Hnd).
    pose proof (buffers_getitem_after w k) as Hg. cbn zeta in Hg.
    rewrite <- Hafter in Hg.
    destruct Hg as (Hit & Hfa & Hbb & Hc & Ha & Hm & _).
    assert (Hsame1 : forall k', same_entries w w1 k').
    { intros k'. unfold same_entries, bytes_of. now rewrite Hit, Hfa, Hbb. }
    assert (Hthr1 : same_thresholds w w1) by (now unfold same_thresholds).
    split; [|split; [|split; [|split]]].
    + intros k'. destruct (Hsame k') as (? & ? & ?). destruct (Hsame1 k') as (? & ? & ?).
      unfold same_entries. split; [|split]; congruence.
    + destruct Hthr as (? & ? & ?). destruct Hthr1 as (? & ? & ?).
      unfold same_thresholds. split; [|split]; congruence.
    + intros Hw. apply Hinv. subst w1. now apply buffer_inv_getitem.
    + assert (Hrest : forall k', k' ∈ ks ->
                k' ∈ k :: keys /\ fst (_should_flush w k' (now_at k')) = true).
      { intros k' Hk'. destruct (Hsel k' Hk') as [Hin Hb].
        split; [now right|].
        now rewrite <- (should_flush_same w w1 k' (now_at k') (Hsame1 k') Hthr1). }
      destruct b; [|exact Hrest].
      intros k' [->|Hk']%elem_of_cons; [|now apply Hrest].
      split; [left|]. now rewrite E.
    + intros [Hnotin Hnd']%NoDup_cons. specialize (Hnd Hnd').
      destruct b; [|exact Hnd]. apply NoDup_cons. split; [|exact Hnd].
      intros Hin. apply Hnotin. now apply Hsel.
Qed.

Lemma flush_keys_raised (w : BlogWorker) (keys : list Key)
    (tx : Key -> TxOutcome) (bus : Key -> string -> AckOutcome) :
  NoDup keys ->
  let o := flush_keys strftime_utc w keys tx bus in
  raised o = true ->
  exists k, k ∈ keys
            /\ same_entries w (after o) k
            /\ items_of w k <> []
            /\ raised (_flush_key strftime_utc (after o) k (tx k) (bus k)) = true.
Proof.
  revert w. induction keys as [|k keys IH]; intros w Hnd; cbn; [discriminate|].
  apply NoDup_cons in Hnd as [Hnotin Hnd].
  destruct (raised (_flush_key strftime_utc w k (tx k) (bus k))) eqn:E.
  - intros _. destruct (flush_key_raised w k (tx k) (bus k) E) as [Hw Hne].
    exists k. rewrite Hw. repeat split; auto. left.
  - cbn. intros Hr. destruct (IH _ Hnd Hr) as (k' & Hin & Hsame & Hne & Hr').
    assert (Hk : k' <> k) by (intros ->; contradiction).
    destruct (flush_key_frame w k k' (tx k) (bus k) Hk) as (Hi & Hf & Hb).
    exists k'. split; [now right|]. split; [|split; [|exact Hr']].
    + destruct Hsame as (? & ? & ?). unfold same_entries. split; [|split]; congruence.
    + now rewrite <- Hi.
Qed.

Lemma buffer_inv_buffer_messages (w : BlogWorker)
    (resp : list (string * list (string * gmap string string)))
    (clock : string -> string -> Z * Z) :
  buffer_inv w -> buffer_inv (buffer_messages fromisoformat w resp clock).
Proof.
  unfold buffer_messages. revert w.
  induction resp as [|[stream messages] resp IH]; intros w Hw; cbn; [exact Hw|].
  apply IH. clear IH. revert w Hw.
  induction messages as [|[mid fields] messages IH]; intros w Hw; cbn; [exact Hw|].
  apply IH. destruct (clock stream mid). now apply buffer_inv_add.
Qed.

(** C2. In the trace of a flush, a command to the bus (XACK or XDEL) occurs
    only when the transaction committed, after the COMMIT, and names only
    entry ids of the buffered items. A flush whose insert fails raises; a
    flush that raises has acknowledged nothing, has not committed, and
    leaves the worker exactly as it was, so that flushing the key again
    submits the same items and the key is selected again at any later
    clock reading. When the flush loop of one iteration of [run] is cut
    short by an exception, the worker the next iteration starts from holds,
    for the key whose flush raised, the buffer, timestamp and accumulator
    the iteration had before its flushes. *)
Theorem flush_acks_only_after_commit (w : BlogWorker) (key : Key)
    (tx : TxOutcome) (bus : string -> AckOutcome) :
  let o := _flush_key strftime_utc w key tx bus in
  (forall i c, trace o !! i = Some (Bus c) ->
     tx = Commits /\ (2 < i)%nat /\ trace o !! 2%nat = Some (Db COMMIT)
     /\ exists stream mids,
          (c = XACK stream (consumer_group w) mids \/ c = XDEL stream mids)
          /\ forall mid, mid ∈ mids ->
               exists bi, bi ∈ items_of w key
                          /\ redis_stream bi = stream /\ redis_message_id bi = mid)
  /\ (tx <> Commits -> items_of w key <> [] -> raised o = true)
  /\ (raised o = true ->
        after o = w
        /\ (forall e, e ∈ trace o -> e <> Db COMMIT /\ forall c, e <> Bus c)
        /\ (forall tx' bus',
              _flush_key strftime_utc (after o) key tx' bus'
              = _flush_key strftime_utc w key tx' bus')
        /\ (forall now now', now <= now' ->
              fst (_should_flush w key now) = true ->
              fst (_should_flush (after o) key now') = true))
  /\ (forall resp clock now_at txs buss,
        buffer_inv w ->
        let w1 := buffer_messages fromisoformat w resp clock in
        let r := run_after_read fromisoformat strftime_utc w resp clock now_at txs buss in
        raised r = true ->
        exists k, fst (_should_flush w1 k (now_at k)) = true
                  /\ items_of w1 k <> []
                  /\ same_entries w1 (after r) k
                  /\ raised (_flush_key strftime_utc (after r) k (txs k) (buss k)) = true).
Proof.
  intros o. split; [|split; [|split]].
  - subst o. intros i c.
    destruct (flush_key_case strftime_utc w key tx bus)
      as [He|e Hne Hr|rj Hne Hr Htx|rj Hne Hr Htx|rj Hne Hr Htx]; cbn [trace].
    1-3: now rewrite lookup_nil.
    + destruct i as [|[|[|i]]]; cbn; discriminate.
    + destruct i as [|[|[|i]]]; cbn; try discriminate.
      intros Hi. split; [exact Htx|]. split; [lia|]. split; [reflexivity|].
      apply list_elem_of_lookup_2, list_elem_of_In, in_concat in Hi
        as (l & Hl & Hc).
      apply in_map_iff in Hl as ([stream mids] & <- & Hsm).
      apply list_elem_of_In in Hsm, Hc.
      exists stream, mids. split.
      * destruct (ack_stream_events _ _ _ _ Hc) as [Hx|[Hx|Hx]]; cbn in Hx.
        -- left. congruence.
        -- right. congruence.
        -- discriminate.
      * intros mid Hmid. now apply stream_to_mids_elem with mids.
  - subst o. intros Htx Hne.
    destruct (flush_key_case strftime_utc w key tx bus); cbn; congruence.
  - subst o. intros Hr. destruct (flush_key_raised w key tx bus Hr) as [Hw Hne].
    split; [exact Hw|]. split; [|split].
    + revert Hr.
      destruct (flush_key_case strftime_utc w key tx bus); cbn; try discriminate;
        intros _ ev Hev.
      1-2: now apply elem_of_nil in Hev.
      rewrite !elem_of_cons, elem_of_nil in Hev.
      destruct Hev as [->|[->|[->|[]]]]; split; intros; discriminate.
    + intros tx' bus'. now rewrite Hw.
    + intros now now' Hle Hsel. rewrite Hw. now apply should_flush_later with now.
  - intros resp clock now_at txs buss Hinv w1 r. subst r. unfold run_after_read.
    fold w1.
    pose proof (buffer_inv_buffer_messages w resp clock Hinv) as Hinv1. fold w1 in Hinv1.
    unfold keys_to_flush.
    pose proof (select_keys_spec w1 (buffers_keys w1) now_at) as Hs. cbn zeta in Hs.
    destruct (select_keys w1 (buffers_keys w1) now_at) as [keys w2]. cbn in Hs.
    destruct Hs as (Hsame & _ & _ & Hsel & Hnd).
    assert (Hnd1 : NoDup (buffers_keys w1)) by apply Hinv1.
    intros Hr.
    destruct (flush_keys_raised w2 keys txs buss (Hnd Hnd1) Hr)
      as (k & Hin & Hsame2 & Hne & Hr').
    exists k. destruct (Hsel k Hin) as [_ Hb].
    destruct (Hsame k) as (Hi & Hf & Hbb). destruct Hsame2 as (Hi2 & Hf2 & Hbb2).
    split; [exact Hb|]. split; [now rewrite <- Hi|]. split; [|exact Hr'].
    unfold same_entries. split; [|split]; congruence.
Qed.

End WorkerProperties.

(** ** The record table: [INSERT ... ON DUPLICATE KEY UPDATE] *)

Section StoreProperties.

Import Blogs.

Variable collation_key : string -> string.
Variable duplicate_consumes_id : bool.

Local Abbreviation holds_key := (holds_key collation_key).
Local Abbreviation collides := (collides collation_key).
Local Abbreviation update_first := (update_first collation_key).
Local Abbreviation insert_row := (insert_row collation_key duplicate_consumes_id).
Local Abbreviation keys_unique := (keys_unique collation_key).
Local Abbreviation table_ok := (table_ok collation_key).

Lemma holds_key_iff (c : string) (s : Stored) :
  holds_key c s = true <->
  exists c', client_msg_id (cols s) = Some c' /\ collation_key c' = collation_key c.
Proof.
  unfold Blogs.holds_key. destruct (client_msg_id (cols s)) as [c'|].
  - rewrite String.eqb_eq. split; [eauto|]. now intros (? & [= <-] & ?).
  - split; [discriminate|]. now intros (? & ? & _).
Qed.

Lemma collides_iff (r : BlogRow) (s : Stored) :
  collides r s = true <->
  exists c, client_msg_id r = Some c /\ holds_key c s = true.
Proof.
  unfold Blogs.collides. destruct (client_msg_id r) as [c|].
  - split; [eauto|]. now intros (? & [= <-] & ?).
  - split; [discriminate|]. now intros (? & ? & _).
Qed.

(** Two keys that one stored row holds are held by the same rows. *)
Lemma holds_key_trans (c c' : string) (s s' : Stored) :
  holds_key c s = true -> holds_key c' s = true -> holds_key c s' = true ->
  holds_key c' s' = true.
Proof.
  rewrite !holds_key_iff. intros (a & Ha & Ea) (b & Hb & Eb) (d & Hd & Ed).
  exists d. split; [exact Hd|]. congruence.
Qed.

Lemma holds_key_set_updated_at (c : string) (s : Stored) (v : datetime) :
  holds_key c (set_updated_at s v) = holds_key c s.
Proof. reflexivity. Qed.

(** [update_first] rewrites the one row the tuple collides with, in
    place. *)
Lemma update_first_hit (r : BlogRow) (l : list Stored) (i : nat) (e : Stored) :
  keys_unique l -> l !! i = Some e -> collides r e = true ->
  update_first r l = <[i := on_duplicate_key_update r e]> l.
Proof.
  revert i. induction l as [|s l IH]; intros i Hu Hi Hc; [now rewrite lookup_nil in Hi|].
  cbn. destruct (collides r s) eqn:Hs.
  - apply collides_iff in Hc as (c & Hr & Hc).
    apply collides_iff in Hs as (c' & Hr' & Hs).
    assert (c' = c) by congruence. subst c'.
    assert (i = 0)%nat as ->.
    { symmetry. now apply (Hu 0%nat i s e c). }
    cbn in Hi. now injection Hi as ->.
  - destruct i as [|i]; cbn in Hi.
    + injection Hi as ->. congruence.
    + cbn. f_equal. apply IH; auto.
      intros a b s1 s2 c H1 H2 K1 K2.
      assert (S a = S b) by (now apply (Hu (S a) (S b) s1 s2 c)). lia.
Qed.


Lemma keys_unique_insert (l : list Stored) (j : nat) (e x : Stored) :
  l !! j = Some e -> (forall c, holds_key c x = holds_key c e) ->
  keys_unique l -> keys_unique (<[j := x]> l).
Proof.
  intros Hj Hx Hu a b s1 s2 c H1 H2 K1 K2.
  assert (Hget : forall n s, <[j := x]> l !! n = Some s -> holds_key c s = true ->
                   exists s', l !! n = Some s' /\ holds_key c s' = true).
  { intros n s Hn Hk. destruct (decide (j = n)) as [<-|Hne].
    - rewrite list_lookup_insert_eq in Hn by (now apply lookup_lt_Some with e).
      injection Hn as <-. exists e. split; [exact Hj|]. now rewrite <- Hx.
    - rewrite list_lookup_insert_ne in Hn by exact Hne. eauto. }
  destruct (Hget a s1 H1 K1) as (s1' & H1' & K1').
  destruct (Hget b s2 H2 K2) as (s2' & H2' & K2').
  now apply (Hu a b s1' s2' c).
Qed.

Lemma ids_unique_insert (l : list Stored) (j : nat) (e x : Stored) :
  l !! j = Some e -> id x = id e -> ids_unique l -> ids_unique (<[j := x]> l).
Proof.
  intros Hj Hx Hu a b s1 s2 H1 H2 E.
  assert (Hget : forall n s, <[j := x]> l !! n = Some s ->
                   exists s', l !! n = Some s' /\ id s' = id s).
  { intros n s Hn. destruct (decide (j = n)) as [<-|Hne].
    - rewrite list_lookup_insert_eq in Hn by (now apply lookup_lt_Some with e).
      injection Hn as <-. exists e. auto.
    - rewrite list_lookup_insert_ne in Hn by exact Hne. eauto. }
  destruct (Hget a s1 H1) as (s1' & H1' & E1).
  destruct (Hget b s2 H2) as (s2' & H2' & E2).
  apply (Hu a b s1' s2'); congruence.
Qed.

(** A tuple that collides with a stored row rewrites that row where it
    stands. *)
Lemma insert_row_hit (t : Table) (r : BlogRow) (i : nat) (e : Stored) :
  table_ok t -> rows t !! i = Some e -> collides r e = true ->
  rows (insert_row t r) = <[i := on_duplicate_key_update r e]> (rows t).
Proof.
  intros (_ & _ & Hu) Hi Hc. unfold Blogs.insert_row.
  assert (Hex : existsb (collides r) (rows t) = true).
  { apply existsb_exists. exists e. split; [|exact Hc].
    now apply list_elem_of_In, list_elem_of_lookup_2 with i. }
  rewrite Hex. cbn. now apply update_first_hit.
Qed.

(** The effect of one tuple on the row at position [i]. *)
Lemma insert_row_tracks (t : Table) (r : BlogRow) (i : nat) (e : Stored) :
  table_ok t -> rows t !! i = Some e ->
  rows (insert_row t r) !! i
  = Some (if collides r e then on_duplicate_key_update r e else e).
Proof.
  intros Hok Hi. destruct (collides r e) eqn:Hc.
  - rewrite (insert_row_hit t r i e Hok Hi Hc).
    apply list_lookup_insert_eq. now apply lookup_lt_Some with e.
  - unfold Blogs.insert_row. destruct (existsb (collides r) (rows t)) eqn:Hex; cbn.
    + apply existsb_exists in Hex as (e2 & Hin & Hc2).
      apply list_elem_of_In, list_elem_of_lookup in Hin as [j Hj].
      destruct Hok as (_ & _ & Hu).
      rewrite (update_first_hit r (rows t) j e2 Hu Hj Hc2).
      rewrite list_lookup_insert_ne; [exact Hi|].
      intros ->. congruence.
    + now apply lookup_app_l_Some.
Qed.

Lemma insert_row_ok (t : Table) (r : BlogRow) :
  table_ok t -> table_ok (insert_row t r).
Proof.
  intros Hok. pose proof Hok as (Hid & Hlt & Hu).
  unfold Blogs.insert_row. destruct (existsb (collides r) (rows t)) eqn:Hex.
  - apply existsb_exists in Hex as (e & Hin & Hc).
    apply list_elem_of_In, list_elem_of_lookup in Hin as [j Hj].
    rewrite (update_first_hit r (rows t) j e Hu Hj Hc).
    split; [|split]; cbn.
    + now apply ids_unique_insert with e.
    + apply Forall_insert.
      * eapply Forall_impl; [exact Hlt|]. cbn. intros s Hs.
        destruct duplicate_consumes_id; lia.
      * cbn. rewrite Forall_lookup in Hlt. specialize (Hlt j e Hj). cbn in Hlt.
        destruct duplicate_consumes_id; lia.
    + now apply keys_unique_insert with e.
  - assert (Hnone : forall s, s ∈ rows t -> collides r s = false).
    { intros s Hs. destruct (collides r s) eqn:Hc; [|reflexivity].
      assert (existsb (collides r) (rows t) = true); [|congruence].
      apply existsb_exists. exists s. split; [now apply list_elem_of_In|exact Hc]. }
    set (new := {| id := auto_increment t; cols := r |}).
    assert (Hsplit : forall n s, (rows t ++ [new]) !! n = Some s ->
              (rows t !! n = Some s /\ (n < length (rows t))%nat)
              \/ (n = length (rows t) /\ s = new)).
    { intros n s Hn. apply lookup_app_Some in Hn as [Hn|[Hge Hn]].
      - left. split; [exact Hn|]. now apply lookup_lt_Some with s.
      - right. destruct (n - length (rows t))%nat as [|m] eqn:Em; cbn in Hn.
        + injection Hn as <-. split; [lia|reflexivity].
        + discriminate. }
    split; [|split]; cbn.
    + intros a b s1 s2 H1 H2 E.
      destruct (Hsplit a s1 H1) as [[H1' L1]|[-> ->]];
        destruct (Hsplit b s2 H2) as [[H2' L2]|[-> ->]]; auto.
      * now apply (Hid a b s1 s2).
      * rewrite Forall_lookup in Hlt. specialize (Hlt a s1 H1'). cbn in *. lia.
      * rewrite Forall_lookup in Hlt. specialize (Hlt b s2 H2'). cbn in *. lia.
    + apply Forall_app. split.
      * eapply Forall_impl; [exact Hlt|]. cbn. intros. lia.
      * apply Forall_singleton. cbn. lia.
    + intros a b s1 s2 c H1 H2 K1 K2.
      assert (Hnew : forall s, s ∈ rows t -> holds_key c s = true ->
                       holds_key c new = true -> False).
      { intros s Hs Ks Kn. specialize (Hnone s Hs).
        apply holds_key_iff in Kn as (c' & Hc' & Ec'). cbn in Hc'.
        assert (collides r s = true); [|congruence].
        apply collides_iff. exists c'. split; [exact Hc'|].
        apply holds_key_iff in Ks as (d & Hd & Ed).
        apply holds_key_iff. exists d. split; [exact Hd|]. congruence. }
      destruct (Hsplit a s1 H1) as [[H1' L1]|[-> ->]];
        destruct (Hsplit b s2 H2) as [[H2' L2]|[-> ->]]; auto.
      * now apply (Hu a b s1 s2 c).
      * exfalso. apply (Hnew s1); auto. now apply list_elem_of_lookup_2 with a.
      * exfalso. apply (Hnew s2); auto. now apply list_elem_of_lookup_2 with b.
Qed.

Local Abbreviation last_incoming := (Blogs.last_incoming collation_key).
Local Abbreviation execute_INSERT_SQL :=
  (Blogs.execute_INSERT_SQL collation_key duplicate_consumes_id).
Local Abbreviation bulk_insert := (Blogs.bulk_insert collation_key duplicate_consumes_id).

Lemma set_updated_at_twice (s : Stored) (v v' : datetime) :
  set_updated_at (set_updated_at s v) v' = set_updated_at s v'.
Proof. reflexivity. Qed.

(** The last tuple that hits the key decides. *)
Lemma last_incoming_cons (c : string) (r : BlogRow) (rs : list BlogRow) :
  last_incoming c (r :: rs)
  = match last_incoming c rs with
    | Some v => Some v
    | None => last_incoming c [r]
    end.
Proof.
  unfold Blogs.last_incoming. cbn [fold_left].
  generalize (match client_msg_id r with
              | Some c' => if String.eqb (collation_key c) (collation_key c')
                           then Some (updated_at r) else None
              | None => None
              end) as acc.
  induction rs as [|r' rs IH]; intros acc; cbn [fold_left]; [reflexivity|].
  rewrite IH. symmetry. rewrite IH.
  destruct (fold_left _ rs None); [reflexivity|].
  destruct (client_msg_id r') as [c'|]; [|reflexivity].
  now destruct (String.eqb _ _).
Qed.

Lemma last_incoming_one (c : string) (r : BlogRow) (e : Stored) :
  client_msg_id (cols e) = Some c ->
  last_incoming c [r] = if collides r e then Some (updated_at r) else None.
Proof.
  intros Hc. unfold Blogs.last_incoming, Blogs.collides, Blogs.holds_key. cbn.
  rewrite Hc. now destruct (client_msg_id r).
Qed.

(** The row at position [i] through a whole statement: it ends with the
    [updated_at] of the last tuple that hit its key, or as it was. *)
Lemma execute_tracks (rs : list BlogRow) (t : Table) (i : nat) (e : Stored) (c : string) :
  table_ok t -> rows t !! i = Some e -> client_msg_id (cols e) = Some c ->
  table_ok (execute_INSERT_SQL t rs)
  /\ rows (execute_INSERT_SQL t rs) !! i
     = Some (match last_incoming c rs with
             | Some v => set_updated_at e v
             | None => e
             end).
Proof.
  revert t e. induction rs as [|r rs IH]; intros t e Hok Hi Hc; [now split|].
  unfold Blogs.execute_INSERT_SQL. cbn [fold_left].
  pose proof (insert_row_ok t r Hok) as Hok1.
  pose proof (insert_row_tracks t r i e Hok Hi) as Hi1.
  destruct (IH _ _ Hok1 Hi1) as [Hok' Hi'].
  { now destruct (collides r e). }
  split; [exact Hok'|].
  unfold Blogs.execute_INSERT_SQL in Hi'. rewrite Hi'. f_equal.
  rewrite last_incoming_cons, (last_incoming_one c r e Hc).
  destruct (last_incoming c rs); now destruct (collides r e).
Qed.

Lemma last_incoming_hit (c : string) (rs : list BlogRow) (r : BlogRow) (e : Stored) :
  client_msg_id (cols e) = Some c -> r ∈ rs -> collides r e = true ->
  exists r', r' ∈ rs /\ collides r' e = true
             /\ last_incoming c rs = Some (updated_at r').
Proof.
  intros Hc. induction rs as [|r0 rs IH]; intros Hin Hcol; [now apply elem_of_nil in Hin|].
  rewrite last_incoming_cons, (last_incoming_one c r0 e Hc).
  destruct (last_incoming c rs) as [v|] eqn:E.
  - assert (Hex : exists r', r' ∈ rs /\ collides r' e = true
                             /\ Some v = Some (updated_at r')).
    { clear IH Hin Hcol. revert v E. induction rs as [|r1 rs IH]; intros v E.
      - discriminate.
      - rewrite last_incoming_cons, (last_incoming_one c r1 e Hc) in E.
        destruct (last_incoming c rs) as [v'|] eqn:E'.
        + destruct (IH v' eq_refl) as (r' & Hr' & Hc' & Hv). injection E as <-.
          exists r'. split; [now right|auto].
        + destruct (collides r1 e) eqn:C1; [|discriminate].
          exists r1. split; [left|auto]. }
    destruct Hex as (r' & Hr' & Hc' & Hv). exists r'. split; [now right|auto].
  - apply elem_of_cons in Hin as [->|Hin].
    + rewrite Hcol. exists r0. split; [left|auto].
    + destruct (IH Hin Hcol) as (? & ? & ? & ?). discriminate.
Qed.

(** C6. When a bulk insert that the driver executes contains a tuple whose
    [client_msg_id] collides with that of a stored row, the table
    afterwards holds, at the position of that row, the same row with the
    same [id], [client_msg_id], [author], [created_at], [genre], [location]
    and [content], and with the [updated_at] of an incoming tuple that
    collides with it (the last one); no other row of the table has that
    [id] or that [client_msg_id], so no second row was created; and when the
    colliding tuple is the whole insert, no other row changed at all. If
    the driver raises, the table is as it was. *)
Theorem duplicate_key_updates_only_updated_at
    (t : Table) (rs : list BlogRow) (rowcount : Z)
    (r : BlogRow) (e : Stored) (i : nat) (c : string) :
  table_ok t -> rows t !! i = Some e -> client_msg_id (cols e) = Some c ->
  r ∈ rs -> collides r e = true ->
  let t' := fst (bulk_insert t rs (Returns rowcount)) in
  (exists r_last,
      r_last ∈ rs /\ collides r_last e = true
      /\ last_incoming c rs = Some (updated_at r_last)
      /\ rows t' !! i
         = Some {| id := id e;
                   cols := {| client_msg_id := client_msg_id (cols e);
                              author := author (cols e);
                              created_at := created_at (cols e);
                              updated_at := updated_at r_last;
                              genre := genre (cols e);
                              location := location (cols e);
                              content := content (cols e) |} |})
  /\ (forall j s, rows t' !! j = Some s ->
        id s = id e \/ holds_key c s = true -> j = i)
  /\ table_ok t'
  /\ (rs = [r] ->
      rows t'
      = <[i := {| id := id e;
                  cols := {| client_msg_id := client_msg_id (cols e);
                             author := author (cols e);
                             created_at := created_at (cols e);
                             updated_at := updated_at r;
                             genre := genre (cols e);
                             location := location (cols e);
                             content := content (cols e) |} |}]> (rows t)
      /\ length (rows t') = length (rows t)
      /\ forall j, j <> i -> rows t' !! j = rows t !! j)
  /\ (forall exn, fst (bulk_insert t rs (Raises exn)) = t).
Proof.
  intros Hok Hi Hc Hin Hcol t'.
  assert (Ht' : t' = execute_INSERT_SQL t rs).
  { subst t'. unfold Blogs.bulk_insert. destruct rs; [now apply elem_of_nil in Hin|reflexivity]. }
  destruct (execute_tracks rs t i e c Hok Hi Hc) as [Hok' Hi'].
  destruct (last_incoming_hit c rs r e Hc Hin Hcol) as (r' & Hr' & Hc' & Hlast).
  rewrite Hlast in Hi'. rewrite Ht'.
  split; [|split; [|split; [|split]]].
  - exists r'. split; [exact Hr'|]. split; [exact Hc'|]. split; [exact Hlast|].
    rewrite Hi'. reflexivity.
  - intros j s Hj [Hid|Hk].
    + destruct Hok' as (Hids & _). now apply (Hids j i s _ Hj Hi').
    + destruct Hok' as (_ & _ & Hkeys). apply (Hkeys j i s _ c Hj Hi' Hk).
      rewrite holds_key_set_updated_at. apply holds_key_iff. eauto.
  - exact Hok'.
  - intros ->. unfold Blogs.execute_INSERT_SQL. cbn [fold_left].
    rewrite (insert_row_hit t r i e Hok Hi Hcol).
    change (on_duplicate_key_update r e)
      with {| id := id e;
              cols := {| client_msg_id := client_msg_id (cols e);
                         author := author (cols e);
                         created_at := created_at (cols e);
                         updated_at := updated_at r;
                         genre := genre (cols e);
                         location := location (cols e);
                         content := content (cols e) |} |}.
    split; [reflexivity|]. split; [apply length_insert|].
    intros j Hj. apply list_lookup_insert_ne. congruence.
  - intros exn. unfold Blogs.bulk_insert. now destruct rs.
Qed.

End StoreProperties.

(** ** The data service and the facade *)

Section ServiceProperties.

Variable fromisoformat : string -> option datetime.
Variable astimezone_utc : datetime -> option datetime.
Variable isoformat : datetime -> string.
Variable not_overridden : Api.AioRpcError.

Local Abbreviation UpdateBlog := (Server.UpdateBlog fromisoformat astimezone_utc).
Local Abbreviation DataService_stub :=
  (Api.DataService_stub fromisoformat astimezone_utc isoformat not_overridden).

(** C10. [UpdateBlog] always calls the stored procedure, with the
    timestamp [_iso_to_dt] makes of [updated_at_iso]: the clock reading
    when the string is empty or does not parse. It never leaves with
    INVALID_ARGUMENT, and how it ends does not depend on [updated_at_iso]
    at all. *)
Theorem UpdateBlog_never_rejects_updated_at
    (request : Server.UpdateBlogRequest) (now : Z)
    (db : Reply (option (gmap string Z))) (commit : Reply ()) :
  let out := UpdateBlog request now db commit in
  fst out = [Server.CALL_sp_update_blog_content (Server.id request)
               (Server.new_content request)
               (Server._iso_to_dt fromisoformat astimezone_utc
                  (Some (Server.updated_at_iso request)) now)]
  /\ (Server.updated_at_iso request = ""
      \/ fromisoformat (Server.updated_at_iso request) = None ->
      Server._iso_to_dt fromisoformat astimezone_utc
        (Some (Server.updated_at_iso request)) now = utc_datetime now)
  /\ (forall d, snd out <> Server.Abort Server.INVALID_ARGUMENT d)
  /\ (forall iso,
        snd (UpdateBlog {| Server.id := Server.id request;
                           Server.new_content := Server.new_content request;
                           Server.updated_at_iso := iso |} now db commit)
        = snd out).
Proof.
  cbn zeta. split; [reflexivity|]. split; [|split].
  - intros [H|H]; unfold Server._iso_to_dt.
    + now rewrite H.
    + rewrite H. now destruct (is_empty _).
  - intros d. unfold Server.UpdateBlog. cbn [snd].
    destruct db as [row|e]; [|discriminate].
    destruct (Server.updated_of row =? 0); [discriminate|].
    destruct commit; discriminate.
  - intros iso. reflexivity.
Qed.

(** C8, as the code has it. [list_blogs] refuses a [limit] outside
    [1, 500] and a negative [offset] with a validation error (status 422)
    before anything is sent to the data service; it does not clamp. A
    [limit] within [1, 500] and an [offset] of at least 0, given or
    defaulted to 50 and 0, are forwarded unchanged, and [ListBlogs] binds
    them unchanged to the query. *)
Theorem list_blogs_refuses_out_of_range
    (author genre location : option string)
    (limit offset : Api.QueryValue) (stub : Api.Stub) :
  let out := Api.list_blogs author genre location limit offset stub in
  (forall z, limit = Api.Int z -> z < 1 \/ 500 < z ->
     out = inl (Api.RequestValidationError "limit"))
  /\ (forall z, offset = Api.Int z -> z < 0 ->
        Api.http_status out = 422
        /\ exists param, out = inl (Api.RequestValidationError param))
  /\ (forall l o, asked_for 50 limit l -> asked_for 0 offset o ->
        1 <= l <= 500 -> 0 <= o ->
        let request :=
          {| Server.list_author := Api.or_empty author;
             Server.list_genre := Api.or_empty genre;
             Server.list_location := Api.or_empty location;
             Server.limit := l;
             Server.offset := o |} in
        out = forwarded (Api.stub_ListBlogs stub request)
        /\ Server.p_limit (Server.ListBlogs_params request) = l
        /\ Server.p_offset (Server.ListBlogs_params request) = o).
Proof.
  cbn zeta. split; [|split].
  - intros z -> Hz. unfold Api.list_blogs, Api.Query_int.
    destruct (Z.leb_spec 1 z); destruct (Z.leb_spec z 500); cbn; try reflexivity; lia.
  - intros z -> Hz. unfold Api.list_blogs.
    destruct (Api.Query_int 50 (Some 1) (Some 500) limit); [|cbn; eauto].
    unfold Api.Query_int. destruct (Z.leb_spec 0 z); [lia|]. cbn. eauto.
  - intros l o Hl Ho Hlr Hor.
    assert (Api.Query_int 50 (Some 1) (Some 500) limit = Some l) as Ql.
    { destruct Hl as [->|[-> ->]]; [|reflexivity]. unfold Api.Query_int.
      destruct (Z.leb_spec 1 l); destruct (Z.leb_spec l 500); cbn; try reflexivity; lia. }
    assert (Api.Query_int 0 (Some 0) None offset = Some o) as Qo.
    { destruct Ho as [->|[-> ->]]; [|reflexivity]. unfold Api.Query_int.
      destruct (Z.leb_spec 0 o); cbn; try reflexivity; lia. }
    unfold Api.list_blogs. rewrite Ql, Qo. split; [reflexivity|].
    unfold Server.ListBlogs_params, Server.int_or. cbn.
    destruct (Z.eqb_spec l 0); [lia|]. split; [reflexivity|].
    now destruct (Z.eqb_spec o 0).
Qed.

(** C9, at the failing path. [create_blog] answers every error of the RPC
    with status 400, whatever its code: in particular the UNKNOWN error of
    an ingest during which Redis raised, for a request that passes
    validation. [update_blog] and [list_blogs] answer the same error with
    500, and [update_blog] answers NOT_FOUND with 404. *)
Theorem create_blog_answers_backend_error_with_400
    (req : Api.BlogCreate) (stub : Api.Stub) :
  (forall e, Api.stub_EnqueueBlog stub (Api.request_of req) = inl e ->
     Api.create_blog req false stub = inl (Api.HTTPException 400 (Api.details e)))
  /\ (forall e, Api.stub_CreateBlogSync stub (Api.request_of req) = inl e ->
        Api.create_blog req true stub = inl (Api.HTTPException 400 (Api.details e)))
  /\ (forall (self : Server.DataService) (b : Api.Backend) (exn : string),
        strip (Api.author req) <> "" -> Api.content req <> "" ->
        strip (Api.genre req) <> "" -> strip (Api.location req) <> "" ->
        Api.sadd b = Raises exn ->
        Api.stub_EnqueueBlog (DataService_stub self b) (Api.request_of req)
        = inl {| Api.code := Server.UNKNOWN; Api.details := "Unexpected " +:+ exn |}
        /\ Api.create_blog req false (DataService_stub self b)
           = inl (Api.HTTPException 400 ("Unexpected " +:+ exn)))
  /\ (forall blog_id upd e,
        Api.stub_UpdateBlog stub
          {| Server.id := blog_id;
             Server.new_content := Api.update_content upd;
             Server.updated_at_iso := Api.or_empty (Api.update_updated_at_iso upd) |}
        = inl e ->
        (Api.code e = Server.NOT_FOUND ->
           Api.update_blog blog_id upd stub = inl (Api.HTTPException 404 "Not found"))
        /\ (Api.code e <> Server.NOT_FOUND ->
              Api.update_blog blog_id upd stub
              = inl (Api.HTTPException 500 (Api.details e))))
  /\ (forall author genre location l o e,
        Api.stub_ListBlogs stub
          {| Server.list_author := Api.or_empty author;
             Server.list_genre := Api.or_empty genre;
             Server.list_location := Api.or_empty location;
             Server.limit := l; Server.offset := o |} = inl e ->
        1 <= l <= 500 -> 0 <= o ->
        Api.list_blogs author genre location (Api.Int l) (Api.Int o) stub
        = inl (Api.HTTPException 500 (Api.details e))).
Proof.
  split; [|split; [|split; [|split]]].
  - intros e H. unfold Api.create_blog. now rewrite H.
  - intros e H. unfold Api.create_blog. now rewrite H.
  - intros self b exn Ha Hc Hg Hl Hs.
    assert (E : Api.stub_EnqueueBlog (DataService_stub self b) (Api.request_of req)
                = inl {| Api.code := Server.UNKNOWN;
                         Api.details := "Unexpected " +:+ exn |}).
    { cbn [Api.DataService_stub Api.stub_EnqueueBlog].
      rewrite EnqueueBlog_accepted by assumption. now rewrite Hs. }
    split; [exact E|]. unfold Api.create_blog. now rewrite E.
  - intros blog_id upd e H. unfold Api.update_blog. rewrite H.
    split; intros Hc; [now rewrite Hc|]. now destruct (Api.code e).
  - intros author genre location l o e H Hl Ho.
    unfold Api.list_blogs, Api.Query_int.
    destruct (Z.leb_spec 1 l); [|lia]. destruct (Z.leb_spec l 500); [|lia].
    destruct (Z.leb_spec 0 o); [|lia]. cbn. now rewrite H.
Qed.

(** C1, at the failing path. The data service defines no [CreateBlogSync]:
    a sync create is answered by the generated base class, [create_blog]
    turns that error into status 400, and so no sync create returns an id,
    whatever the request and whatever Redis and MySQL would answer; the
    same request, when it passes validation and Redis answers, is accepted
    on the asynchronous path. *)
Theorem sync_create_never_succeeds
    (req : Api.BlogCreate) (self : Server.DataService) (b : Api.Backend) :
  Api.create_blog req true (DataService_stub self b)
  = inl (Api.HTTPException 400 (Api.details not_overridden))
  /\ Api.http_status (Api.create_blog req true (DataService_stub self b)) = 400
  /\ (forall body, Api.create_blog req true (DataService_stub self b) <> inr body)
  /\ (forall n message_id,
        strip (Api.author req) <> "" -> Api.content req <> "" ->
        strip (Api.genre req) <> "" -> strip (Api.location req) <> "" ->
        Api.sadd b = Returns n -> Api.xadd b = Returns message_id ->
        Api.create_blog req false (DataService_stub self b)
        = inr [("status", Api.JStr "enqueued");
               ("stream", Api.JStr ("blogs:genre:" +:+ strip (Api.genre req)));
               ("message_id", Api.JStr message_id)]).
Proof.
  split; [reflexivity|]. split; [reflexivity|]. split; [discriminate|].
  intros n message_id Ha Hc Hg Hl Hs Hx.
  unfold Api.create_blog. cbn [Api.DataService_stub Api.stub_EnqueueBlog].
  rewrite EnqueueBlog_accepted by assumption. now rewrite Hs, Hx.
Qed.

End ServiceProperties.

(* ===================================================================== *)
(** * Part III: the properties at work on the sample data                  *)
(* ===================================================================== *)

Lemma sample_worker1_inv : Worker.buffer_inv Sample.worker1.
Proof. apply buffer_inv_add, buffer_inv_init. Qed.

Lemma sample_table_ok : Blogs.table_ok Sample.collation_key Sample.table.
Proof.
  split; [|split].
  - intros [|i] [|j] s1 s2 H1 H2 _; cbn in *; try discriminate; reflexivity.
  - repeat constructor.
  - intros [|i] [|j] s1 s2 c H1 H2 _ _; cbn in *; try discriminate; reflexivity.
Qed.

(** A flush whose insert fails: nothing is acknowledged and the worker is
    as it was. *)
Lemma failed_flush_keeps_sample_buffer :
  let o := Worker._flush_key Sample.strftime_utc Sample.worker1 Sample.key
             Worker.ExecuteFails (fun _ => Worker.AckDelOk) in
  Worker.raised o = true
  /\ Worker.after o = Sample.worker1
  /\ (forall e, e ∈ Worker.trace o ->
        e <> Worker.Db Worker.COMMIT /\ forall c, e <> Worker.Bus c).
Proof.
  intros o.
  destruct (flush_acks_only_after_commit Sample.fromisoformat Sample.strftime_utc
              Sample.worker1 Sample.key Worker.ExecuteFails (fun _ => Worker.AckDelOk))
    as (_ & Hfail & Hkeep & _).
  assert (Hr : Worker.raised o = true).
  { apply Hfail; [discriminate|]. vm_compute. discriminate. }
  destruct (Hkeep Hr) as (Hw & Hev & _).
  split; [exact Hr|]. split; [exact Hw|exact Hev].
Defined.

(** One buffered record of 71 bytes is selected once it is 300 ms old. *)
Lemma sample_key_selected_by_age :
  fst (Worker._should_flush Sample.worker1 Sample.key 1704067200300000) = true
  /\ Worker.bytes_of Sample.worker1 Sample.key = 71.
Proof.
  destruct (should_flush_iff_threshold_reached Sample.fromisoformat
              Sample.worker0 Sample.key 0) as (_ & Hadd & _).
  destruct (should_flush_iff_threshold_reached Sample.fromisoformat
              Sample.worker1 Sample.key 1704067200300000) as (Hiff & _ & Hinv).
  split.
  - apply Hiff. split; [vm_compute; discriminate|].
    right. left. exists 1704067200000000. split; [reflexivity|]. vm_compute. discriminate.
  - destruct (Hinv sample_worker1_inv) as [Hb _]. rewrite Hb. reflexivity.
Defined.

(** The blank author is trimmed to nothing and the request is rejected
    before any command is sent. *)
Lemma blank_author_is_rejected :
  (exists d, snd (Server.EnqueueBlog Sample.service Sample.blank_author
                    "22222222-2222-2222-2222-222222222222" "2024-01-01T00:00:00+00:00"
                    (Returns 1) (Returns "1-0"))
             = Server.Abort Server.INVALID_ARGUMENT d)
  /\ fst (Server.EnqueueBlog Sample.service Sample.blank_author
            "22222222-2222-2222-2222-222222222222" "2024-01-01T00:00:00+00:00"
            (Returns 1) (Returns "1-0")) = [].
Proof.
  destruct (EnqueueBlog_rejects_iff_empty_after_trim Sample.service Sample.blank_author
              "22222222-2222-2222-2222-222222222222" "2024-01-01T00:00:00+00:00"
              (Returns 1) (Returns "1-0"))
    as (_ & _ & _ & Hiff & Hnone & _).
  split; [apply Hiff|apply Hnone]; left; reflexivity.
Defined.

(** The sample request is advertised, then appended. *)
Lemma sample_ingest_advertises_then_appends :
  fst (Server.EnqueueBlog Sample.service (Api.request_of Sample.body)
         "22222222-2222-2222-2222-222222222222" "2024-01-01T00:00:00+00:00"
         (Returns 1) (Returns "1704067200000-0"))
  = [SADD "blogs:genres" "g1";
     XADD "blogs:genre:g1"
       [("client_msg_id", Sample.client_msg_id); ("author", "a"); ("content", "hi");
        ("genre", "g1"); ("location", "l1");
        ("created_at_iso", "2024-01-01T00:00:00+00:00")]
       200000 true].
Proof.
  destruct (EnqueueBlog_advertises_then_appends Sample.service
              (Api.request_of Sample.body)
              "22222222-2222-2222-2222-222222222222" "2024-01-01T00:00:00+00:00"
              (Returns 1) (Returns "1704067200000-0"))
    as (Hok & _ & _).
  destruct (Hok {| Server.enqueued := true; Server.stream := "blogs:genre:g1";
                   Server.message_id := "1704067200000-0" |} eq_refl) as (Hcmds & _).
  exact Hcmds.
Defined.

(** A second delivery of the sample record changes the [updated_at] of the
    stored row to that of the delivery and nothing else; the table still
    has one row. *)
Lemma sample_redelivery_is_absorbed :
  Blogs.rows (fst (Blogs.bulk_insert Sample.collation_key false Sample.table
                     [Sample.redelivered] (Returns 2)))
  = [{| Blogs.id := 1;
        Blogs.cols :=
          {| Blogs.client_msg_id := Some Sample.client_msg_id;
             Blogs.author := "a";
             Blogs.created_at := utc_datetime 1704067200000000;
             Blogs.updated_at := utc_datetime 1704067205000000;
             Blogs.genre := "g1"; Blogs.location := "l1"; Blogs.content := "hi" |} |}].
Proof.
  destruct (duplicate_key_updates_only_updated_at Sample.collation_key false
              Sample.table [Sample.redelivered] 2 Sample.redelivered Sample.stored
              0%nat Sample.client_msg_id sample_table_ok eq_refl eq_refl
              (list_elem_of_here _ _) eq_refl)
    as (_ & _ & _ & Hone & _).
  destruct (Hone eq_refl) as (Hrows & _). exact Hrows.
Defined.

(** The sample flush commits, its XACK fails, and the key is reset all the
    same. *)
Lemma sample_flush_resets_despite_failed_ack :
  let o := Worker._flush_key Sample.strftime_utc Sample.worker1 Sample.key
             Worker.Commits (fun _ => Worker.AckFails) in
  Worker.items_of (Worker.after o) Sample.key = []
  /\ Worker.buffer_first_at (Worker.after o) !! Sample.key = None
  /\ Worker.bytes_of (Worker.after o) Sample.key = 0.
Proof.
  destruct (successful_flush_resets_key Sample.strftime_utc Sample.worker1 Sample.key
              Worker.Commits (fun _ => Worker.AckFails)) as (_ & Hreset).
  apply Hreset; [reflexivity|]. left. exact sample_worker1_inv.
Defined.

(** A [limit] of 500 with no [offset] is forwarded as it is. *)
Lemma sample_list_forwards_limit_500 :
  Api.list_blogs None (Some "g1") None (Api.Int 500) Api.Absent Sample.stub_up
  = forwarded (Api.stub_ListBlogs Sample.stub_up
                 {| Server.list_author := ""; Server.list_genre := "g1";
                    Server.list_location := ""; Server.limit := 500;
                    Server.offset := 0 |}).
Proof.
  destruct (list_blogs_refuses_out_of_range None (Some "g1") None (Api.Int 500)
              Api.Absent Sample.stub_up) as (_ & _ & Hfwd).
  destruct (Hfwd 500 0) as (H & _).
  - now left.
  - right. now split.
  - lia.
  - lia.
  - exact H.
Defined.

(** C8, as the specification has it, fails at [limit=501]: the request is
    refused with status 422, it is not answered as the request with the
    clamped limit 500 is, and no query runs. *)
Lemma list_blogs_does_not_clamp_501 :
  Api.list_blogs None None None (Api.Int 501) Api.Absent Sample.stub_up
  = inl (Api.RequestValidationError "limit")
  /\ Api.http_status
       (Api.list_blogs None None None (Api.Int 501) Api.Absent Sample.stub_up) = 422
  /\ Api.list_blogs None None None (Api.Int 501) Api.Absent Sample.stub_up
     <> Api.list_blogs None None None (Api.Int 500) Api.Absent Sample.stub_up.
Proof. split; [reflexivity|]. split; [reflexivity|]. discriminate. Qed.

(** The sample request, valid, while Redis is down: status 400. *)
Lemma sample_ingest_with_redis_down_is_400 :
  Api.create_blog Sample.body false Sample.stub_redis_down
  = inl (Api.HTTPException 400 "Unexpected ConnectionError").
Proof.
  destruct (create_blog_answers_backend_error_with_400 Sample.fromisoformat
              Sample.astimezone_utc Sample.isoformat Sample.not_overridden
              Sample.body Sample.stub_redis_down) as (_ & _ & Hdown & _).
  assert (Hne : forall s : string, s <> "" -> s <> "") by auto.
  apply (Hdown Sample.service Sample.backend_redis_down "ConnectionError");
    first [reflexivity | apply Hne; discriminate].
Defined.

(** An [updated_at_iso] that does not parse is replaced by the clock. *)
Lemma sample_unparsable_timestamp_becomes_now :
  Server._iso_to_dt Sample.fromisoformat Sample.astimezone_utc
    (Some "yesterday") 1704067200000000
  = utc_datetime 1704067200000000.
Proof.
  destruct (UpdateBlog_never_rejects_updated_at Sample.fromisoformat
              Sample.astimezone_utc
              {| Server.id := 1; Server.new_content := "new";
                 Server.updated_at_iso := "yesterday" |}
              1704067200000000 (Returns (Some {[ "updated" := 1 ]})) (Returns ()))
    as (_ & Hnow & _).
  apply Hnow. right. reflexivity.
Defined.

(** The sample request is enqueued when asked for asynchronously, and
    answered with status 400 when asked for synchronously. *)
Lemma sample_sync_create_is_400 :
  Api.create_blog Sample.body true Sample.stub_up
  = inl (Api.HTTPException 400 "Method not implemented!")
  /\ Api.create_blog Sample.body false Sample.stub_up
     = inr [("status", Api.JStr "enqueued"); ("stream", Api.JStr "blogs:genre:g1");
            ("message_id", Api.JStr "1704067200000-0")].
Proof.
  destruct (sync_create_never_succeeds Sample.fromisoformat Sample.astimezone_utc
              Sample.isoformat Sample.not_overridden Sample.body Sample.service
              Sample.backend_up) as (Hsync & _ & _ & Hasync).
  split; [exact Hsync|].
  assert (Hne : forall s : string, s <> "" -> s <> "") by auto.
  apply (Hasync 1 "1704067200000-0");
    first [reflexivity | apply Hne; discriminate].
Defined.

(* ===================================================================== *)
(** * Part IV: further properties of the code                              *)
(* ===================================================================== *)

(** ** Strings: order and substrings *)

Lemma ascii_compare_refl (c : ascii) : Ascii.compare c c = Eq.
Proof. unfold Ascii.compare. apply N.compare_refl. Qed.

Lemma string_compare_refl (s : string) : String.compare s s = Eq.
Proof. induction s as [|c s IH]; cbn; [reflexivity|]. now rewrite ascii_compare_refl. Qed.

Lemma ascii_compare_lt_trans (a b c : ascii) :
  Ascii.compare a b = Lt -> Ascii.compare b c = Lt -> Ascii.compare a c = Lt.
Proof. unfold Ascii.compare. rewrite !N.compare_lt_iff. lia. Qed.

(** [String.compare] is transitive where it is not [Gt]. *)
Lemma string_compare_trans (s1 s2 s3 : string) :
  String.compare s1 s2 <> Gt -> String.compare s2 s3 <> Gt ->
  String.compare s1 s3 <> Gt.
Proof.
  revert s2 s3. induction s1 as [|a s1 IH]; intros [|b s2] [|c s3]; cbn;
    try congruence.
  destruct (Ascii.compare a b) eqn:Eab; try congruence;
    destruct (Ascii.compare b c) eqn:Ebc; try congruence.
  - apply Ascii.compare_eq_iff in Eab, Ebc. subst. rewrite ascii_compare_refl.
    apply IH.
  - apply Ascii.compare_eq_iff in Eab. subst. rewrite Ebc. congruence.
  - apply Ascii.compare_eq_iff in Ebc. subst. rewrite Eab. congruence.
  - rewrite (ascii_compare_lt_trans a b c Eab Ebc). congruence.
Qed.

Lemma str_le_iff (a b : string) : str_le a b <-> String.compare a b <> Gt.
Proof.
  unfold str_le, String.leb. destruct (String.compare a b); split; congruence.
Qed.

#[local] Instance str_le_trans : Transitive str_le.
Proof. intros a b c. rewrite !str_le_iff. apply string_compare_trans. Qed.

#[local] Instance str_le_total : Total str_le.
Proof. intros a b. apply String.leb_total. Qed.

#[local] Instance str_le_antisym : AntiSymm eq str_le.
Proof. intros a b. apply String.leb_antisym. Qed.

(** A common prefix does not change the order. *)
Lemma str_le_prefix (p a b : string) : str_le a b -> str_le (p +:+ a) (p +:+ b).
Proof.
  rewrite !str_le_iff. induction p as [|c p IH]; [trivial|].
  intros H. change (String.compare (String c (p +:+ a)) (String c (p +:+ b)) <> Gt).
  cbn. rewrite ascii_compare_refl. now apply IH.
Qed.

(** What [sorted] returns: the sorted rearrangement of its argument, the
    same for every order the argument comes in. *)
Lemma sorted_spec (l : list string) :
  StronglySorted str_le (sorted l) /\ sorted l ≡ₚ l.
Proof.
  split; [apply StronglySorted_merge_sort; apply _ | apply merge_sort_Permutation].
Qed.

Lemma sorted_Permutation (l l' : list string) : l ≡ₚ l' -> sorted l = sorted l'.
Proof.
  intros H. apply (StronglySorted_unique str_le); try apply sorted_spec.
  destruct (sorted_spec l) as [_ ->], (sorted_spec l') as [_ ->]. exact H.
Qed.

Lemma prefix_spec (p s : string) :
  String.prefix p s = true <-> exists post, s = p +:+ post.
Proof.
  revert p. induction s as [|d s IH]; intros [|c p]; cbn.
  - split; [|reflexivity]. intros _. now exists "".
  - split; [discriminate|]. intros [post H]. discriminate.
  - split; [|reflexivity]. intros _. now exists (String d s).
  - destruct (ascii_dec c d) as [->|Hne].
    + rewrite IH. split; intros [post H]; exists post.
      * now rewrite H.
      * change (String d s = String d (p +:+ post)) in H. now injection H.
    + split; [discriminate|]. intros [post H].
      change (String d s = String c (p +:+ post)) in H. congruence.
Qed.

(** [needle in hay] holds exactly when [hay] is [needle] between two
    strings. *)
Lemma py_in_spec (needle hay : string) :
  py_in needle hay = true <-> exists pre post, hay = pre +:+ needle +:+ post.
Proof.
  induction hay as [|c hay IH]; cbn [py_in]; rewrite orb_true_iff, prefix_spec.
  - split.
    + intros [[post H]|H]; [|discriminate]. now exists "", post.
    + intros ([|? ?] & post & H); [left; now exists post|discriminate].
  - rewrite IH. split.
    + intros [[post H]|(pre & post & H)]; [now exists "", post|].
      exists (String c pre), post. now rewrite H.
    + intros ([|d pre] & post & H); [left; now exists post|].
      right. exists pre, post.
      change (String c hay = String d (pre +:+ needle +:+ post)) in H. now injection H.
Qed.

(** ** The batch consumer: discovery and routing *)

(** X1. [discover_streams] gives the same list for every order in which
    Redis lists the members of [blogs:genres]; the list is sorted, has one
    stream for each member and nothing else, and has no stream twice when
    no member is listed twice. *)
Theorem discover_streams_sorted_and_order_free (genres : list string) :
  exists streams,
    WorkerLoop.discover_streams (Returns genres) = Returns streams
    /\ (forall genres', genres' ≡ₚ genres ->
          WorkerLoop.discover_streams (Returns genres') = Returns streams)
    /\ StronglySorted str_le streams
    /\ length streams = length genres
    /\ (forall s, s ∈ streams <-> exists g, g ∈ genres /\ s = "blogs:genre:" +:+ g)
    /\ (NoDup genres -> NoDup streams).
Proof.
  exists (map Worker.stream_for_genre (sorted genres)).
  destruct (sorted_spec genres) as [Hs Hp].
  split; [reflexivity|]. split; [|split; [|split; [|split]]].
  - intros genres' H. cbn. now rewrite (sorted_Permutation genres' genres H).
  - apply (StronglySorted_fmap _ str_le); [|exact Hs].
    intros a b. apply str_le_prefix.
  - rewrite length_map. now rewrite Hp.
  - intros s. rewrite list_elem_of_In, in_map_iff. split.
    + intros (g & <- & Hg). exists g. split; [|reflexivity].
      rewrite <- Hp. now apply list_elem_of_In.
    + intros (g & Hg & ->). exists g. split; [reflexivity|].
      apply list_elem_of_In. now rewrite Hp.
  - intros Hnd.
    pose proof (String.app_inj "blogs:genre:") as Hinj.
    apply (NoDup_fmap_2 Worker.stream_for_genre). now rewrite Hp.
Qed.

(** X2. The stream [EnqueueBlog] appends to is the stream the worker
    derives from the genre it advertised: after a successful ingest, any
    listing of the registry that has the trimmed genre of the request makes
    [discover_streams] return the stream of the response, and no other
    genre of the registry leads to that stream. *)
Theorem enqueued_stream_is_discovered
    (self : Server.DataService) (request : Server.BlogCreateRequest)
    (uuid4 now_iso : string) (sadd : Reply Z) (xadd : Reply string)
    (resp : Server.BlogEnqueueResponse) (genres : list string) :
  snd (Server.EnqueueBlog self request uuid4 now_iso sadd xadd) = Server.Respond resp ->
  strip (Server.genre request) ∈ genres ->
  exists streams,
    WorkerLoop.discover_streams (Returns genres) = Returns streams
    /\ Server.stream resp ∈ streams
    /\ Server.stream resp = Worker.stream_for_genre (strip (Server.genre request))
    /\ (forall g, g ∈ genres -> Worker.stream_for_genre g = Server.stream resp ->
          g = strip (Server.genre request)).
Proof.
  intros Hresp Hin.
  assert (Hstream : Server.stream resp
                    = Worker.stream_for_genre (strip (Server.genre request))).
  { destruct (decide (strip (Server.author request) = "" \/ Server.content request = ""
                      \/ strip (Server.genre request) = ""
                      \/ strip (Server.location request) = "")) as [Hbad|Hok].
    - now rewrite (EnqueueBlog_rejected self request uuid4 now_iso sadd xadd Hbad) in Hresp.
    - rewrite (EnqueueBlog_accepted self request uuid4 now_iso sadd xadd) in Hresp
        by (intros E; apply Hok; tauto).
      destruct sadd; [destruct xadd|]; cbn in Hresp; try discriminate.
      now injection Hresp as <-. }
  eexists. split; [reflexivity|]. split; [|split; [exact Hstream|]].
  - rewrite Hstream. apply list_elem_of_In, in_map_iff.
    exists (strip (Server.genre request)). split; [reflexivity|].
    apply list_elem_of_In. destruct (sorted_spec genres) as [_ ->]. exact Hin.
  - intros g _ Hg. rewrite Hstream in Hg. now apply String.app_inj in Hg.
Qed.

(** ** The batch consumer: consumer groups *)

Lemma ignored_spec (msg : string) :
  WorkerLoop.ignored msg = true <->
  has_substring "BUSYGROUP" msg \/ has_substring "NOGROUP" msg
  \/ has_substring "exists" (lower msg).
Proof.
  unfold WorkerLoop.ignored, has_substring.
  rewrite !orb_true_iff, !py_in_spec. tauto.
Qed.

Lemma ensure_groups_from_spec (self : Worker.BlogWorker) (streams : list string)
    (reply : nat -> WorkerLoop.GroupReply) (i0 : nat) :
  let tr := fst (WorkerLoop.ensure_groups_from i0 self streams reply) in
  let raised := snd (WorkerLoop.ensure_groups_from i0 self streams reply) in
  exists n,
    group_requests tr = take n streams
    /\ (n <= length streams)%nat
    /\ (forall name g id mk, WorkerLoop.XGROUP_CREATE name g id mk ∈ tr ->
          g = Worker.consumer_group self /\ id = "0" /\ mk = true)
    /\ (raised = false ->
          n = length streams
          /\ forall i exn, (i < n)%nat -> reply (i0 + i)%nat <> WorkerLoop.OtherException exn)
    /\ (raised = true ->
          exists m exn, n = S m /\ reply (i0 + m)%nat = WorkerLoop.OtherException exn
                        /\ forall i exn', (i < m)%nat ->
                             reply (i0 + i)%nat <> WorkerLoop.OtherException exn')
    /\ (forall s msg, WorkerLoop.Warn s msg ∈ tr <->
          exists i, (i < n)%nat /\ streams !! i = Some s
                    /\ reply (i0 + i)%nat = WorkerLoop.ResponseError msg
                    /\ WorkerLoop.ignored msg = false)
    /\ (forall s, WorkerLoop.Info s ∈ tr <->
          exists i, (i < n)%nat /\ streams !! i = Some s
                    /\ reply (i0 + i)%nat = WorkerLoop.GroupCreated).
Proof.
  revert i0. induction streams as [|s streams IH]; intros i0; cbn zeta.
  - exists 0%nat. cbn. split; [reflexivity|]. split; [lia|].
    split; [|split; [|split; [|split]]].
    + intros ? ? ? ? Hin. now apply elem_of_nil in Hin.
    + intros _. split; [reflexivity|]. intros; lia.
    + discriminate.
    + intros s msg. split; [intros Hin; now apply elem_of_nil in Hin|].
      intros (i & Hi & _). lia.
    + intros s. split; [intros Hin; now apply elem_of_nil in Hin|].
      intros (i & Hi & _). lia.
  - cbn [WorkerLoop.ensure_groups_from].
    specialize (IH (S i0)). cbn zeta in IH.
    destruct (WorkerLoop.ensure_groups_from (S i0) self streams reply) as [tr r].
    cbn [fst snd] in IH.
    destruct IH as (n & Hreq & Hn & Hcmd & Hok & Hfail & Hwarn & Hinfo).
    unfold group_requests in *.
    assert (Hshift : forall i, (S i0 + i = i0 + S i)%nat) by (intros; lia).
    destruct (reply i0) as [|msg|exn] eqn:E0.
    + exists (S n). cbn [fst snd]. split; [|split; [|split; [|split; [|split; [|split]]]]].
      * cbn. now rewrite Hreq.
      * cbn. lia.
      * intros name g id mk [Heq|[Heq|Hin]%elem_of_cons]%elem_of_cons;
          [now injection Heq as -> -> -> ->|discriminate|eauto].
      * intros Hr. destruct (Hok Hr) as [-> Hno]. split; [reflexivity|].
        intros [|i] exn Hi; [rewrite Nat.add_0_r, E0; discriminate|].
        rewrite <- Hshift. apply Hno. cbn in Hi. lia.
      * intros Hr. destruct (Hfail Hr) as (m & exn & -> & Hm & Hno).
        exists (S m), exn. split; [reflexivity|]. rewrite <- Hshift. split; [exact Hm|].
        intros [|i] exn' Hi; [rewrite Nat.add_0_r, E0; discriminate|].
        rewrite <- Hshift. apply Hno. lia.
      * intros s' msg. rewrite !elem_of_cons, Hwarn. split.
        -- intros [Heq|[Heq|(i & Hi & Hs & Hr & Hig)]]; try discriminate.
           exists (S i). rewrite <- Hshift. repeat split; auto. lia.
        -- intros ([|i] & Hi & Hs & Hr & Hig).
           ++ rewrite Nat.add_0_r, E0 in Hr. discriminate.
           ++ right. right. exists i. rewrite Hshift. repeat split; auto. lia.
      * intros s'. rewrite !elem_of_cons, Hinfo. split.
        -- intros [Heq|[Heq|(i & Hi & Hs & Hr)]]; try discriminate.
           ++ injection Heq as ->. exists 0%nat. rewrite Nat.add_0_r.
              repeat split; auto. lia.
           ++ exists (S i). rewrite <- Hshift. repeat split; auto. lia.
        -- intros ([|i] & Hi & Hs & Hr).
           ++ cbn in Hs. injection Hs as ->. right. now left.
           ++ right. right. exists i. rewrite Hshift. repeat split; auto. lia.
    + exists (S n).
      assert (Hreq' : omap (fun e => match e with
                                     | WorkerLoop.XGROUP_CREATE name _ _ _ => Some name
                                     | _ => None
                                     end)
                        (fst (if WorkerLoop.ignored msg
                              then (WorkerLoop.XGROUP_CREATE s (Worker.consumer_group self) "0" true :: tr, r)
                              else (WorkerLoop.XGROUP_CREATE s (Worker.consumer_group self) "0" true
                                    :: WorkerLoop.Warn s msg :: tr, r)))
                      = s :: take n streams).
      { destruct (WorkerLoop.ignored msg); cbn; now rewrite Hreq. }
      assert (Hsnd : snd (if WorkerLoop.ignored msg
                          then (WorkerLoop.XGROUP_CREATE s (Worker.consumer_group self) "0" true :: tr, r)
                          else (WorkerLoop.XGROUP_CREATE s (Worker.consumer_group self) "0" true
                                :: WorkerLoop.Warn s msg :: tr, r)) = r).
      { now destruct (WorkerLoop.ignored msg). }
      rewrite Hsnd.
      split; [exact Hreq'|]. split; [cbn; lia|].
      split; [|split; [|split; [|split]]].
      * intros name g id mk Hin.
        assert (Hin' : WorkerLoop.XGROUP_CREATE name g id mk
                       = WorkerLoop.XGROUP_CREATE s (Worker.consumer_group self) "0" true
                       \/ WorkerLoop.XGROUP_CREATE name g id mk ∈ tr).
        { destruct (WorkerLoop.ignored msg); cbn [fst] in Hin;
            rewrite ?elem_of_cons in Hin.
          - tauto.
          - destruct Hin as [Heq|[Heq|Hin]]; [now left|discriminate|now right]. }
        destruct Hin' as [Heq|Hin']; [now injection Heq as -> -> -> ->|eauto].
      * intros Hr. destruct (Hok Hr) as [-> Hno]. split; [reflexivity|].
        intros [|i] exn Hi; [rewrite Nat.add_0_r, E0; discriminate|].
        rewrite <- Hshift. apply Hno. cbn in Hi. lia.
      * intros Hr. destruct (Hfail Hr) as (m & exn & -> & Hm & Hno).
        exists (S m), exn. split; [reflexivity|]. rewrite <- Hshift. split; [exact Hm|].
        intros [|i] exn' Hi; [rewrite Nat.add_0_r, E0; discriminate|].
        rewrite <- Hshift. apply Hno. lia.
      * intros s' msg'. split.
        -- intros Hin. destruct (WorkerLoop.ignored msg) eqn:Eig; cbn [fst] in Hin;
             rewrite ?elem_of_cons in Hin.
           ++ destruct Hin as [Heq|Hin]; [discriminate|].
              apply Hwarn in Hin as (i & Hi & Hs & Hr & Hig).
              exists (S i). rewrite <- Hshift. repeat split; auto. lia.
           ++ destruct Hin as [Heq|[Heq|Hin]]; [discriminate| |].
              ** injection Heq as -> ->. exists 0%nat. rewrite Nat.add_0_r.
                 repeat split; auto. lia.
              ** apply Hwarn in Hin as (i & Hi & Hs & Hr & Hig).
                 exists (S i). rewrite <- Hshift. repeat split; auto. lia.
        -- intros ([|i] & Hi & Hs & Hr & Hig).
           ++ rewrite Nat.add_0_r, E0 in Hr. injection Hr as <-. cbn in Hs.
              injection Hs as <-. rewrite Hig. cbn. right. left.
           ++ assert (Hin : WorkerLoop.Warn s' msg' ∈ tr).
              { apply Hwarn. exists i. rewrite Hshift. repeat split; auto. lia. }
              destruct (WorkerLoop.ignored msg); cbn [fst]; rewrite ?elem_of_cons; auto.
      * intros s'. split.
        -- intros Hin.
           assert (Hin' : WorkerLoop.Info s' ∈ tr).
           { destruct (WorkerLoop.ignored msg); cbn [fst] in Hin;
               rewrite ?elem_of_cons in Hin.
             - destruct Hin as [Heq|Hin]; [discriminate|exact Hin].
             - destruct Hin as [Heq|[Heq|Hin]]; [discriminate|discriminate|exact Hin]. }
           apply Hinfo in Hin' as (i & Hi & Hs & Hr).
           exists (S i). rewrite <- Hshift. repeat split; auto. lia.
        -- intros ([|i] & Hi & Hs & Hr).
           ++ rewrite Nat.add_0_r, E0 in Hr. discriminate.
           ++ assert (Hin : WorkerLoop.Info s' ∈ tr).
              { apply Hinfo. exists i. rewrite Hshift. repeat split; auto. lia. }
              destruct (WorkerLoop.ignored msg); cbn [fst]; rewrite ?elem_of_cons; auto.
    + exists 1%nat. cbn [fst snd]. split; [|split; [|split; [|split; [|split; [|split]]]]].
      * cbn. now rewrite take_0.
      * cbn. lia.
      * intros name g id mk Hin. apply list_elem_of_singleton in Hin.
        now injection Hin as -> -> -> ->.
      * discriminate.
      * intros _. exists 0%nat, exn. rewrite Nat.add_0_r. split; [reflexivity|].
        split; [exact E0|]. intros; lia.
      * intros s' msg. rewrite list_elem_of_singleton. split; [discriminate|].
        intros ([|i] & Hi & _ & Hr & _); [|lia].
        rewrite Nat.add_0_r, E0 in Hr. discriminate.
      * intros s'. rewrite list_elem_of_singleton. split; [discriminate|].
        intros ([|i] & Hi & _ & Hr); [|lia].
        rewrite Nat.add_0_r, E0 in Hr. discriminate.
Qed.

(** X3. [ensure_groups] asks for the group of the worker, from id 0 and
    creating the stream, on the streams in order, one request for each. A
    [ResponseError] never stops it: it is logged as a warning unless its
    message has BUSYGROUP or NOGROUP in it, or "exists" in any letter case.
    Any other exception leaves the function at once, with the streams
    after that one not asked for. *)
Theorem ensure_groups_tolerates_response_errors
    (self : Worker.BlogWorker) (streams : list string)
    (reply : nat -> WorkerLoop.GroupReply) :
  let tr := fst (WorkerLoop.ensure_groups self streams reply) in
  let raised := snd (WorkerLoop.ensure_groups self streams reply) in
  exists n,
    group_requests tr = take n streams
    /\ (forall name g id mk, WorkerLoop.XGROUP_CREATE name g id mk ∈ tr ->
          g = Worker.consumer_group self /\ id = "0" /\ mk = true)
    /\ (raised = false ->
          n = length streams
          /\ forall i exn, (i < n)%nat -> reply i <> WorkerLoop.OtherException exn)
    /\ (raised = true ->
          exists m exn, n = S m /\ (m < length streams)%nat
                        /\ reply m = WorkerLoop.OtherException exn
                        /\ forall i exn', (i < m)%nat ->
                             reply i <> WorkerLoop.OtherException exn')
    /\ (forall s msg, WorkerLoop.Warn s msg ∈ tr <->
          exists i, (i < n)%nat /\ streams !! i = Some s
                    /\ reply i = WorkerLoop.ResponseError msg
                    /\ ~ (has_substring "BUSYGROUP" msg \/ has_substring "NOGROUP" msg
                          \/ has_substring "exists" (lower msg))).
Proof.
  intros tr raised. subst tr raised. unfold WorkerLoop.ensure_groups.
  destruct (ensure_groups_from_spec self streams reply 0)
    as (n & Hreq & Hn & Hcmd & Hok & Hfail & Hwarn & _).
  exists n. split; [exact Hreq|]. split; [exact Hcmd|].
  split; [exact Hok|]. split.
  - intros Hr. destruct (Hfail Hr) as (m & exn & -> & Hm & Hno).
    exists m, exn. split; [reflexivity|]. split; [lia|]. split; [exact Hm|exact Hno].
  - intros s msg. rewrite Hwarn. split; intros (i & Hi & Hs & Hr & Hig);
      exists i; repeat split; auto.
    + rewrite <- ignored_spec. now rewrite Hig.
    + rewrite <- ignored_spec in Hig. now destruct (WorkerLoop.ignored msg).
Qed.

(** ** The batch consumer: what a flush sends *)

Section FlushPayload.

Import Worker.

Variable strftime_utc : datetime -> Reply string.

Lemma rows_json_list_Returns (items : list BufferedItem) (rows : list RowJson) :
  rows_json_list strftime_utc items = Returns rows ->
  Forall2 (payload_of strftime_utc) items rows.
Proof.
  revert rows. induction items as [|bi items IH]; intros rows; cbn.
  - intros [= <-]. constructor.
  - destruct (strftime_utc (Blogs.created_at (row bi))) as [c|] eqn:Ec; [|discriminate].
    destruct (strftime_utc (Blogs.updated_at (row bi))) as [u|] eqn:Eu; [|discriminate].
    destruct (rows_json_list strftime_utc items) as [l|]; [|discriminate].
    intros [= <-]. constructor; [|now apply IH].
    unfold payload_of. cbn. repeat split; auto.
Qed.

Lemma rows_json_list_Raises (items : list BufferedItem) :
  (exists e, rows_json_list strftime_utc items = Raises e) <->
  exists bi e, bi ∈ items
               /\ (strftime_utc (Blogs.created_at (row bi)) = Raises e
                   \/ strftime_utc (Blogs.updated_at (row bi)) = Raises e).
Proof.
  induction items as [|bi items IH]; cbn.
  - split; [intros [e H]; discriminate|]. intros (bi & e & H & _).
    now apply elem_of_nil in H.
  - destruct (strftime_utc (Blogs.created_at (row bi))) as [c|e1] eqn:Ec.
    + destruct (strftime_utc (Blogs.updated_at (row bi))) as [u|e2] eqn:Eu.
      * destruct (rows_json_list strftime_utc items) as [l|e3].
        -- split; [intros [e H]; discriminate|].
           intros (bi' & e & [->|Hin]%elem_of_cons & H).
           ++ destruct H; congruence.
           ++ destruct IH as [_ IH]. destruct IH as [e' He']; [eauto|discriminate].
        -- split; [|eauto]. intros _.
           destruct IH as [IH _]. destruct IH as (bi' & e & Hin & H); [eauto|].
           exists bi', e. split; [now right|exact H].
      * split; [|eauto]. intros _. exists bi, e2. split; [left|now right].
    + split; [|eauto]. intros _. exists bi, e1. split; [left|now left].
Qed.

(** [append_mid] on a dictionary: the list of [stream] gets [mid] at its
    end, or is created with it; the other lists stay. *)
Lemma append_mid_fst (d : list (string * list string)) (stream mid s : string) :
  s ∈ map fst (append_mid d stream mid) <-> s ∈ map fst d \/ s = stream.
Proof.
  induction d as [|[s0 mids0] d IH]; cbn.
  - rewrite list_elem_of_singleton, elem_of_nil. tauto.
  - destruct (String.eqb_spec s0 stream) as [->|Hne]; cbn.
    + rewrite !elem_of_cons. tauto.
    + rewrite !elem_of_cons, IH. tauto.
Qed.

Lemma append_mid_NoDup (d : list (string * list string)) (stream mid : string) :
  NoDup (map fst d) -> NoDup (map fst (append_mid d stream mid)).
Proof.
  induction d as [|[s0 mids0] d IH]; cbn.
  - intros _. apply NoDup_singleton.
  - intros [Hnotin Hnd]%NoDup_cons.
    destruct (String.eqb_spec s0 stream) as [->|Hne]; cbn.
    + apply NoDup_cons. auto.
    + apply NoDup_cons. split; [|auto].
      rewrite append_mid_fst. intros [H| ->]; [contradiction|congruence].
Qed.

Lemma append_mid_elem_of (d : list (string * list string)) (stream mid s : string)
    (mids : list string) :
  NoDup (map fst d) ->
  (s, mids) ∈ append_mid d stream mid <->
  (s <> stream /\ (s, mids) ∈ d)
  \/ (s = stream
      /\ ((exists mids0, (stream, mids0) ∈ d /\ mids = mids0 ++ [mid])
          \/ ((stream ∉ map fst d) /\ mids = [mid]))).
Proof.
  induction d as [|[s0 mids0] d IH]; cbn.
  - intros _. rewrite list_elem_of_singleton. split.
    + intros [= -> ->]. right. split; [reflexivity|]. right. split; [|reflexivity].
      apply not_elem_of_nil.
    + intros [[_ H]|[-> [(m & H & _)|[_ ->]]]]; try (now apply elem_of_nil in H).
      reflexivity.
  - intros [Hnotin Hnd]%NoDup_cons. specialize (IH Hnd).
    assert (Hfst : forall m, (s0, m) ∈ d -> False).
    { intros m Hm. apply Hnotin. apply list_elem_of_In, in_map_iff.
      exists (s0, m). split; [reflexivity|]. now apply list_elem_of_In. }
    destruct (String.eqb_spec s0 stream) as [->|Hne].
    + rewrite !elem_of_cons. split.
      * intros [[= -> ->]|Hin].
        -- right. split; [reflexivity|]. left. exists mids0. split; [now left|reflexivity].
        -- left. split; [|now right]. intros ->. eapply Hfst, Hin.
      * intros [[Hs [Heq|Hin]]|[Hs [(m & [Heq|Hin]%elem_of_cons & Hm)|[Hn _]]]].
        -- congruence.
        -- now right.
        -- left. congruence.
        -- exfalso. eapply Hfst, Hin.
        -- exfalso. apply Hn. cbn. apply elem_of_cons. now left.
    + rewrite !elem_of_cons, IH. split.
      * intros [[= -> ->]|[[Hs Hin]|[-> [(m & Hin & ->)|[Hn ->]]]]].
        -- left. split; [exact Hne|now left].
        -- left. split; [exact Hs|now right].
        -- right. split; [reflexivity|]. left. exists m. split; [now right|reflexivity].
        -- right. split; [reflexivity|]. right. split; [|reflexivity].
           intros [Heq|Hin]; [congruence|exact (Hn Hin)].
      * intros [[Hs [Heq|Hin]]|[Hs [(m & [Heq|Hin]%elem_of_cons & Hm)|[Hn Hm]]]].
        -- now left.
        -- right. left. now split.
        -- congruence.
        -- right. right. split; [exact Hs|]. left. eauto.
        -- right. right. split; [exact Hs|]. right. split; [|exact Hm].
           intros Hin. apply Hn. now right.
Qed.

Lemma ids_from_snoc (s : string) (items : list BufferedItem) (bi : BufferedItem) :
  ids_from s (items ++ [bi])
  = ids_from s items ++ (if String.eqb (redis_stream bi) s then [redis_message_id bi] else []).
Proof.
  unfold ids_from. rewrite List.filter_app, map_app. cbn.
  now destruct (String.eqb (redis_stream bi) s).
Qed.

Lemma ids_from_nonempty (s : string) (items : list BufferedItem) :
  ids_from s items <> [] <-> exists bi, bi ∈ items /\ redis_stream bi = s.
Proof.
  unfold ids_from. induction items as [|bi items IH]; cbn.
  - split; [congruence|]. intros (bi & H & _). now apply elem_of_nil in H.
  - destruct (String.eqb_spec (redis_stream bi) s) as [E|E]; cbn.
    + split; [|discriminate]. intros _. exists bi. split; [left|exact E].
    + rewrite IH. split; intros (bi' & Hin & Hs).
      * exists bi'. split; [now right|exact Hs].
      * apply elem_of_cons in Hin as [->|Hin]; [congruence|eauto].
Qed.

(** [stream_to_mids] has one entry for each stream that an item came from,
    with the entry ids of the items of that stream, in their order. *)
Lemma stream_to_mids_spec (items : list BufferedItem) :
  NoDup (map fst (stream_to_mids items))
  /\ forall s mids, (s, mids) ∈ stream_to_mids items <->
                    mids = ids_from s items /\ mids <> [].
Proof.
  unfold stream_to_mids. induction items as [|bi items IH] using rev_ind.
  - cbn. split; [constructor|]. intros s mids. rewrite elem_of_nil.
    split; [tauto|]. intros [-> H]. now apply H.
  - rewrite fold_left_app. cbn [fold_left]. destruct IH as [Hnd IH].
    set (d := fold_left _ items []) in *.
    split; [now apply append_mid_NoDup|].
    intros s mids. rewrite append_mid_elem_of by exact Hnd.
    rewrite ids_from_snoc.
    assert (Hfst : redis_stream bi ∈ map fst d <-> ids_from (redis_stream bi) items <> []).
    { split.
      - intros ([s' m] & Heq & Hin)%list_elem_of_In%in_map_iff. cbn in Heq. subst s'.
        apply list_elem_of_In, IH in Hin as [-> Hne]. exact Hne.
      - intros Hne. apply list_elem_of_In, in_map_iff.
        exists (redis_stream bi, ids_from (redis_stream bi) items).
        split; [reflexivity|]. apply list_elem_of_In, IH. auto. }
    destruct (String.eqb_spec (redis_stream bi) s) as [E|E].
    + subst s. split.
      * intros [[Hs _]|[_ [(m & Hin & ->)|[Hn ->]]]]; [congruence| |].
        -- apply IH in Hin as [-> _]. split; [reflexivity|].
           intros H. now apply app_nil_r_inv in H.
        -- split; [|discriminate].
           destruct (ids_from (redis_stream bi) items) eqn:Ei; [reflexivity|].
           exfalso. apply Hn, Hfst. discriminate.
      * intros [-> _]. right. split; [reflexivity|].
        destruct (decide (ids_from (redis_stream bi) items = [])) as [Ei|Ei].
        -- right. rewrite Ei. split; [|reflexivity]. rewrite Hfst. tauto.
        -- left. exists (ids_from (redis_stream bi) items). split; [|reflexivity].
           apply IH. auto.
    + rewrite app_nil_r, IH. split.
      * intros [[_ H]|[-> _]]; [exact H|congruence].
      * intros H. left. split; [congruence|exact H].
Qed.

(** X4. The payload a flush hands to [sp_bulk_insert_blogs] has one row for
    each buffered item of the key, in the order of the buffer, with the
    fields of the item, its two timestamps formatted and the empty string
    for a missing [client_msg_id]. A flush of a non-empty buffer reaches
    the database unless a timestamp cannot be formatted or no connection
    is to be had. *)
Theorem flush_payload_follows_the_buffer (w : BlogWorker) (key : Key)
    (tx : TxOutcome) (bus : string -> AckOutcome) :
  let o := _flush_key strftime_utc w key tx bus in
  (forall i rows, trace o !! i = Some (Db (CALL_sp_bulk_insert_blogs rows)) ->
     i = 1%nat
     /\ Forall2 (payload_of strftime_utc) (items_of w key) rows
     /\ length rows = length (items_of w key))
  /\ (items_of w key <> [] ->
        (trace o = [] <->
           tx = ConnectFails
           \/ exists bi e, bi ∈ items_of w key
                /\ (strftime_utc (Blogs.created_at (row bi)) = Raises e
                    \/ strftime_utc (Blogs.updated_at (row bi)) = Raises e))).
Proof.
  intros o. subst o.
  destruct (flush_key_case strftime_utc w key tx bus)
    as [He|e Hne Hr|rj Hne Hr Htx|rj Hne Hr Htx|rj Hne Hr Htx]; cbn [trace].
  - split; [|contradiction]. intros i rows Hi. now rewrite lookup_nil in Hi.
  - split; [intros i rows Hi; now rewrite lookup_nil in Hi|].
    intros _. split; [|reflexivity]. intros _. right.
    apply rows_json_list_Raises. eauto.
  - split; [intros i rows Hi; now rewrite lookup_nil in Hi|].
    intros _. split; [|reflexivity]. intros _. now left.
  - split.
    + intros [|[|[|i]]] rows; cbn; try discriminate. intros [= <-].
      pose proof (rows_json_list_Returns _ _ Hr) as HF.
      split; [reflexivity|]. split; [exact HF|]. symmetry. now apply Forall2_length in HF.
    + intros _. split; [discriminate|]. intros [->|Hex]; [destruct Htx; discriminate|].
      apply rows_json_list_Raises in Hex as [e He]. congruence.
  - split.
    + intros [|[|[|i]]] rows; cbn; try discriminate.
      * intros [= <-]. pose proof (rows_json_list_Returns _ _ Hr) as HF.
        split; [reflexivity|]. split; [exact HF|]. symmetry. now apply Forall2_length in HF.
      * intros Hi. exfalso.
        apply list_elem_of_lookup_2, list_elem_of_In, in_concat in Hi as (l & Hl & Hc).
        apply in_map_iff in Hl as ([stream mids] & <- & _).
        apply list_elem_of_In, ack_stream_events in Hc as [Hc|[Hc|Hc]]; discriminate.
    + intros _. split; [discriminate|]. intros [->|Hex]; [discriminate|].
      apply rows_json_list_Raises in Hex as [e He]. congruence.
Qed.

(** X5. A flush that commits acknowledges every buffered item: for each
    stream an item of the key came from, its trace has an XACK for the
    group of the worker that names exactly the entry ids of the items from
    that stream, in their order, and the XDEL of the same ids unless the
    XACK raised; and it has no other XACK or XDEL. *)
Theorem committed_flush_acknowledges_every_item (w : BlogWorker) (key : Key)
    (bus : string -> AckOutcome) (rows : list RowJson) :
  items_of w key <> [] ->
  rows_json_list strftime_utc (items_of w key) = Returns rows ->
  let o := _flush_key strftime_utc w key Commits bus in
  (forall bi, bi ∈ items_of w key ->
     let stream := redis_stream bi in
     redis_message_id bi ∈ ids_from stream (items_of w key)
     /\ Bus (XACK stream (consumer_group w) (ids_from stream (items_of w key))) ∈ trace o
     /\ (Bus (XDEL stream (ids_from stream (items_of w key))) ∈ trace o
         <-> bus stream <> AckFails))
  /\ (forall c, Bus c ∈ trace o ->
        exists stream,
          ids_from stream (items_of w key) <> []
          /\ (c = XACK stream (consumer_group w) (ids_from stream (items_of w key))
              \/ (c = XDEL stream (ids_from stream (items_of w key))
                  /\ bus stream <> AckFails))).
Proof.
  intros Hne Hr o. subst o. unfold _flush_key.
  destruct (items_of w key) as [|bi0 items0] eqn:E; [contradiction|].
  rewrite <- E in *. rewrite Hr. cbn [trace].
  destruct (stream_to_mids_spec (items_of w key)) as [_ Hspec].
  assert (Hin_trace : forall e,
            e ∈ [Db BEGIN; Db (CALL_sp_bulk_insert_blogs rows); Db COMMIT]
                ++ concat (map (ack_stream (consumer_group w) bus)
                             (stream_to_mids (items_of w key))) ->
            forall c, e = Bus c ->
            exists stream, ids_from stream (items_of w key) <> []
              /\ e ∈ ack_stream (consumer_group w) bus
                       (stream, ids_from stream (items_of w key))).
  { intros e He c Hc. subst e. apply elem_of_app in He as [He|He].
    - rewrite !elem_of_cons, elem_of_nil in He.
      destruct He as [He|[He|[He|[]]]]; discriminate.
    - apply list_elem_of_In, in_concat in He as (l & Hl & Hc).
      apply in_map_iff in Hl as ([stream mids] & <- & Hsm).
      apply list_elem_of_In, Hspec in Hsm as [-> Hmids].
      exists stream. split; [exact Hmids|]. now apply list_elem_of_In. }
  assert (Hfrom_ack : forall stream e,
            ids_from stream (items_of w key) <> [] ->
            e ∈ ack_stream (consumer_group w) bus
                  (stream, ids_from stream (items_of w key)) ->
            e ∈ [Db BEGIN; Db (CALL_sp_bulk_insert_blogs rows); Db COMMIT]
                ++ concat (map (ack_stream (consumer_group w) bus)
                             (stream_to_mids (items_of w key)))).
  { intros stream e Hmids He. apply elem_of_app. right.
    apply list_elem_of_In, in_concat.
    exists (ack_stream (consumer_group w) bus (stream, ids_from stream (items_of w key))).
    split; [|now apply list_elem_of_In].
    apply in_map_iff. eexists. split; [reflexivity|].
    apply list_elem_of_In, Hspec. auto. }
  split.
  - intros bi Hbi. set (stream := redis_stream bi).
    assert (Hmids : ids_from stream (items_of w key) <> []).
    { apply ids_from_nonempty. eauto. }
    split; [|split].
    + unfold ids_from. apply list_elem_of_In, in_map_iff. exists bi.
      split; [reflexivity|]. apply filter_In. split; [now apply list_elem_of_In|].
      apply String.eqb_refl.
    + apply (Hfrom_ack stream); [exact Hmids|]. unfold ack_stream.
      destruct (bus stream); left.
    + split.
      * intros Hin. destruct (Hin_trace _ Hin _ eq_refl) as (s' & _ & Hack).
        unfold ack_stream in Hack. intros Hb.
        destruct (bus s') eqn:Eb; rewrite !elem_of_cons, elem_of_nil in Hack;
          destruct Hack as [Hx|[Hx|Hx]]; try discriminate; try tauto;
          try (destruct Hx as [Hx|Hx]; try discriminate; try tauto);
          injection Hx as -> _; congruence.
      * intros Hb. apply (Hfrom_ack stream); [exact Hmids|]. unfold ack_stream.
        destruct (bus stream); [contradiction| |]; right; left.
  - intros c Hc. destruct (Hin_trace _ Hc _ eq_refl) as (stream & Hmids & Hack).
    exists stream. split; [exact Hmids|].
    unfold ack_stream in Hack.
    destruct (bus stream) eqn:Eb; rewrite !elem_of_cons, elem_of_nil in Hack.
    + destruct Hack as [[= ->]|[Hx|[]]]; [now left|discriminate].
    + destruct Hack as [[= ->]|[[= ->]|[Hx|[]]]]; [now left| |discriminate].
      right. split; [reflexivity|discriminate].
    + destruct Hack as [[= ->]|[[= ->]|[]]]; [now left|].
      right. split; [reflexivity|discriminate].
Qed.

End FlushPayload.

(** ** The batch consumer: buffering a reply *)

Section Buffering.

Import Worker.

Variable fromisoformat : string -> option datetime.

Lemma add_to_buffer_item (w : BlogWorker) (stream mid : string)
    (fields : gmap string string) (t1 t2 : Z) :
  items_of (_add_to_buffer fromisoformat w stream mid fields t1 t2) (message_key fields)
  = items_of w (message_key fields) ++ [item_of fromisoformat stream mid fields t1 t2].
Proof.
  unfold _add_to_buffer. fold (message_key fields).
  pose proof (buffers_getitem_items w (message_key fields)) as Hi.
  destruct (buffers_getitem w (message_key fields)) as [items w1]. cbn in Hi. subst items.
  unfold items_of at 1. cbn. rewrite lookup_insert_eq. reflexivity.
Qed.

Lemma approx_bytes_item_of (stream mid : string) (fields : gmap string string) (t1 t2 : Z) :
  approx_bytes (item_of fromisoformat stream mid fields t1 t2) = message_cost fields.
Proof. reflexivity. Qed.

(** One step of the loop of [run] over the messages. *)
Lemma buffer_messages_flat (w : BlogWorker)
    (resp : list (string * list (string * gmap string string)))
    (clock : string -> string -> Z * Z) :
  buffer_messages fromisoformat w resp clock
  = fold_left
      (fun w m => _add_to_buffer fromisoformat w m.1.1 m.1.2 m.2
                    (clock m.1.1 m.1.2).1 (clock m.1.1 m.1.2).2)
      (messages_of resp) w.
Proof.
  unfold buffer_messages, messages_of. revert w.
  induction resp as [|[stream messages] resp IH]; intros w; cbn; [reflexivity|].
  rewrite fold_left_app, IH. f_equal. clear IH. revert w.
  induction messages as [|[mid fields] messages IH]; intros w; cbn; [reflexivity|].
  rewrite IH. now destruct (clock stream mid).
Qed.

(** X6. Buffering a reply of [xreadgroup] files every message under the
    key of its genre and location and keeps the order of arrival: the
    buffer of a key afterwards is its buffer before followed by the items
    of the messages of that key, in the order of the reply; its byte
    accumulator has grown by their cost; and its first-insert timestamp is
    the one it had or, if it had none, the clock of the first such
    message. *)
Theorem buffering_keeps_arrival_order (w : BlogWorker)
    (resp : list (string * list (string * gmap string string)))
    (clock : string -> string -> Z * Z) (k : Key) :
  let w' := buffer_messages fromisoformat w resp clock in
  let new := arrivals fromisoformat clock k (messages_of resp) in
  items_of w' k = items_of w k ++ new
  /\ bytes_of w' k = bytes_of w k + total_bytes new
  /\ buffer_first_at w' !! k
     = match buffer_first_at w !! k with
       | Some t => Some t
       | None => (fun bi => dt_micros (Blogs.updated_at (row bi))) <$> head new
       end.
Proof.
  cbn zeta. rewrite buffer_messages_flat. generalize (messages_of resp) as msgs.
  intros msgs. revert w. induction msgs as [|[[stream mid] fields] msgs IH]; intros w.
  - cbn. rewrite app_nil_r. split; [reflexivity|]. split; [lia|].
    now destruct (buffer_first_at w !! k).
  - cbn [fold_left]. cbn [fst snd].
    set (w1 := _add_to_buffer fromisoformat w stream mid fields
                 (clock stream mid).1 (clock stream mid).2).
    destruct (IH w1) as (Hi & Hb & Hf). rewrite Hi, Hb, Hf. clear IH Hi Hb Hf.
    pose proof (add_to_buffer_spec fromisoformat w stream mid fields
                  (clock stream mid).1 (clock stream mid).2) as Hs.
    cbn zeta in Hs. fold w1 in Hs.
    destruct Hs as (_ & Hi' & Hb & Hb' & Hf & Hf' & _).
    unfold arrivals. cbn [List.filter]. cbn [fst snd].
    destruct (decide (message_key fields = k)) as [<-|Hne].
    + rewrite bool_decide_eq_true_2 by reflexivity. cbn [map head fmap option_fmap option_map].
      unfold w1 at 1. rewrite add_to_buffer_item, Hb, Hf.
      rewrite <- app_assoc. split; [reflexivity|]. split.
      * change (total_bytes (?x :: ?l)) with (approx_bytes x + total_bytes l).
        rewrite approx_bytes_item_of. cbn [fst snd]. lia.
      * destruct (buffer_first_at w !! message_key fields); reflexivity.
    + rewrite bool_decide_eq_false_2 by exact Hne.
      rewrite Hi', Hb', Hf' by congruence. auto.
Qed.

End Buffering.

(** ** The batch consumer: nothing buffered is lost *)

Section NoLoss.

Import Worker.

Variable fromisoformat : string -> option datetime.
Variable strftime_utc : datetime -> Reply string.

Lemma committed_app_l (pre tr : list Event) (items : list BufferedItem) :
  committed strftime_utc tr items -> committed strftime_utc (pre ++ tr) items.
Proof.
  intros (rows & p & q & Hr & ->). exists rows, (pre ++ p), q.
  split; [exact Hr|]. now rewrite <- !app_assoc.
Qed.

Lemma committed_app_r (tr post : list Event) (items : list BufferedItem) :
  committed strftime_utc tr items -> committed strftime_utc (tr ++ post) items.
Proof.
  intros (rows & p & q & Hr & ->). exists rows, p, (q ++ post).
  split; [exact Hr|]. now rewrite <- !app_assoc.
Qed.

(** A flush leaves the buffer of every key as it is, or empties it after a
    committed insert of all of it. *)
Lemma flush_key_keeps_or_commits (w : BlogWorker) (key k : Key)
    (tx : TxOutcome) (bus : string -> AckOutcome) :
  let o := _flush_key strftime_utc w key tx bus in
  items_of (after o) k = items_of w k
  \/ (items_of (after o) k = [] /\ committed strftime_utc (trace o) (items_of w k)).
Proof.
  cbn zeta. destruct (flush_key_case strftime_utc w key tx bus)
    as [He|e Hne Hr|rj Hne Hr Htx|rj Hne Hr Htx|rj Hne Hr Htx]; cbn [after trace]; auto.
  pose proof (reset_buffer_spec w key) as Hs. cbn zeta in Hs.
  destruct Hs as (Hi & _ & _ & Hother & _).
  destruct (decide (k = key)) as [->|Hk].
  - right. split; [exact Hi|]. exists rj, [], (concat
      (map (ack_stream (consumer_group w) bus) (stream_to_mids (items_of w key)))).
    split; [exact Hr|reflexivity].
  - left. now apply Hother.
Qed.

Lemma flush_keys_keeps_or_commits (w : BlogWorker) (keys : list Key) (k : Key)
    (tx : Key -> TxOutcome) (bus : Key -> string -> AckOutcome) :
  let o := flush_keys strftime_utc w keys tx bus in
  items_of (after o) k = items_of w k
  \/ (items_of (after o) k = [] /\ committed strftime_utc (trace o) (items_of w k)).
Proof.
  cbn zeta. revert w. induction keys as [|key keys IH]; intros w; cbn; [now left|].
  pose proof (flush_key_keeps_or_commits w key k (tx key) (bus key)) as H1. cbn zeta in H1.
  destruct (raised (_flush_key strftime_utc w key (tx key) (bus key))); [exact H1|].
  cbn [after trace]. specialize (IH (after (_flush_key strftime_utc w key (tx key) (bus key)))).
  destruct H1 as [H1|[H1 Hc]].
  - rewrite H1 in IH. destruct IH as [IH|[IH Hc]]; [now left|]. right.
    split; [exact IH|]. now apply committed_app_l.
  - right. split.
    + destruct IH as [IH|[IH _]]; congruence.
    + now apply committed_app_r.
Qed.

(** Buffering only adds to the buffers. *)
Lemma fold_add_extends (msgs : list (string * string * gmap string string))
    (clock : string -> string -> Z * Z) (w : BlogWorker) (k : Key) :
  exists new,
    items_of (fold_left
                (fun w m => _add_to_buffer fromisoformat w m.1.1 m.1.2 m.2
                              (clock m.1.1 m.1.2).1 (clock m.1.1 m.1.2).2)
                msgs w) k
    = items_of w k ++ new
    /\ forall m, m ∈ msgs -> message_key m.2 = k ->
         item_of fromisoformat m.1.1 m.1.2 m.2 (clock m.1.1 m.1.2).1 (clock m.1.1 m.1.2).2
         ∈ new.
Proof.
  revert w. induction msgs as [|[[stream mid] fields] msgs IH]; intros w; cbn [fold_left].
  - exists []. rewrite app_nil_r. split; [reflexivity|]. intros m Hm.
    now apply elem_of_nil in Hm.
  - cbn [fst snd].
    destruct (IH (_add_to_buffer fromisoformat w stream mid fields
                    (clock stream mid).1 (clock stream mid).2)) as (new & Hnew & Hin).
    destruct (decide (message_key fields = k)) as [<-|Hne].
    + rewrite add_to_buffer_item, <- app_assoc in Hnew. eexists. split; [exact Hnew|].
      intros m [->|Hm]%elem_of_cons Hk; [left|]. right. now apply Hin.
    + destruct (add_to_buffer_spec fromisoformat w stream mid fields
                  (clock stream mid).1 (clock stream mid).2) as (_ & Hother & _).
      rewrite Hother in Hnew by congruence. exists new. split; [exact Hnew|].
      intros m [->|Hm]%elem_of_cons Hk; [contradiction|]. now apply Hin.
Qed.

(** From the reply of [xreadgroup] to the end of the iteration. *)
Lemma run_after_read_keeps_or_commits (w : BlogWorker)
    (resp : list (string * list (string * gmap string string)))
    (clock : string -> string -> Z * Z) (now_at : Key -> Z)
    (tx : Key -> TxOutcome) (bus : Key -> string -> AckOutcome) (k : Key) :
  let o := run_after_read fromisoformat strftime_utc w resp clock now_at tx bus in
  exists new,
    (forall m, m ∈ messages_of resp -> message_key m.2 = k ->
       item_of fromisoformat m.1.1 m.1.2 m.2 (clock m.1.1 m.1.2).1 (clock m.1.1 m.1.2).2
       ∈ new)
    /\ (items_of (after o) k = items_of w k ++ new
        \/ (items_of (after o) k = []
            /\ committed strftime_utc (trace o) (items_of w k ++ new))).
Proof.
  cbn zeta. unfold run_after_read. rewrite buffer_messages_flat.
  destruct (fold_add_extends (messages_of resp) clock w k) as (new & Hnew & Hin).
  set (w1 := fold_left _ (messages_of resp) w) in *.
  unfold keys_to_flush.
  pose proof (select_keys_spec w1 (buffers_keys w1) now_at) as Hs. cbn zeta in Hs.
  destruct (select_keys w1 (buffers_keys w1) now_at) as [keys w2]. cbn in Hs.
  destruct Hs as (Hsame & _). destruct (Hsame k) as (Hi & _).
  exists new. split; [exact Hin|]. rewrite <- Hnew, <- Hi.
  apply flush_keys_keeps_or_commits.
Qed.

Lemma flush_events_map_Flush (tr : list Event) :
  WorkerLoop.flush_events (map WorkerLoop.Flush tr) = tr.
Proof. induction tr as [|e tr IH]; cbn; [reflexivity|]. now f_equal. Qed.

Lemma flush_events_map_Group (tr : list WorkerLoop.GroupEvent) :
  WorkerLoop.flush_events (map WorkerLoop.Group tr) = [].
Proof. induction tr as [|e tr IH]; cbn; [reflexivity|exact IH]. Qed.

Lemma flush_events_app (a b : list WorkerLoop.LoopEvent) :
  WorkerLoop.flush_events (a ++ b) = WorkerLoop.flush_events a ++ WorkerLoop.flush_events b.
Proof. apply omap_app. Qed.

Lemma flush_events_iteration (name g c : string) (groups : list WorkerLoop.GroupEvent)
    (streams : list (string * string)) (n b : Z) (tr : list Event)
    (rest : list WorkerLoop.LoopEvent) :
  WorkerLoop.flush_events
    ((WorkerLoop.SMEMBERS name :: map WorkerLoop.Group groups)
       ++ WorkerLoop.XREADGROUP g c streams n b :: map WorkerLoop.Flush tr ++ rest)
  = tr ++ WorkerLoop.flush_events rest.
Proof.
  rewrite flush_events_app.
  change (WorkerLoop.flush_events (WorkerLoop.SMEMBERS name :: map WorkerLoop.Group groups))
    with (WorkerLoop.flush_events (map WorkerLoop.Group groups)).
  rewrite flush_events_map_Group. cbn [app].
  change (WorkerLoop.flush_events
            (WorkerLoop.XREADGROUP g c streams n b :: map WorkerLoop.Flush tr ++ rest))
    with (WorkerLoop.flush_events (map WorkerLoop.Flush tr ++ rest)).
  now rewrite flush_events_app, flush_events_map_Flush.
Qed.

Lemma has_read_elim (tr : list WorkerLoop.LoopEvent) :
  has_read tr -> exists e, e ∈ tr /\ match e with WorkerLoop.XREADGROUP _ _ _ _ _ => True | _ => False end.
Proof. intros (g & c & s & n & b & H). eexists. split; [exact H|exact I]. Qed.

(** One iteration of [run]. *)
Lemma run_iteration_keeps_or_commits (self : BlogWorker) (world : WorkerLoop.World) (k : Key) :
  let tr := fst (WorkerLoop.run_iteration fromisoformat strftime_utc self world) in
  let final := snd (WorkerLoop.run_iteration fromisoformat strftime_utc self world) in
  exists new,
    (forall resp m, WorkerLoop.xreadgroup world = Returns resp -> has_read tr ->
       m ∈ messages_of resp -> message_key m.2 = k ->
       item_of fromisoformat m.1.1 m.1.2 m.2
         (WorkerLoop.clock world m.1.1 m.1.2).1 (WorkerLoop.clock world m.1.1 m.1.2).2
       ∈ new)
    /\ (items_of final k = items_of self k ++ new
        \/ (items_of final k = []
            /\ committed strftime_utc (WorkerLoop.flush_events tr) (items_of self k ++ new))).
Proof.
  cbn zeta. unfold WorkerLoop.run_iteration.
  assert (Hno : forall tr : list WorkerLoop.LoopEvent,
            (forall e, e ∈ tr -> match e with
                                 | WorkerLoop.XREADGROUP _ _ _ _ _ => False
                                 | _ => True
                                 end) ->
            exists new : list BufferedItem,
              (forall resp m, WorkerLoop.xreadgroup world = Returns resp -> has_read tr ->
                 m ∈ messages_of resp -> message_key m.2 = k ->
                 item_of fromisoformat m.1.1 m.1.2 m.2
                   (WorkerLoop.clock world m.1.1 m.1.2).1
                   (WorkerLoop.clock world m.1.1 m.1.2).2 ∈ new)
              /\ (items_of self k = items_of self k ++ new
                  \/ (items_of self k = []
                      /\ committed strftime_utc (WorkerLoop.flush_events tr)
                           (items_of self k ++ new)))).
  { intros tr Htr. exists []. rewrite app_nil_r. split; [|now left].
    intros resp m _ Hread. apply has_read_elim in Hread as (e & He & Hx).
    specialize (Htr e He). now destruct e. }
  assert (Hgroups : forall groups e, e ∈ map WorkerLoop.Group groups ->
            match e with WorkerLoop.XREADGROUP _ _ _ _ _ => False | _ => True end).
  { intros groups e ([] & <- & _)%list_elem_of_In%in_map_iff; exact I. }
  destruct (WorkerLoop.discover_streams (WorkerLoop.smembers world)) as [[|s streams]|e];
    cbn [fst snd].
  - apply Hno. intros e. rewrite !elem_of_cons, elem_of_nil.
    intros [->|[->|[]]]; exact I.
  - destruct (WorkerLoop.ensure_groups self (s :: streams) (WorkerLoop.group_reply world))
      as [groups [|]]; cbn [fst snd].
    + apply Hno. intros e. rewrite elem_of_app, !elem_of_cons, elem_of_nil.
      intros [[->|He]|[->|[->|[]]]]; try exact I. now apply (Hgroups groups).
    + destruct (WorkerLoop.xreadgroup world) as [resp|e] eqn:Ex; cbn [fst snd].
      * destruct (run_after_read_keeps_or_commits self resp (WorkerLoop.clock world)
                    (WorkerLoop.now_at world) (WorkerLoop.tx world) (WorkerLoop.bus world) k)
          as (new & Hin & Hkeep).
        exists new. split.
        -- intros resp' m [= <-] _. apply Hin.
        -- rewrite flush_events_iteration.
           destruct Hkeep as [Hk|[Hk Hc]]; [now left|]. right. split; [exact Hk|].
           now apply committed_app_r.
      * exists []. rewrite app_nil_r. split; [|now left]. intros resp m H. discriminate.
  - apply Hno. intros e'. rewrite !elem_of_cons, elem_of_nil.
    intros [->|[->|[->|[]]]]; exact I.
Qed.

End NoLoss.

(** ** The batch consumer: the loop of [run] *)

Section RunLoop.

Import Worker.

Variable fromisoformat : string -> option datetime.
Variable strftime_utc : datetime -> Reply string.

Local Abbreviation run_iteration := (WorkerLoop.run_iteration fromisoformat strftime_utc).
Local Abbreviation run_iterations := (WorkerLoop.run_iterations fromisoformat strftime_utc).

Lemma run_iterations_cons (self : BlogWorker) (world : WorkerLoop.World)
    (worlds : list WorkerLoop.World) :
  run_iterations self (world :: worlds)
  = ((run_iteration self world).1
       ++ (run_iterations (run_iteration self world).2 worlds).1,
     (run_iterations (run_iteration self world).2 worlds).2).
Proof.
  cbn [WorkerLoop.run_iterations]. destruct (run_iteration self world) as [tr self1].
  cbn [fst snd]. now destruct (run_iterations self1 worlds).
Qed.

Lemma run_iterations_app (self : BlogWorker) (worlds1 worlds2 : list WorkerLoop.World) :
  run_iterations self (worlds1 ++ worlds2)
  = ((run_iterations self worlds1).1
       ++ (run_iterations (run_iterations self worlds1).2 worlds2).1,
     (run_iterations (run_iterations self worlds1).2 worlds2).2).
Proof.
  revert self. induction worlds1 as [|world worlds1 IH]; intros self.
  - cbn. now destruct (run_iterations self worlds2).
  - change ((world :: worlds1) ++ worlds2) with (world :: worlds1 ++ worlds2).
    rewrite !run_iterations_cons, IH. cbn [fst snd]. now rewrite app_assoc.
Qed.

(** Over any number of iterations the buffer of a key only grows at its
    end, until all of it is committed in one transaction. *)
Lemma run_iterations_keeps_or_commits (worlds : list WorkerLoop.World)
    (self : BlogWorker) (k : Key) :
  exists new,
    items_of (run_iterations self worlds).2 k = items_of self k ++ new
    \/ committed strftime_utc (WorkerLoop.flush_events (run_iterations self worlds).1)
         (items_of self k ++ new).
Proof.
  revert self. induction worlds as [|world worlds IH]; intros self.
  - exists []. left. cbn. now rewrite app_nil_r.
  - rewrite run_iterations_cons. cbn [fst snd].
    destruct (run_iteration_keeps_or_commits fromisoformat strftime_utc self world k)
      as (new1 & _ & Hstep). cbn zeta in Hstep.
    rewrite flush_events_app.
    destruct Hstep as [Hkeep|[_ Hc]].
    + destruct (IH (run_iteration self world).2) as (new2 & Hrest).
      rewrite Hkeep, <- app_assoc in Hrest. exists (new1 ++ new2).
      destruct Hrest as [Hrest|Hrest]; [now left|right]. now apply committed_app_l.
    + exists new1. right. now apply committed_app_r.
Qed.

(** X7. The loop of [run] never drops a buffered item. Whatever the
    replies of Redis and MySQL over any number of iterations, an item that
    is in the buffer of a key is afterwards still in that buffer, or the
    whole buffer it was in, in its order and with the items buffered after
    it, was the payload of one committed [sp_bulk_insert_blogs]
    transaction. *)
Theorem run_never_drops_a_buffered_item (self : BlogWorker)
    (worlds : list WorkerLoop.World) (k : Key) (bi : BufferedItem) :
  bi ∈ items_of self k ->
  bi ∈ items_of (run_iterations self worlds).2 k
  \/ exists batch,
       bi ∈ batch
       /\ items_of self k `prefix_of` batch
       /\ committed strftime_utc
            (WorkerLoop.flush_events (run_iterations self worlds).1) batch.
Proof.
  intros Hbi. destruct (run_iterations_keeps_or_commits worlds self k) as (new & [Hk|Hc]).
  - left. rewrite Hk. apply elem_of_app. now left.
  - right. exists (items_of self k ++ new). split; [|split].
    + apply elem_of_app. now left.
    + now exists new.
    + exact Hc.
Qed.

(** X8. A message that [xreadgroup] returned in some iteration of the
    loop is buffered under the key of its genre and location, and after
    any number of further iterations its item is still in that buffer or
    was part of the payload of a committed transaction: the consumer never
    forgets a message it has read without having stored it. *)
Theorem run_never_forgets_a_read_message (self : BlogWorker)
    (worlds1 worlds2 : list WorkerLoop.World) (world : WorkerLoop.World)
    (resp : list (string * list (string * gmap string string)))
    (stream mid : string) (fields : gmap string string) :
  let self1 := (run_iterations self worlds1).2 in
  let bi := item_of fromisoformat stream mid fields
              (WorkerLoop.clock world stream mid).1 (WorkerLoop.clock world stream mid).2 in
  WorkerLoop.xreadgroup world = Returns resp ->
  has_read (run_iteration self1 world).1 ->
  (stream, mid, fields) ∈ messages_of resp ->
  bi ∈ items_of (run_iterations self (worlds1 ++ world :: worlds2)).2 (message_key fields)
  \/ exists batch,
       bi ∈ batch
       /\ committed strftime_utc
            (WorkerLoop.flush_events
               (run_iterations self (worlds1 ++ world :: worlds2)).1) batch.
Proof.
  intros self1 bi Hresp Hread Hm.
  rewrite run_iterations_app, run_iterations_cons. cbn [fst snd]. fold self1.
  rewrite !flush_events_app.
  destruct (run_iteration_keeps_or_commits fromisoformat strftime_utc self1 world
              (message_key fields)) as (new & Hin & Hstep). cbn zeta in Hstep.
  specialize (Hin resp (stream, mid, fields) Hresp Hread Hm eq_refl). cbn [fst snd] in Hin.
  fold bi in Hin.
  destruct Hstep as [Hkeep|[_ Hc]].
  - destruct (run_iterations_keeps_or_commits worlds2 (run_iteration self1 world).2
                (message_key fields)) as (new2 & [Hk|Hc]).
    + left. rewrite Hk, Hkeep. rewrite !elem_of_app. auto.
    + right. eexists. split; [|apply committed_app_l, committed_app_l, Hc].
      rewrite Hkeep, !elem_of_app. auto.
  - right. eexists. split; [|apply committed_app_l, committed_app_r, Hc].
    rewrite elem_of_app. auto.
Qed.

End RunLoop.

(** ** The batch consumer: what every reachable state satisfies *)

Section Reachable.

Import Worker.

Variable fromisoformat : string -> option datetime.
Variable strftime_utc : datetime -> Reply string.

Local Abbreviation run_iteration := (WorkerLoop.run_iteration fromisoformat strftime_utc).
Local Abbreviation run_iterations := (WorkerLoop.run_iterations fromisoformat strftime_utc).

Lemma buffers_keyed_same (w w' : BlogWorker) :
  (forall k, same_entries w w' k) -> buffers_keyed w -> buffers_keyed w'.
Proof.
  intros Hsame (Hk & Hf). split.
  - intros k bi. destruct (Hsame k) as (-> & _). apply Hk.
  - intros k bi. destruct (Hsame k) as (-> & -> & _). apply Hf.
Qed.

Lemma consistent_add (w0 w : BlogWorker) (stream mid : string)
    (fields : gmap string string) (t1 t2 : Z) :
  consistent w0 w -> consistent w0 (_add_to_buffer fromisoformat w stream mid fields t1 t2).
Proof.
  intros (Hinv & (Hk & Hf) & (Tc & Ta & Tb)).
  pose proof (add_to_buffer_spec fromisoformat w stream mid fields t1 t2) as Hs.
  cbn zeta in Hs.
  destruct Hs as (_ & Hio & _ & _ & Hfk & Hfo & _ & Hc & Ha & Hb & _).
  pose proof (add_to_buffer_item fromisoformat w stream mid fields t1 t2) as Hik.
  split; [now apply buffer_inv_add|]. split; [split|].
  - intros k bi. destruct (decide (k = message_key fields)) as [->|Hne].
    + rewrite Hik. intros [Hin| ->%list_elem_of_singleton]%elem_of_app; [now apply Hk|].
      reflexivity.
    + rewrite Hio by exact Hne. apply Hk.
  - intros k bi. destruct (decide (k = message_key fields)) as [->|Hne].
    + rewrite Hik, Hfk. destruct (items_of w (message_key fields)) as [|b0 items] eqn:E.
      * cbn. intros [= <-]. destruct Hinv as (_ & Hnone & _).
        apply Hnone in E. now rewrite E.
      * cbn. intros [= <-]. specialize (Hf (message_key fields) b0).
        rewrite E in Hf. now rewrite (Hf eq_refl).
    + rewrite Hio, Hfo by exact Hne. apply Hf.
  - unfold same_thresholds. now rewrite Hc, Ha, Hb.
Qed.

Lemma consistent_reset (w0 w : BlogWorker) (key : Key) :
  consistent w0 w -> consistent w0 (reset_buffer w key).
Proof.
  intros (Hinv & (Hk & Hf) & (Tc & Ta & Tb)).
  pose proof (reset_buffer_spec w key) as Hs. cbn zeta in Hs.
  destruct Hs as (Hi & _ & _ & Hother & _ & _ & Hc & Ha & Hb & _).
  split; [now apply buffer_inv_reset|]. split; [split|].
  - intros k bi. destruct (decide (k = key)) as [->|Hne].
    + rewrite Hi. intros H. now apply elem_of_nil in H.
    + destruct (Hother k Hne) as (-> & _). apply Hk.
  - intros k bi. destruct (decide (k = key)) as [->|Hne].
    + now rewrite Hi.
    + destruct (Hother k Hne) as (-> & -> & _). apply Hf.
  - unfold same_thresholds. now rewrite Hc, Ha, Hb.
Qed.

Lemma consistent_flush_key (w0 w : BlogWorker) (key : Key) (tx : TxOutcome)
    (bus : string -> AckOutcome) :
  consistent w0 w -> consistent w0 (after (_flush_key strftime_utc w key tx bus)).
Proof.
  intros Hw. destruct (flush_key_case strftime_utc w key tx bus); cbn [after]; auto.
  now apply consistent_reset.
Qed.

Lemma consistent_flush_keys (w0 w : BlogWorker) (keys : list Key)
    (tx : Key -> TxOutcome) (bus : Key -> string -> AckOutcome) :
  consistent w0 w -> consistent w0 (after (flush_keys strftime_utc w keys tx bus)).
Proof.
  revert w. induction keys as [|key keys IH]; intros w Hw; cbn; [exact Hw|].
  pose proof (consistent_flush_key w0 w key (tx key) (bus key) Hw) as H1.
  destruct (raised (_flush_key strftime_utc w key (tx key) (bus key))); [exact H1|].
  cbn [after]. now apply IH.
Qed.

Lemma consistent_run_after_read (w0 w : BlogWorker)
    (resp : list (string * list (string * gmap string string)))
    (clock : string -> string -> Z * Z) (now_at : Key -> Z)
    (tx : Key -> TxOutcome) (bus : Key -> string -> AckOutcome) :
  consistent w0 w ->
  consistent w0 (after (run_after_read fromisoformat strftime_utc w resp clock now_at tx bus)).
Proof.
  intros Hw. unfold run_after_read. rewrite buffer_messages_flat.
  assert (H1 : consistent w0
                 (fold_left
                    (fun w m => _add_to_buffer fromisoformat w m.1.1 m.1.2 m.2
                                  (clock m.1.1 m.1.2).1 (clock m.1.1 m.1.2).2)
                    (messages_of resp) w)).
  { revert w Hw. induction (messages_of resp) as [|m msgs IH]; intros w Hw; [exact Hw|].
    cbn [fold_left]. now apply IH, consistent_add. }
  set (w1 := fold_left _ (messages_of resp) w) in *. unfold keys_to_flush.
  pose proof (select_keys_spec w1 (buffers_keys w1) now_at) as Hs. cbn zeta in Hs.
  destruct (select_keys w1 (buffers_keys w1) now_at) as [keys w2]. cbn [fst snd] in Hs.
  destruct Hs as (Hsame & (Sc & Sa & Sb) & Hinv2 & _).
  destruct H1 as (Hinv1 & Hkeyed1 & (Tc & Ta & Tb)).
  apply consistent_flush_keys. split; [now apply Hinv2|]. split.
  - now apply (buffers_keyed_same w1).
  - unfold same_thresholds. now rewrite Sc, Sa, Sb.
Qed.

Lemma consistent_run_iteration (w0 self : BlogWorker) (world : WorkerLoop.World) :
  consistent w0 self -> consistent w0 (run_iteration self world).2.
Proof.
  intros Hw. unfold WorkerLoop.run_iteration.
  destruct (WorkerLoop.discover_streams (WorkerLoop.smembers world)) as [[|s streams]|e];
    cbn [fst snd]; try exact Hw.
  destruct (WorkerLoop.ensure_groups self (s :: streams) (WorkerLoop.group_reply world))
    as [groups [|]]; cbn [fst snd]; [exact Hw|].
  destruct (WorkerLoop.xreadgroup world) as [resp|e]; cbn [fst snd]; [|exact Hw].
  now apply consistent_run_after_read.
Qed.

Lemma consistent_run_iterations (w0 self : BlogWorker) (worlds : list WorkerLoop.World) :
  consistent w0 self -> consistent w0 (run_iterations self worlds).2.
Proof.
  revert self. induction worlds as [|world worlds IH]; intros self Hw; [exact Hw|].
  rewrite run_iterations_cons. cbn [snd]. now apply IH, consistent_run_iteration.
Qed.

Lemma consistent_init (g n : option string) (c a b : option Z) (hp : string) :
  consistent (__init__ g n c a b hp) (__init__ g n c a b hp).
Proof.
  split; [apply buffer_inv_init|]. split; [split|now repeat split].
  - intros k bi H. now apply elem_of_nil in H.
  - intros k bi. discriminate.
Qed.

(** X9. Every state the consumer reaches from [BlogWorker.__init__],
    whatever Redis and MySQL answer, is consistent: the byte accumulator of
    a key is the cost of its buffered items, a key has a first-insert
    timestamp exactly when its buffer is not empty, every item lies under
    the key of its own genre and location, the first-insert timestamp of a
    key is the time its oldest item was buffered, and the thresholds are
    those read at start-up. *)
Theorem run_keeps_the_buffers_consistent (g n : option string) (c a b : option Z)
    (hp : string) (worlds : list WorkerLoop.World) :
  let w0 := __init__ g n c a b hp in
  let w := (run_iterations w0 worlds).2 in
  buffer_inv w /\ buffers_keyed w /\ same_thresholds w0 w.
Proof.
  cbn zeta. induction worlds as [|world worlds IH] using rev_ind.
  - apply consistent_init.
  - rewrite run_iterations_app. cbn [snd]. rewrite run_iterations_cons. cbn [snd].
    now apply consistent_run_iteration.
Qed.

(** X10. In a state the consumer reaches, the flush test of a key reads
    off its buffered items alone: the key is due exactly when its buffer is
    not empty and holds [batch_max_count] items or more, or its oldest item
    was buffered [batch_max_age_ms] milliseconds ago or more, or the items
    cost [batch_max_bytes] or more. *)
Theorem reachable_flush_test_reads_the_items (g n : option string) (c a b : option Z)
    (hp : string) (worlds : list WorkerLoop.World) (key : Key) (now : Z) :
  let w0 := __init__ g n c a b hp in
  let w := (run_iterations w0 worlds).2 in
  fst (_should_flush w key now) = true <->
  exists oldest,
    head (items_of w key) = Some oldest
    /\ (batch_max_count w0 <= Z.of_nat (length (items_of w key))
        \/ 1000 * batch_max_age_ms w0
           <= now - dt_micros (Blogs.updated_at (row oldest))
        \/ batch_max_bytes w0 <= total_bytes (items_of w key)).
Proof.
  cbn zeta.
  destruct (consistent_run_iterations _ _ worlds (consistent_init g n c a b hp))
    as ((Hb & _) & (_ & Hf) & (Tc & Ta & Tb)).
  rewrite should_flush_spec, Hb, Tc, Ta, Tb.
  set (w := (run_iterations (__init__ g n c a b hp) worlds).2) in *.
  destruct (items_of w key) as [|bi items] eqn:E.
  - split; [intros [Hne _]; now contradiction Hne|]. intros (oldest & Hh & _). discriminate.
  - specialize (Hf key bi). rewrite E in Hf. specialize (Hf eq_refl). rewrite Hf. split.
    + intros (_ & H). exists bi. split; [reflexivity|].
      destruct H as [H|[(t & [= <-] & H)|H]]; auto.
    + intros (oldest & [= <-] & H). split; [discriminate|].
      destruct H as [H|[H|H]]; eauto.
Qed.

End Reachable.

(** ** From the ingest endpoint to the buffer of the consumer *)

Section EnqueueToBuffer.

Variable fromisoformat : string -> option datetime.

(** X11. The fields [EnqueueBlog] appends to a stream are the ones
    [_add_to_buffer] reads back. When the consumer is handed a message with
    the fields of an [XADD] of [EnqueueBlog], it files one item at the end
    of the buffer of the key (trimmed genre, trimmed location); the row has
    the trimmed author, genre and location and the content as sent, none of
    them empty; its [client_msg_id] is the one of the request or else the
    generated one, never missing; its [created_at] is the parsed timestamp
    of the request (or of the service clock), or the clock of the consumer
    if that does not parse; and the stream is the one of the genre of the
    row. *)
Theorem enqueued_fields_are_read_back (self : Server.DataService)
    (request : Server.BlogCreateRequest) (uuid4 now_iso : string)
    (sadd : Reply Z) (xadd : Reply string)
    (stream : string) (fields : list (string * string)) (maxlen : Z) (approximate : bool)
    (w : Worker.BlogWorker) (mid : string) (t1 t2 : Z) :
  XADD stream fields maxlen approximate
    ∈ fst (Server.EnqueueBlog self request uuid4 now_iso sadd xadd) ->
  let w' := Worker._add_to_buffer fromisoformat w stream mid (list_to_map fields) t1 t2 in
  let key := (strip (Server.genre request), strip (Server.location request)) in
  exists bi,
    Worker.items_of w' key = Worker.items_of w key ++ [bi]
    /\ Worker.redis_message_id bi = mid
    /\ Worker.redis_stream bi = Worker.stream_for_genre (Blogs.genre (Worker.row bi))
    /\ Blogs.author (Worker.row bi) = strip (Server.author request)
    /\ Blogs.content (Worker.row bi) = Server.content request
    /\ Blogs.genre (Worker.row bi) = strip (Server.genre request)
    /\ Blogs.location (Worker.row bi) = strip (Server.location request)
    /\ Blogs.client_msg_id (Worker.row bi)
       = Some (str_or (Server.client_msg_id request) uuid4)
    /\ Blogs.created_at (Worker.row bi)
       = default (utc_datetime t1)
           (fromisoformat (str_or (Server.created_at_iso request) now_iso))
    /\ Blogs.updated_at (Worker.row bi) = utc_datetime t2
    /\ Blogs.author (Worker.row bi) <> "" /\ Blogs.content (Worker.row bi) <> ""
    /\ Blogs.genre (Worker.row bi) <> "" /\ Blogs.location (Worker.row bi) <> "".
Proof.
  intros Hx.
  destruct (decide (strip (Server.author request) = "")) as [Ea|Ha];
    [rewrite EnqueueBlog_rejected in Hx by auto; now apply elem_of_nil in Hx|].
  destruct (decide (Server.content request = "")) as [Ec|Hc];
    [rewrite EnqueueBlog_rejected in Hx by auto; now apply elem_of_nil in Hx|].
  destruct (decide (strip (Server.genre request) = "")) as [Eg|Hg];
    [rewrite EnqueueBlog_rejected in Hx by auto; now apply elem_of_nil in Hx|].
  destruct (decide (strip (Server.location request) = "")) as [El|Hl];
    [rewrite EnqueueBlog_rejected in Hx by auto; now apply elem_of_nil in Hx|].
  rewrite (EnqueueBlog_accepted self request uuid4 now_iso sadd xadd Ha Hc Hg Hl) in Hx.
  assert (Hcmd : XADD stream fields maxlen approximate
                 = XADD ("blogs:genre:" +:+ strip (Server.genre request))
                     [("client_msg_id", str_or (Server.client_msg_id request) uuid4);
                      ("author", strip (Server.author request));
                      ("content", Server.content request);
                      ("genre", strip (Server.genre request));
                      ("location", strip (Server.location request));
                      ("created_at_iso", str_or (Server.created_at_iso request) now_iso)]
                     (Server.stream_maxlen self) true).
  { destruct sadd as [n|e]; [destruct xadd as [m|e]|]; cbn [fst] in Hx;
      rewrite ?elem_of_cons, ?elem_of_nil in Hx; intuition congruence. }
  injection Hcmd as -> -> _ _. cbn zeta.
  set (fs := list_to_map _).
  assert (Hkey : message_key fs
                 = (strip (Server.genre request), strip (Server.location request)))
    by reflexivity.
  exists (item_of fromisoformat ("blogs:genre:" +:+ strip (Server.genre request)) mid fs t1 t2).
  rewrite <- Hkey. split; [apply add_to_buffer_item|].
  repeat split; assumption.
Qed.

End EnqueueToBuffer.

(** ** The facade in front of the data service: reading and deleting *)

Section FacadeRest.

Variable astimezone_utc : datetime -> option datetime.
Variable isoformat : datetime -> string.

Local Abbreviation stub_of := (ApiRest.DataService_stub astimezone_utc isoformat).
Local Abbreviation _dt_to_iso := (Server._dt_to_iso astimezone_utc isoformat).

Lemma count_of_zero (name : string) (row : option (gmap string Z)) :
  ServerRest.count_of name row = 0 <->
  row = None \/ (exists m, row = Some m /\ (m !! name = None \/ m !! name = Some 0)).
Proof.
  destruct row as [m|]; cbn.
  - destruct (m !! name) as [z|] eqn:E; cbn.
    + split.
      * intros ->. right. exists m. auto.
      * intros [H|(m' & [= <-] & [H|H])]; congruence.
    + split; [|reflexivity]. intros _. right. exists m. auto.
  - split; [auto|reflexivity].
Qed.

(** X12. [GET /blogs/{id}] through the data service. The answer is 404
    exactly when the query finds no row. When it finds one whose two
    timestamps can be written, the answer is 200 with the columns of the
    row as stored, except that a [client_msg_id] which is NULL or empty
    comes back as [None]. Every other case (MySQL raises, a timestamp
    cannot be converted) is a 500. *)
Theorem get_blog_returns_the_stored_row (b : ApiRest.Backend) (blog_id : Z) :
  let r := ApiRest.get_blog blog_id (stub_of b) in
  (Api.http_status r = 404 <-> ApiRest.select_by_id b blog_id = Returns None)
  /\ (forall out, r = inr out <->
        exists stored c u,
          ApiRest.select_by_id b blog_id = Returns (Some stored)
          /\ _dt_to_iso (Blogs.created_at (Blogs.cols stored)) = Returns c
          /\ _dt_to_iso (Blogs.updated_at (Blogs.cols stored)) = Returns u
          /\ out = {| Api.out_id := Blogs.id stored;
                      Api.out_client_msg_id :=
                        Blogs.client_msg_id (Blogs.cols stored) ≫= Server.or_None;
                      Api.out_author := Blogs.author (Blogs.cols stored);
                      Api.out_created_at_iso := c;
                      Api.out_updated_at_iso := u;
                      Api.out_genre := Blogs.genre (Blogs.cols stored);
                      Api.out_location := Blogs.location (Blogs.cols stored);
                      Api.out_content := Blogs.content (Blogs.cols stored) |})
  /\ (Api.http_status r = 200 \/ Api.http_status r = 404 \/ Api.http_status r = 500).
Proof.
  cbn zeta. unfold ApiRest.get_blog. cbn [ApiRest.stub_GetBlog ApiRest.DataService_stub].
  unfold ServerRest.GetBlog. cbn [snd].
  destruct (ApiRest.select_by_id b blog_id) as [[stored|]|e]; cbn.
  - destruct (_dt_to_iso (Blogs.created_at (Blogs.cols stored))) as [c|e1] eqn:Ec; cbn.
    + destruct (_dt_to_iso (Blogs.updated_at (Blogs.cols stored))) as [u|e2] eqn:Eu; cbn.
      * split; [split; [lia|discriminate]|]. split; [|auto].
        intros out. split.
        -- intros [= <-]. exists stored, c, u. repeat split; try assumption.
           unfold Api.BlogOut_of. cbn. f_equal.
           now destruct (Blogs.client_msg_id (Blogs.cols stored)).
        -- intros (s' & c' & u' & [= <-] & Hc & Hu & ->).
           rewrite Ec in Hc. rewrite Eu in Hu. injection Hc as <-. injection Hu as <-.
           unfold Api.BlogOut_of. cbn. do 2 f_equal.
           now destruct (Blogs.client_msg_id (Blogs.cols stored)).
      * split; [split; [lia|discriminate]|]. split; [|auto].
        intros out. split; [discriminate|].
        intros (s' & c' & u' & [= <-] & _ & Hu & _). rewrite Eu in Hu. discriminate.
    + split; [split; [lia|discriminate]|]. split; [|auto].
      intros out. split; [discriminate|].
      intros (s' & c' & u' & [= <-] & Hc & _). rewrite Ec in Hc. discriminate.
  - split; [split; reflexivity|]. split; [|auto].
    intros out. split; [discriminate|]. intros (s' & c' & u' & Hs & _). discriminate.
  - split; [split; [lia|discriminate]|]. split; [|auto].
    intros out. split; [discriminate|]. intros (s' & c' & u' & Hs & _). discriminate.
Qed.

(** X13. [DELETE /blogs/{id}] through the data service. The answer is 404
    exactly when the procedure reports no deleted row (a count of 0, no
    row, or no column [deleted]); it is 200 exactly when the count is not 0
    and the transaction commits, and the body then says "deleted": the
    status "noop" of the endpoint is never sent. *)
Theorem delete_blog_is_deleted_or_404 (b : ApiRest.Backend) (blog_id : Z) :
  let r := ApiRest.delete_blog blog_id (stub_of b) in
  (Api.http_status r = 404 <->
     exists row, ApiRest.sp_delete_blog b blog_id = Returns row
                 /\ ServerRest.count_of "deleted" row = 0)
  /\ (Api.http_status r = 200 <->
        exists row u, ApiRest.sp_delete_blog b blog_id = Returns row
                      /\ ServerRest.count_of "deleted" row <> 0
                      /\ ApiRest.commit b = Returns u)
  /\ (forall body, r = inr body ->
        body = [("status", Api.JStr "deleted"); ("id", Api.JInt blog_id)])
  /\ (Api.http_status r = 200 \/ Api.http_status r = 404 \/ Api.http_status r = 500).
Proof.
  cbn zeta. unfold ApiRest.delete_blog.
  cbn [ApiRest.stub_DeleteBlog ApiRest.DataService_stub].
  unfold ServerRest.DeleteBlog. cbn [snd].
  destruct (ApiRest.sp_delete_blog b blog_id) as [row|e]; cbn.
  - destruct (Z.eqb_spec (ServerRest.count_of "deleted" row) 0) as [E|E]; cbn.
    + split; [split; [intros _; now exists row|reflexivity]|].
      split; [split; [discriminate|intros (r' & u & [= <-] & Hne & _); contradiction]|].
      split; [discriminate|auto].
    + destruct (ApiRest.commit b) as [u|e]; cbn.
      * split; [split; [lia|intros (r' & [= <-] & H0); contradiction]|].
        split; [split; [intros _; now exists row, u|reflexivity]|].
        split; [now intros body [= <-]|auto].
      * split; [split; [lia|intros (r' & [= <-] & H0); contradiction]|].
        split; [split; [lia|intros (r' & u & _ & _ & Hc); discriminate]|].
        split; [discriminate|auto].
  - split; [split; [lia|intros (r' & Hr & _); discriminate]|].
    split; [split; [lia|intros (r' & u & Hr & _); discriminate]|].
    split; [discriminate|auto].
Qed.

End FacadeRest.

(** ** The facade in front of the data service: the bulk endpoints *)

Section FacadeBulk.

Variable astimezone_utc : datetime -> option datetime.
Variable isoformat : datetime -> string.

Local Abbreviation stub_of := (ApiRest.DataService_stub astimezone_utc isoformat).

(** The test of [bulk_update] on the optional fields is the test of
    [BulkUpdate] on the strings it is sent. *)
Lemma any_field_spec (s : ApiRest.BulkUpdateSet) :
  is_empty (str_or (Api.or_empty (ApiRest.set_genre s))
              (str_or (Api.or_empty (ApiRest.set_location s))
                 (Api.or_empty (ApiRest.set_content s))))
  = negb (ApiRest.any_field s).
Proof.
  unfold ApiRest.any_field, str_or.
  destruct (is_empty (Api.or_empty (ApiRest.set_genre s))) eqn:Eg; cbn; [|exact Eg].
  destruct (is_empty (Api.or_empty (ApiRest.set_location s))) eqn:El; cbn; [|exact El].
  now destruct (is_empty (Api.or_empty (ApiRest.set_content s))).
Qed.

(** X14. [POST /blogs/bulk-delete] through the data service. An empty
    list of ids is refused by the model with 422, so neither the 400 of the
    endpoint nor the INVALID_ARGUMENT of [BulkDelete] is ever the answer.
    With ids, the answer is 200 with the count the procedure reports (0
    when it reports none) exactly when the call returns and the
    transaction commits, and 500 otherwise. *)
Theorem bulk_delete_counts_or_500 (b : ApiRest.Backend) (ids : list Z) :
  let r := ApiRest.bulk_delete ids (stub_of b) in
  (Api.http_status r = 422 <-> ids = [])
  /\ Api.http_status r <> 400
  /\ (forall body, r = inr body <->
        exists row u,
          ids <> []
          /\ ApiRest.sp_bulk_delete_blogs b ids = Returns row
          /\ ApiRest.commit b = Returns u
          /\ body = [("deleted", Api.JInt (ServerRest.count_of "deleted" row))])
  /\ (Api.http_status r = 200 \/ Api.http_status r = 422 \/ Api.http_status r = 500).
Proof.
  cbn zeta. destruct ids as [|id ids].
  - cbn. split; [tauto|]. split; [lia|]. split; [|auto].
    intros body. split; [discriminate|]. intros (row & u & H & _). now contradiction H.
  - unfold ApiRest.bulk_delete, ApiRest.bulk_delete_body.
    cbn [ApiRest.stub_BulkDelete ApiRest.DataService_stub].
    unfold ServerRest.BulkDelete. cbn [snd].
    destruct (ApiRest.sp_bulk_delete_blogs b (id :: ids)) as [row|e] eqn:Ed; cbn.
    + destruct (ApiRest.commit b) as [u|e] eqn:Ec; cbn.
      * split; [split; [lia|discriminate]|]. split; [lia|]. split; [|auto].
        intros body. split.
        -- intros [= <-]. now exists row, u.
        -- now intros (row' & u' & _ & [= <-] & _ & ->).
      * split; [split; [lia|discriminate]|]. split; [lia|]. split; [|auto].
        intros body. split; [discriminate|]. intros (row' & u' & _ & _ & H & _). discriminate.
    + split; [split; [lia|discriminate]|]. split; [lia|]. split; [|auto].
      intros body. split; [discriminate|]. intros (row' & u' & _ & H & _). discriminate.
Qed.

(** X15. [POST /blogs/bulk-update] through the data service. An empty
    list of ids is refused with 422. With ids, the answer is 400 exactly
    when genre, location and content are all missing or empty; otherwise
    the procedure is called with the ids and the three values (a missing
    one as the empty string) and the answer is 200 with the count it
    reports when the call returns and the transaction commits, and 500
    when one of them raises: the checks of [BulkUpdate] itself never
    fire. *)
Theorem bulk_update_counts_or_500 (b : ApiRest.Backend) (req : ApiRest.BulkUpdateIn) :
  let r := ApiRest.bulk_update req (stub_of b) in
  let g := Api.or_empty (ApiRest.set_genre (ApiRest.set req)) in
  let l := Api.or_empty (ApiRest.set_location (ApiRest.set req)) in
  let c := Api.or_empty (ApiRest.set_content (ApiRest.set req)) in
  (Api.http_status r = 422 <-> ApiRest.update_ids req = [])
  /\ (Api.http_status r = 400 <->
        ApiRest.update_ids req <> [] /\ g = "" /\ l = "" /\ c = "")
  /\ (forall detail, r = inl (Api.HTTPException 400 detail) -> detail = "no fields to update")
  /\ (forall body, r = inr body <->
        exists row u,
          ApiRest.update_ids req <> [] /\ ~ (g = "" /\ l = "" /\ c = "")
          /\ ApiRest.sp_bulk_update_blogs b (ApiRest.update_ids req) g l c = Returns row
          /\ ApiRest.commit b = Returns u
          /\ body = [("updated", Api.JInt (ServerRest.count_of "updated" row))])
  /\ (Api.http_status r = 500 <->
        ApiRest.update_ids req <> [] /\ ~ (g = "" /\ l = "" /\ c = "")
        /\ ((exists e, ApiRest.sp_bulk_update_blogs b (ApiRest.update_ids req) g l c = Raises e)
            \/ (exists e, ApiRest.commit b = Raises e))).
Proof.
  cbn zeta. unfold ApiRest.bulk_update, ApiRest.bulk_update_body.
  destruct (ApiRest.update_ids req) as [|id ids] eqn:Eids.
  - cbn. split; [tauto|]. split; [split; [lia|intros [H _]; now contradiction H]|].
    split; [discriminate|]. split.
    + intros body. split; [discriminate|]. intros (row & u & H & _). now contradiction H.
    + split; [lia|]. intros [H _]. now contradiction H.
  - assert (Hany : ApiRest.any_field (ApiRest.set req) = false <->
                   Api.or_empty (ApiRest.set_genre (ApiRest.set req)) = ""
                   /\ Api.or_empty (ApiRest.set_location (ApiRest.set req)) = ""
                   /\ Api.or_empty (ApiRest.set_content (ApiRest.set req)) = "").
    { unfold ApiRest.any_field. rewrite !orb_false_iff, !negb_false_iff, !is_empty_true.
      tauto. }
    assert (Hids : id :: ids <> []) by discriminate.
    destruct (ApiRest.any_field (ApiRest.set req)) eqn:Ea; cbn [negb].
    + assert (Hsome : ~ (Api.or_empty (ApiRest.set_genre (ApiRest.set req)) = ""
                         /\ Api.or_empty (ApiRest.set_location (ApiRest.set req)) = ""
                         /\ Api.or_empty (ApiRest.set_content (ApiRest.set req)) = ""))
        by (intros H; apply Hany in H; discriminate).
      cbn [ApiRest.stub_BulkUpdate ApiRest.DataService_stub].
      unfold ServerRest.BulkUpdate.
      cbn [ServerRest.ids ServerRest.genre ServerRest.location ServerRest.content].
      rewrite any_field_spec, Ea, !str_or_empty_r. cbn [negb snd].
      destruct (ApiRest.sp_bulk_update_blogs b (id :: ids) _ _ _) as [row|e] eqn:Ed; cbn.
      * destruct (ApiRest.commit b) as [u|e] eqn:Ec; cbn.
        -- split; [split; [lia|discriminate]|].
           split; [split; [lia|intros [_ H]; contradiction]|].
           split; [discriminate|]. split.
           ++ intros body. split.
              ** intros [= <-]. now exists row, u.
              ** now intros (row' & u' & _ & _ & [= <-] & _ & ->).
           ++ split; [lia|]. intros (_ & _ & [[e He]|[e He]]); discriminate.
        -- split; [split; [lia|discriminate]|].
           split; [split; [lia|intros [_ H]; contradiction]|].
           split; [discriminate|]. split.
           ++ intros body. split; [discriminate|].
              intros (row' & u' & _ & _ & _ & H & _). discriminate.
           ++ split; [|reflexivity]. intros _. split; [exact Hids|].
              split; [exact Hsome|]. right. now exists e.
      * split; [split; [lia|discriminate]|].
        split; [split; [lia|intros [_ H]; contradiction]|].
        split; [discriminate|]. split.
        -- intros body. split; [discriminate|].
           intros (row' & u' & _ & _ & H & _). discriminate.
        -- split; [|reflexivity]. intros _. split; [exact Hids|].
           split; [exact Hsome|]. left. now exists e.
    + cbn. split; [split; [lia|discriminate]|].
      split; [split; [intros _; split; [exact Hids|now apply Hany]|reflexivity]|].
      split; [now intros detail [= <-]|]. split.
      * intros body. split; [discriminate|].
        intros (row & u & _ & H & _). contradiction H. now apply Hany.
      * split; [lia|]. intros (_ & H & _). contradiction H. now apply Hany.
Qed.

End FacadeBulk.

(** ** The facade in front of the data service: [POST /blogs] *)

Section FacadeCreate.

Variable fromisoformat : string -> option datetime.
Variable astimezone_utc : datetime -> option datetime.
Variable isoformat : datetime -> string.
Variable not_overridden : Api.AioRpcError.

Local Abbreviation stub_of :=
  (Api.DataService_stub fromisoformat astimezone_utc isoformat not_overridden).

Lemma BlogCreate_valid_spec (req : Api.BlogCreate) :
  ApiRest.BlogCreate_valid req = true <->
  (1 <= len (Api.author req) <= 128) /\ 1 <= len (Api.content req)
  /\ (1 <= len (Api.genre req) <= 64) /\ (1 <= len (Api.location req) <= 128).
Proof. unfold ApiRest.BlogCreate_valid. rewrite !andb_true_iff, !Z.leb_le. tauto. Qed.

Lemma len_pos (s : string) : 1 <= len s <-> s <> "".
Proof.
  unfold len. destruct s as [|c s]; cbn [String.length].
  - split; [lia|congruence].
  - split; [discriminate|lia].
Qed.

(** X16. [POST /blogs] without [sync], through the data service. The
    model refuses with 422 exactly the bodies in which a field is empty or
    too long, and it looks at the fields as sent. The service trims author,
    genre and location first, so a body that passes the model is turned
    down with the 400 of the required fields exactly when one of these
    three is made of whitespace only; the content is never the reason. *)
Theorem blank_fields_pass_the_model_and_meet_400 (self : Server.DataService)
    (b : Api.Backend) (req : Api.BlogCreate) :
  let r := ApiRest.POST_blogs req false (stub_of self b) in
  (Api.http_status r = 422 <-> ApiRest.BlogCreate_valid req = false)
  /\ (ApiRest.BlogCreate_valid req = true ->
      (r = inl (Api.HTTPException 400 "author, content, genre, location are required")
       <-> all_space (Api.author req) = true \/ all_space (Api.genre req) = true
           \/ all_space (Api.location req) = true)).
Proof.
  cbn zeta. unfold ApiRest.POST_blogs.
  destruct (ApiRest.BlogCreate_valid req) eqn:Ev.
  - apply BlogCreate_valid_spec in Ev as (Hau & Hco & Hge & Hlo).
    apply len_pos in Hco.
    unfold Api.create_blog. cbn [Api.stub_EnqueueBlog Api.DataService_stub].
    destruct (decide (all_space (Api.author req) = true \/ all_space (Api.genre req) = true
                      \/ all_space (Api.location req) = true)) as [Hblank|Hfull].
    + rewrite EnqueueBlog_rejected
        by (unfold Api.request_of; cbn [Server.author Server.genre Server.location Server.content]; rewrite !strip_empty_iff; tauto).
      cbn. split; [split; [lia|discriminate]|]. intros _. tauto.
    + rewrite EnqueueBlog_accepted
        by (unfold Api.request_of; cbn [Server.author Server.genre Server.location Server.content]; rewrite ?strip_empty_iff; tauto).
      split.
      * destruct (Api.sadd b); [destruct (Api.xadd b)|]; cbn; split; (lia || discriminate).
      * intros _. split; [|tauto].
        destruct (Api.sadd b); [destruct (Api.xadd b)|]; cbn; discriminate.
  - cbn. split; [tauto|discriminate].
Qed.

End FacadeCreate.

(** ** The batch consumer: no acknowledgement without a commit *)

Section AckSafety.

Import Worker.

Variable fromisoformat : string -> option datetime.
Variable strftime_utc : datetime -> Reply string.

Local Abbreviation run_iteration := (WorkerLoop.run_iteration fromisoformat strftime_utc).
Local Abbreviation run_iterations := (WorkerLoop.run_iterations fromisoformat strftime_utc).

Lemma acks_follow_commits_nil : acks_follow_commits strftime_utc [].
Proof. intros i stream group mids H. now rewrite lookup_nil in H. Qed.

Lemma acks_follow_commits_app (tr1 tr2 : list Event) :
  acks_follow_commits strftime_utc tr1 -> acks_follow_commits strftime_utc tr2 ->
  acks_follow_commits strftime_utc (tr1 ++ tr2).
Proof.
  intros H1 H2 i stream group mids Hi.
  apply lookup_app_Some in Hi as [Hi|[Hle Hi]].
  - destruct (H1 i stream group mids Hi) as (batch & Hc & Hm).
    exists batch. split; [|exact Hm].
    rewrite take_app. now apply committed_app_r.
  - destruct (H2 _ stream group mids Hi) as (batch & Hc & Hm).
    exists batch. split; [|exact Hm].
    rewrite take_app, take_ge by exact Hle. now apply committed_app_l.
Qed.

(** The acknowledgements of one flush. *)
Lemma acks_of_flush (group : string) (bus : string -> AckOutcome)
    (d : list (string * list string)) (i : nat) (stream g : string) (mids : list string) :
  concat (map (ack_stream group bus) d) !! i = Some (Bus (XACK stream g mids)) ->
  (stream, mids) ∈ d.
Proof.
  intros Hi. apply list_elem_of_lookup_2 in Hi.
  apply list_elem_of_In, in_concat in Hi as (tr & Htr & Hin).
  apply in_map_iff in Htr as ([s m] & <- & Hd).
  apply list_elem_of_In, ack_stream_events in Hin. cbn [fst snd] in Hin.
  destruct Hin as [[= -> _ ->]|[[=]|[=]]]. now apply list_elem_of_In.
Qed.

Lemma acks_follow_commits_flush_key (w : BlogWorker) (key : Key) (tx : TxOutcome)
    (bus : string -> AckOutcome) :
  acks_follow_commits strftime_utc (trace (_flush_key strftime_utc w key tx bus)).
Proof.
  destruct (flush_key_case strftime_utc w key tx bus)
    as [He|e Hne Hr|rj Hne Hr Htx|rj Hne Hr Htx|rj Hne Hr Htx]; cbn [trace];
    try apply acks_follow_commits_nil.
  - intros [|[|[|i]]] stream group mids Hi; discriminate.
  - intros [|[|[|i]]] stream group mids Hi; try discriminate.
    cbn in Hi. apply acks_of_flush in Hi.
    exists (items_of w key). split.
    + exists rj, [], (take i (concat (map (ack_stream (consumer_group w) bus)
                                       (stream_to_mids (items_of w key))))).
      split; [exact Hr|reflexivity].
    + destruct (stream_to_mids_spec (items_of w key)) as [_ Hs]. now apply Hs in Hi.
Qed.

Lemma acks_follow_commits_flush_keys (w : BlogWorker) (keys : list Key)
    (tx : Key -> TxOutcome) (bus : Key -> string -> AckOutcome) :
  acks_follow_commits strftime_utc (trace (flush_keys strftime_utc w keys tx bus)).
Proof.
  revert w. induction keys as [|key keys IH]; intros w; cbn;
    [apply acks_follow_commits_nil|].
  pose proof (acks_follow_commits_flush_key w key (tx key) (bus key)) as H1.
  destruct (raised (_flush_key strftime_utc w key (tx key) (bus key))); [exact H1|].
  cbn [trace]. apply acks_follow_commits_app; [exact H1|apply IH].
Qed.

Lemma acks_follow_commits_iteration (self : BlogWorker) (world : WorkerLoop.World) :
  acks_follow_commits strftime_utc (WorkerLoop.flush_events (run_iteration self world).1).
Proof.
  unfold WorkerLoop.run_iteration.
  destruct (WorkerLoop.discover_streams (WorkerLoop.smembers world)) as [[|s streams]|e];
    cbn [fst snd]; try apply acks_follow_commits_nil.
  destruct (WorkerLoop.ensure_groups self (s :: streams) (WorkerLoop.group_reply world))
    as [groups [|]]; cbn [fst snd].
  - rewrite flush_events_app.
    change (WorkerLoop.flush_events
              (WorkerLoop.SMEMBERS "blogs:genres" :: map WorkerLoop.Group groups))
      with (WorkerLoop.flush_events (map WorkerLoop.Group groups)).
    rewrite flush_events_map_Group. apply acks_follow_commits_nil.
  - destruct (WorkerLoop.xreadgroup world) as [resp|e]; cbn [fst snd].
    + rewrite flush_events_iteration.
      apply acks_follow_commits_app.
      * unfold run_after_read.
        destruct (keys_to_flush _ _) as [keys w2]. apply acks_follow_commits_flush_keys.
      * destruct (raised _); apply acks_follow_commits_nil.
    + rewrite flush_events_app.
      change (WorkerLoop.flush_events
                (WorkerLoop.SMEMBERS "blogs:genres" :: map WorkerLoop.Group groups))
        with (WorkerLoop.flush_events (map WorkerLoop.Group groups)).
      rewrite flush_events_map_Group. apply acks_follow_commits_nil.
Qed.

(** X17. The loop of [run] never acknowledges a message it has not
    stored. In the trace of any number of iterations, whatever Redis and
    MySQL answer, every [xack] comes after a committed
    [sp_bulk_insert_blogs] transaction of the same trace, and the entry ids
    it names are exactly those of the items of that batch that came from
    the acknowledged stream, in the order of the batch. *)
Theorem run_acknowledges_only_committed_batches (self : BlogWorker)
    (worlds : list WorkerLoop.World) :
  acks_follow_commits strftime_utc (WorkerLoop.flush_events (run_iterations self worlds).1).
Proof.
  revert self. induction worlds as [|world worlds IH]; intros self.
  - apply acks_follow_commits_nil.
  - rewrite run_iterations_cons. cbn [fst]. rewrite flush_events_app.
    apply acks_follow_commits_app; [apply acks_follow_commits_iteration|apply IH].
Qed.

End AckSafety.

(** ** Start-up: [init_db], [verify_stored_procedures], [serve] *)

Section StartupProps.

Import Startup.

Lemma init_db_loop_spec (attempt : nat -> bool) (n i : nat) :
  exists k,
    (k <= n)%nat
    /\ (forall j, (j < k)%nat -> attempt (i + j)%nat = false)
    /\ ((init_db_loop n i attempt = (failed_rounds k ++ [CREATE_TABLE_SQL], true)
         /\ (k < n)%nat /\ attempt (i + k)%nat = true)
        \/ (init_db_loop n i attempt = (failed_rounds k, false) /\ k = n)).
Proof.
  unfold failed_rounds. revert i. induction n as [|n IH]; intros i; cbn [init_db_loop].
  - exists 0%nat. split; [lia|]. split; [intros j Hj; lia|]. now right.
  - destruct (attempt i) eqn:Ei.
    + exists 0%nat. split; [lia|]. split; [intros j Hj; lia|]. left.
      rewrite Nat.add_0_r. split; [reflexivity|]. split; [lia|exact Ei].
    + destruct (IH (S i)) as (k & Hk & Hfail & Hres). exists (S k).
      split; [lia|]. split.
      * intros [|j] Hj; [now rewrite Nat.add_0_r|].
        replace (i + S j)%nat with (S i + j)%nat by lia. apply Hfail. lia.
      * destruct Hres as [(-> & Hlt & Hok)|(-> & ->)]; [left|right].
        -- split; [reflexivity|]. split; [lia|].
           now replace (i + S k)%nat with (S i + k)%nat by lia.
        -- now split.
Qed.

(** X18. [init_db] executes [CREATE_TABLE_SQL] until it succeeds, at most
    31 times, and sleeps one second after each of the first 30 failures
    only: the trace is [k] failed rounds followed by one last execution,
    with [k <= 30]; it returns when that last execution succeeds and raises
    when it fails, which happens only when all 31 executions fail. *)
Theorem init_db_tries_at_most_31_times (attempt : nat -> bool) :
  exists k,
    (k <= 30)%nat
    /\ (forall j, (j < k)%nat -> attempt j = false)
    /\ fst (init_db attempt) = failed_rounds k ++ [CREATE_TABLE_SQL]
    /\ snd (init_db attempt) = negb (attempt k)
    /\ (snd (init_db attempt) = true -> k = 30%nat).
Proof.
  unfold init_db. destruct (init_db_loop_spec attempt 30 0) as (k & Hk & Hfail & Hres).
  exists k. split; [exact Hk|]. split; [exact Hfail|].
  destruct Hres as [(-> & Hlt & Hok)|(-> & ->)]; cbn [fst snd].
  - cbn [Nat.add] in Hok. rewrite Hok. repeat split. discriminate.
  - repeat split.
Qed.

Lemma init_db_returns_iff (attempt : nat -> bool) :
  snd (init_db attempt) = false <-> exists i, (i <= 30)%nat /\ attempt i = true.
Proof.
  unfold init_db. destruct (init_db_loop_spec attempt 30 0) as (k & Hk & Hfail & Hres).
  cbn [Nat.add] in *. destruct Hres as [(-> & Hlt & Hok)|(-> & ->)]; cbn [fst snd].
  - split; [|reflexivity]. intros _. exists k. split; [lia|exact Hok].
  - rewrite negb_false_iff. split.
    + intros H. exists 30%nat. split; [lia|exact H].
    + intros (i & Hi & Hok). destruct (decide (i = 30%nat)) as [->|Hne]; [exact Hok|].
      rewrite Hfail in Hok by lia. discriminate.
Qed.

Lemma verify_returns (mysql_db : string) (names rows : list string) :
  names <> [] ->
  exists log,
    verify_stored_procedures mysql_db names (Returns rows)
    = ([SELECT_ROUTINE_NAME mysql_db names; log],
       Returns (list_to_set names ∖ list_to_set rows))
    /\ log = (if decide ((list_to_set names ∖ list_to_set rows : gset string) = ∅)
              then LogInfo (join ", " (sorted names))
              else LogError (join ", "
                     (sorted (elements (list_to_set names ∖ list_to_set rows : gset string))))).
Proof. intros Hne. destruct names as [|n names]; [contradiction|]. now eexists. Qed.

Lemma verify_raises (mysql_db : string) (names : list string) (e : string) :
  names <> [] ->
  verify_stored_procedures mysql_db names (Raises e)
  = ([SELECT_ROUTINE_NAME mysql_db names], Raises e).
Proof. intros Hne. now destruct names. Qed.

Lemma missing_spec (names rows : list string) (name : string) :
  name ∈ (list_to_set names ∖ list_to_set rows : gset string) <->
  name ∈ names /\ (name ∉ rows).
Proof. rewrite elem_of_difference, !elem_of_list_to_set. tauto. Qed.

(** X19. [verify_stored_procedures] with no name asks MySQL nothing and
    reports nothing missing. With names, it raises exactly when the query
    raises; otherwise it reports as missing exactly the required names that
    are not among the routines the query returned, and it logs an error if
    there is one and an information otherwise. *)
Theorem verify_reports_the_missing_names (mysql_db : string) (required_names : list string)
    (routines : Reply (list string)) :
  let r := verify_stored_procedures mysql_db required_names routines in
  (required_names = [] -> r = ([], Returns ∅))
  /\ (required_names <> [] ->
      forall e, routines = Raises e ->
        r = ([SELECT_ROUTINE_NAME mysql_db required_names], Raises e))
  /\ (required_names <> [] ->
      forall rows, routines = Returns rows ->
        exists missing log,
          r = ([SELECT_ROUTINE_NAME mysql_db required_names; log], Returns missing)
          /\ (forall name, name ∈ missing <-> name ∈ required_names /\ (name ∉ rows))
          /\ ((forall name, name ∈ required_names -> name ∈ rows) ->
              log = LogInfo (join ", " (sorted required_names)))
          /\ ((exists name, name ∈ required_names /\ (name ∉ rows)) ->
              log = LogError (join ", " (sorted (elements missing))))).
Proof.
  cbn zeta. split; [now intros ->|]. split.
  - intros Hne e ->. now apply verify_raises.
  - intros Hne rows ->.
    destruct (verify_returns mysql_db required_names rows Hne) as (log & -> & Hlog).
    set (missing := (list_to_set required_names ∖ list_to_set rows : gset string)) in *.
    assert (Hm : forall name, name ∈ missing <-> name ∈ required_names /\ (name ∉ rows))
      by (intros name; apply missing_spec).
    exists missing, log. split; [reflexivity|]. split; [exact Hm|]. rewrite Hlog. split.
    + intros Hall. destruct (decide (missing = ∅)) as [_|Hsome]; [reflexivity|].
      apply set_choose_L in Hsome as [name Hin]. apply Hm in Hin as [Hin Hnot].
      contradiction Hnot. now apply Hall.
    + intros (name & Hin & Hnot). destruct (decide (missing = ∅)) as [He|_]; [|reflexivity].
      assert (Hx : name ∈ missing) by (apply Hm; auto). rewrite He in Hx.
      now apply not_elem_of_empty in Hx.
Qed.

(** X20. [serve] starts the gRPC server exactly when [init_db] gets one
    of its 31 executions through and the query of the routines returns.
    Missing stored procedures do not stop it: they are logged, and the
    server is started all the same, on [0.0.0.0] and the configured port
    with both message limits at 20 MiB, as the last thing it does. *)
Theorem serve_starts_despite_missing_procedures (mysql_db : string) (grpc_port : Z)
    (attempt : nat -> bool) (routines : Reply (list string)) :
  let tr := fst (serve mysql_db grpc_port attempt routines) in
  let raised := snd (serve mysql_db grpc_port attempt routines) in
  let start := ServerStart (20 * 1024 * 1024) (20 * 1024 * 1024) ("0.0.0.0:" +:+ pretty grpc_port) in
  (raised = false <->
     (exists i, (i <= 30)%nat /\ attempt i = true) /\ exists rows, routines = Returns rows)
  /\ (raised = false <-> last tr = Some start)
  /\ (raised = false <-> start ∈ tr)
  /\ (forall rows, raised = false -> routines = Returns rows ->
        (exists names, StartupError names ∈ tr) <->
        exists name, name ∈ required_procedures /\ (name ∉ rows)).
Proof.
  cbn zeta. unfold serve.
  pose proof (init_db_returns_iff attempt) as Hinit.
  destruct (init_db attempt) as [init init_raised]. cbn [snd] in Hinit.
  assert (Hno_init : forall e, e ∈ map Init init ->
            match e with Init _ => True | _ => False end).
  { intros e ([] & <- & _)%list_elem_of_In%in_map_iff; exact I. }
  assert (Hno_check : forall check e, e ∈ map Check check ->
            match e with Check _ => True | _ => False end).
  { intros check e (x & <- & _)%list_elem_of_In%in_map_iff. exact I. }
  destruct init_raised; cbn [fst snd].
  - split; [split; [discriminate|]|].
    { intros [H _]. apply Hinit in H. discriminate. }
    split; [split; [discriminate|]|].
    { intros H. apply last_Some in H as (l' & H).
      assert (Hin : ServerStart (20 * 1024 * 1024) (20 * 1024 * 1024) ("0.0.0.0:" +:+ pretty grpc_port)
                    ∈ map Init init) by (rewrite H, elem_of_app, list_elem_of_singleton; auto).
      now apply Hno_init in Hin. }
    split; [split; [discriminate|]|discriminate].
    intros Hin. now apply Hno_init in Hin.
  - assert (Hok : exists i, (i <= 30)%nat /\ attempt i = true) by now apply Hinit.
    destruct routines as [rows|e].
    + assert (Hreq : required_procedures <> []) by discriminate.
      destruct (verify_returns mysql_db required_procedures rows Hreq) as (log & -> & _).
      set (missing := (list_to_set required_procedures ∖ list_to_set rows : gset string)).
      assert (Hm : forall name, name ∈ missing <->
                                name ∈ required_procedures /\ (name ∉ rows))
        by (intros name; apply missing_spec).
      cbn [fst snd]. split; [split; [intros _; split; [exact Hok|now exists rows]|reflexivity]|].
      split; [split; [intros _|reflexivity]|].
      { rewrite !app_assoc. apply last_snoc. }
      split; [split; [intros _|reflexivity]|].
      { rewrite !elem_of_app, list_elem_of_singleton. auto. }
      intros rows' _ [= <-]. split.
      * intros (names & Hin). destruct (decide (missing = ∅)) as [He|Hne].
        -- rewrite !elem_of_app, list_elem_of_singleton, elem_of_nil in Hin.
           destruct Hin as [Hin|[Hin|[[]|Hin]]]; [| |discriminate].
           ++ now apply Hno_init in Hin.
           ++ now apply Hno_check in Hin.
        -- apply set_choose_L in Hne as [name Hname]. exists name. now apply Hm.
      * intros (name & Hin & Hnot). assert (Hx : name ∈ missing) by (apply Hm; auto).
        destruct (decide (missing = ∅)) as [He|Hne].
        -- rewrite He in Hx. now apply not_elem_of_empty in Hx.
        -- eexists. rewrite !elem_of_app, list_elem_of_singleton. right. right. left.
           reflexivity.
    + rewrite verify_raises by discriminate.
      cbn [fst snd]. split; [split; [discriminate|]|].
      { intros (_ & rows & H). discriminate. }
      split; [split; [discriminate|]|].
      { intros H. apply last_Some in H as (l' & H).
        assert (Hin : ServerStart (20 * 1024 * 1024) (20 * 1024 * 1024) ("0.0.0.0:" +:+ pretty grpc_port)
                      ∈ map Init init ++ map Check [SELECT_ROUTINE_NAME mysql_db required_procedures])
          by (rewrite H, elem_of_app, list_elem_of_singleton; auto).
        apply elem_of_app in Hin as [Hin|Hin];
          [now apply Hno_init in Hin|now apply Hno_check in Hin]. }
      split; [split; [discriminate|]|discriminate].
      intros Hin. apply elem_of_app in Hin as [Hin|Hin];
        [now apply Hno_init in Hin|now apply Hno_check in Hin].
Qed.

End StartupProps.

(** ** The statement of [bulk_insert] *)

Section InsertStatement.

Import BlogsSql.

Lemma placeholders_app (s1 s2 : string) :
  ends_with_percent s1 = false ->
  placeholders (s1 +:+ s2) = (placeholders s1 + placeholders s2)%nat.
Proof.
  unfold ends_with_percent. induction s1 as [|c s1 IH]; intros Hend; [reflexivity|].
  destruct s1 as [|c' s1].
  - change (String c "" +:+ s2) with (String c s2). cbn in Hend.
    destruct s2 as [|c2 s2]; [reflexivity|].
    change (placeholders (String c (String c2 s2)))
      with (if Ascii.eqb c "%" && Ascii.eqb c2 "s"
            then S (placeholders (String c2 s2)) else placeholders (String c2 s2)).
    now rewrite Hend.
  - change (placeholders (String c (String c' s1) +:+ s2))
      with (if Ascii.eqb c "%" && Ascii.eqb c' "s"
            then S (placeholders (String c' s1 +:+ s2))
            else placeholders (String c' s1 +:+ s2)).
    change (placeholders (String c (String c' s1)))
      with (if Ascii.eqb c "%" && Ascii.eqb c' "s"
            then S (placeholders (String c' s1)) else placeholders (String c' s1)).
    rewrite IH by exact Hend.
    now destruct (Ascii.eqb c "%" && Ascii.eqb c' "s").
Qed.

Lemma values_clause_S (n : nat) :
  _values_clause (S (S n))
  = "(%s, %s, %s, %s, %s, %s, %s)" +:+ ", " +:+ _values_clause (S n).
Proof. reflexivity. Qed.

Lemma placeholders_values_clause (n : nat) :
  placeholders (_values_clause n) = (7 * n)%nat
  /\ ends_with_percent (_values_clause n) = false.
Proof.
  induction n as [|[|n] IH].
  - now split.
  - now split.
  - destruct IH as [IH Hend]. rewrite values_clause_S. split.
    + rewrite (placeholders_app "(%s, %s, %s, %s, %s, %s, %s)") by reflexivity.
      rewrite (placeholders_app ", ") by reflexivity. rewrite IH.
      change (placeholders "(%s, %s, %s, %s, %s, %s, %s)") with 7%nat.
      change (placeholders ", ") with 0%nat. lia.
    + set (tail := _values_clause (S n)) in *.
      assert (Hne : tail <> "") by (unfold tail; cbn; destruct n; discriminate).
      unfold ends_with_percent in *. destruct tail as [|c tail]; [contradiction|]. exact Hend.
Qed.

Lemma length_values_of (rows_list : list Blogs.BlogRow) :
  length (values_of rows_list) = (7 * length rows_list)%nat.
Proof.
  unfold values_of. induction rows_list as [|r rows IH]; [reflexivity|].
  cbn [map concat length app]. rewrite IH. lia.
Qed.

(** X21. [bulk_insert] sends nothing for no row. For [n] rows it sends
    one statement whose text has exactly as many [%s] placeholders as it
    binds values, seven for each row, in the order of the columns of the
    [INSERT]. *)
Theorem bulk_insert_binds_every_placeholder (rows_list : list Blogs.BlogRow) :
  (rows_list = [] <-> bulk_insert_call rows_list = None)
  /\ forall sql values,
       bulk_insert_call rows_list = Some (sql, values) ->
       placeholders sql = length values
       /\ length values = (7 * length rows_list)%nat
       /\ forall i r, rows_list !! i = Some r ->
            take 7 (drop (7 * i) values)
            = [match Blogs.client_msg_id r with Some c => Str c | None => NULL end;
               Str (Blogs.author r); Datetime (Blogs.created_at r);
               Datetime (Blogs.updated_at r); Str (Blogs.genre r);
               Str (Blogs.location r); Str (Blogs.content r)].
Proof.
  split.
  - destruct rows_list; cbn; split; congruence.
  - intros sql values Hcall.
    assert (Hs : sql = INSERT_SQL (_values_clause (length rows_list))
                 /\ values = values_of rows_list).
    { destruct rows_list; [discriminate|]. cbn in Hcall. now injection Hcall as <- <-. }
    destruct Hs as [-> ->]. rewrite length_values_of. split; [|split; [reflexivity|]].
    + destruct (placeholders_values_clause (length rows_list)) as [Hn Hend].
      unfold INSERT_SQL. rewrite placeholders_app by reflexivity.
      rewrite placeholders_app by exact Hend. rewrite Hn. 
      match goal with |- (?a + (_ + ?b))%nat = _ =>
        change a with 0%nat; change b with 0%nat end. lia.
    + clear Hcall. unfold values_of. induction rows_list as [|r0 rows IH]; intros i r Hi.
      * now rewrite lookup_nil in Hi.
      * destruct i as [|i].
        -- cbn in Hi. injection Hi as ->. reflexivity.
        -- cbn [lookup list_lookup] in Hi. 
           replace (7 * S i)%nat with (7 + 7 * i)%nat by lia.
           cbn [map concat]. rewrite <- drop_drop.
           change (drop 7 (?l ++ ?r)) with r. now apply IH.
Qed.

End InsertStatement.

(** ** The facade in front of the data service: listing and updating *)

Section FacadeListUpdate.

Variable fromisoformat : string -> option datetime.
Variable astimezone_utc : datetime -> option datetime.
Variable isoformat : datetime -> string.
Variable not_overridden : Api.AioRpcError.

Local Abbreviation stub_of :=
  (Api.DataService_stub fromisoformat astimezone_utc isoformat not_overridden).
Local Abbreviation shows := (shows astimezone_utc isoformat).

Lemma shows_functional (stored : Blogs.Stored) (out1 out2 : Api.BlogOut) :
  shows stored out1 -> shows stored out2 -> out1 = out2.
Proof.
  intros (c1 & u1 & Hc1 & Hu1 & ->) (c2 & u2 & Hc2 & Hu2 & ->). congruence.
Qed.

Lemma or_None_or_empty (x : option string) :
  Server.or_None (Api.or_empty x) = x ≫= Server.or_None.
Proof. now destruct x. Qed.

(** The loop of [ListBlogs] answers with every row shown, in order, or
    fails on a row that cannot be shown. *)
Lemma blogs_of_shows (ms : list Blogs.Stored) :
  match Server.blogs_of astimezone_utc isoformat ms with
  | Returns blogs => Forall2 shows ms (map Api.BlogOut_of blogs)
  | Raises _ => exists stored, stored ∈ ms /\ ~ exists out, shows stored out
  end.
Proof.
  induction ms as [|m ms IH]; cbn [Server.blogs_of]; [constructor|].
  destruct (Server._dt_to_iso astimezone_utc isoformat (Blogs.created_at (Blogs.cols m)))
    as [c|e] eqn:Ec.
  - destruct (Server._dt_to_iso astimezone_utc isoformat (Blogs.updated_at (Blogs.cols m)))
      as [u|e] eqn:Eu.
    + destruct (Server.blogs_of astimezone_utc isoformat ms) as [blogs|e].
      * cbn [map]. constructor; [|exact IH]. exists c, u. split; [exact Ec|].
        split; [exact Eu|]. unfold Api.BlogOut_of. cbn. f_equal.
        now destruct (Blogs.client_msg_id (Blogs.cols m)).
      * destruct IH as (stored & Hin & Hno). exists stored. split; [now right|exact Hno].
    + exists m. split; [left|]. intros (out & c' & u' & _ & Hu & _). congruence.
  - exists m. split; [left|]. intros (out & c' & u' & Hc & _). congruence.
Qed.

Lemma Query_int_limit (limit : Api.QueryValue) (l : Z) :
  Api.Query_int 50 (Some 1) (Some 500) limit = Some l -> 1 <= l <= 500.
Proof.
  destruct limit as [|z|]; cbn; [intros [= <-]; lia| |discriminate].
  destruct (Z.leb_spec 1 z); destruct (Z.leb_spec z 500); cbn; try discriminate.
  intros [= <-]. lia.
Qed.

(** X22. [GET /blogs] through [ListBlogs], for a [limit] and an [offset]
    the endpoint accepts. The query is run with the accepted limit and
    offset (the defaults of [ListBlogs] never replace them) and with the
    filters that were given and are not empty. The answer is 200 with every
    row the query returned, shown in the order of the query, when each row
    can be shown; it is 500 when the query raises or when one row has a
    timestamp that cannot be written, and then no row is answered. *)
Theorem list_blogs_shows_every_row_or_500 (self : Server.DataService) (b : Api.Backend)
    (author genre location : option string) (limit offset : Api.QueryValue) (l o : Z) :
  Api.Query_int 50 (Some 1) (Some 500) limit = Some l ->
  Api.Query_int 0 (Some 0) None offset = Some o ->
  let r := Api.list_blogs author genre location limit offset (stub_of self b) in
  let params := {| Server.p_author := author ≫= Server.or_None;
                   Server.p_genre := genre ≫= Server.or_None;
                   Server.p_location := location ≫= Server.or_None;
                   Server.p_limit := l;
                   Server.p_offset := o |} in
  (forall out, r = inr out <->
     exists rows, Api.select_list b params = Returns rows /\ Forall2 shows rows out)
  /\ (Api.http_status r = 500 <->
        (exists e, Api.select_list b params = Raises e)
        \/ exists rows stored,
             Api.select_list b params = Returns rows
             /\ stored ∈ rows /\ ~ exists out, shows stored out)
  /\ (Api.http_status r = 200 \/ Api.http_status r = 500).
Proof.
  intros Hl Ho. cbn zeta. unfold Api.list_blogs. rewrite Hl, Ho.
  cbn [Api.stub_ListBlogs Api.DataService_stub]. unfold Server.ListBlogs. cbn [snd].
  assert (Hp : Server.ListBlogs_params
                 {| Server.list_author := Api.or_empty author;
                    Server.list_genre := Api.or_empty genre;
                    Server.list_location := Api.or_empty location;
                    Server.limit := l; Server.offset := o |}
               = {| Server.p_author := author ≫= Server.or_None;
                    Server.p_genre := genre ≫= Server.or_None;
                    Server.p_location := location ≫= Server.or_None;
                    Server.p_limit := l; Server.p_offset := o |}).
  { unfold Server.ListBlogs_params. cbn. rewrite !or_None_or_empty. f_equal.
    - apply Query_int_limit in Hl. unfold Server.int_or.
      destruct (Z.eqb_spec l 0); [lia|reflexivity].
    - unfold Server.int_or. now destruct (Z.eqb_spec o 0). }
  rewrite Hp. clear Hp.
  destruct (Api.select_list b _) as [rows|e] eqn:Es.
  - pose proof (blogs_of_shows rows) as Hrows.
    destruct (Server.blogs_of astimezone_utc isoformat rows) as [blogs|e]; cbn.
    + split; [|split; [|now left]].
      * intros out. split.
        -- intros [= <-]. now exists rows.
        -- intros (rows' & [= <-] & Hout). f_equal. clear Es.
           revert out Hout. generalize dependent (map Api.BlogOut_of blogs).
           induction rows as [|row rows IH]; intros outs Hrows out Hout.
           ++ inversion Hrows. now inversion Hout.
           ++ inversion Hrows as [|? o1 ? outs1 H1 Hr1]; subst.
              inversion Hout as [|? o2 ? outs2 H2 Hr2]; subst.
              f_equal; [now apply (shows_functional row)|now apply IH].
      * split; [lia|].
        intros [(e & He)|(rows' & stored & [= <-] & Hin & Hno)]; [discriminate|].
        exfalso. apply Hno. clear Es.
        apply list_elem_of_lookup in Hin as (i & Hi).
        destruct (Forall2_lookup_l _ _ _ _ _ Hrows Hi) as (out & _ & Hshow). now exists out.
    + split; [|split; [|now right]].
      * intros out. split; [discriminate|].
        intros (rows' & [= <-] & Hout). destruct Hrows as (stored & Hin & Hno).
        exfalso. apply Hno. apply list_elem_of_lookup in Hin as (i & Hi).
        destruct (Forall2_lookup_l _ _ _ _ _ Hout Hi) as (o' & _ & Hshow). now exists o'.
      * split; [|reflexivity]. intros _. right. destruct Hrows as (stored & Hin & Hno).
        now exists rows, stored.
  - cbn. split; [|split; [|now right]].
    + intros out. split; [discriminate|]. intros (rows & H & _). discriminate.
    + split; [|reflexivity]. intros _. left. now exists e.
Qed.

(** X23. [PUT /blogs/{id}] through [UpdateBlog]. An empty content is
    refused with 422. Otherwise the answer is 404 exactly when the
    procedure reports no updated row (a count of 0, no row, or no column
    [updated]), and 200 exactly when the count is not 0 and the transaction
    commits; the body then says "updated", so the status "noop" of the
    endpoint is never sent; and the [updated_at_iso] of the body, readable
    or not, changes nothing of the answer. *)
Theorem put_blog_is_updated_or_404 (self : Server.DataService) (b : Api.Backend)
    (blog_id : Z) (req : Api.BlogUpdate) :
  let r := ApiRest.PUT_blog blog_id req (stub_of self b) in
  (Api.http_status r = 422 <-> Api.update_content req = "")
  /\ (Api.http_status r = 404 <->
        Api.update_content req <> ""
        /\ exists row, Api.sp_update_blog_content b = Returns row
                       /\ Server.updated_of row = 0)
  /\ (Api.http_status r = 200 <->
        Api.update_content req <> ""
        /\ exists row u, Api.sp_update_blog_content b = Returns row
                         /\ Server.updated_of row <> 0
                         /\ Api.commit b = Returns u)
  /\ (forall body, r = inr body ->
        body = [("status", Api.JStr "updated"); ("id", Api.JInt blog_id)])
  /\ (forall iso,
        ApiRest.PUT_blog blog_id
          {| Api.update_content := Api.update_content req;
             Api.update_updated_at_iso := iso |} (stub_of self b) = r).
Proof.
  cbn zeta. unfold ApiRest.PUT_blog. cbn [Api.update_content].
  destruct (Z.leb_spec 1 (len (Api.update_content req))) as [Hlen|Hlen].
  - apply len_pos in Hlen. unfold Api.update_blog.
    cbn [Api.stub_UpdateBlog Api.DataService_stub Api.update_content
         Api.update_updated_at_iso].
    unfold Server.UpdateBlog. cbn [snd].
    destruct (Api.sp_update_blog_content b) as [row|e]; cbn.
    + destruct (Z.eqb_spec (Server.updated_of row) 0) as [E|E]; cbn.
      * split; [split; [lia|contradiction]|].
        split; [split; [intros _; split; [exact Hlen|now exists row]|reflexivity]|].
        split; [split; [lia|intros (_ & r' & u & [= <-] & Hne & _); contradiction]|].
        split; [discriminate|reflexivity].
      * destruct (Api.commit b) as [u|e]; cbn.
        -- split; [split; [lia|contradiction]|].
           split; [split; [lia|intros (_ & r' & [= <-] & H0); contradiction]|].
           split; [split; [intros _; split; [exact Hlen|now exists row, u]|reflexivity]|].
           split; [now intros body [= <-]|reflexivity].
        -- split; [split; [lia|contradiction]|].
           split; [split; [lia|intros (_ & r' & [= <-] & H0); contradiction]|].
           split; [split; [lia|intros (_ & r' & u & _ & _ & Hc); discriminate]|].
           split; [discriminate|reflexivity].
    + split; [split; [lia|contradiction]|].
      split; [split; [lia|intros (_ & r' & Hr & _); discriminate]|].
      split; [split; [lia|intros (_ & r' & u & Hr & _); discriminate]|].
      split; [discriminate|reflexivity].
  - assert (He : Api.update_content req = "").
    { destruct (decide (Api.update_content req = "")) as [E|E]; [exact E|].
      apply len_pos in E. lia. }
    cbn. split; [tauto|]. split; [split; [lia|intros [H _]; contradiction]|].
    split; [split; [lia|intros [H _]; contradiction]|].
    split; [discriminate|reflexivity].
Qed.

End FacadeListUpdate.
(* ===================================================================== *)
(** * Part V: the further properties at work on the sample data            *)
(* ===================================================================== *)

(** The stream the sample request is appended to is among those the
    consumer discovers once the genre is advertised. *)
Lemma sample_stream_is_discovered :
  exists streams,
    WorkerLoop.discover_streams (Returns ["g2"; "g1"]) = Returns streams
    /\ "blogs:genre:g1" ∈ streams.
Proof.
  destruct (enqueued_stream_is_discovered Sample.service (Api.request_of Sample.body)
              "22222222-2222-2222-2222-222222222222" "2024-01-01T00:00:00+00:00"
              (Returns 1) (Returns "1704067200000-0")
              {| Server.enqueued := true; Server.stream := "blogs:genre:g1";
                 Server.message_id := "1704067200000-0" |}
              ["g2"; "g1"] eq_refl)
    as (streams & Hd & Hin & _).
  - apply list_elem_of_further, list_elem_of_here.
  - exists streams. split; [exact Hd|exact Hin].
Defined.

(** The committed flush of the sample worker acknowledges and deletes the
    one entry it holds. *)
Lemma sample_commit_acknowledges_the_entry :
  let o := Worker._flush_key Sample.strftime_utc Sample.worker1 Sample.key
             Worker.Commits (fun _ => Worker.AckDelOk) in
  Worker.Bus (XACK "blogs:genre:g1" (Worker.consumer_group Sample.worker1)
                ["1704067200000-0"]) ∈ Worker.trace o
  /\ Worker.Bus (XDEL "blogs:genre:g1" ["1704067200000-0"]) ∈ Worker.trace o.
Proof.
  intros o.
  edestruct (committed_flush_acknowledges_every_item Sample.strftime_utc Sample.worker1
               Sample.key (fun _ => Worker.AckDelOk)) as (Hall & _).
  - vm_compute. discriminate.
  - vm_compute. reflexivity.
  - destruct (Hall SampleRun.item) as (_ & Hack & Hdel).
    + apply list_elem_of_here.
    + split; [exact Hack|]. apply Hdel. discriminate.
Defined.

(** The buffered entry of the sample worker outlives an iteration in which
    MySQL is down: it is still buffered, or it was committed. *)
Lemma sample_item_survives_an_outage :
  let r := WorkerLoop.run_iterations Sample.fromisoformat Sample.strftime_utc
             Sample.worker1 [SampleRun.world_db_down] in
  SampleRun.item ∈ Worker.items_of r.2 Sample.key
  \/ exists batch,
       SampleRun.item ∈ batch
       /\ Worker.items_of Sample.worker1 Sample.key `prefix_of` batch
       /\ committed Sample.strftime_utc (WorkerLoop.flush_events r.1) batch.
Proof.
  apply (run_never_drops_a_buffered_item Sample.fromisoformat Sample.strftime_utc
           Sample.worker1 [SampleRun.world_db_down] Sample.key SampleRun.item).
  apply list_elem_of_here.
Defined.

(** The entry read while MySQL is down is kept, and stored or still
    buffered one iteration later. *)
Lemma sample_read_entry_is_not_forgotten :
  let r := WorkerLoop.run_iterations Sample.fromisoformat Sample.strftime_utc
             Sample.worker0 ([] ++ SampleRun.world_db_down :: [SampleRun.world_db_up]) in
  SampleRun.item ∈ Worker.items_of r.2 Sample.key
  \/ exists batch,
       SampleRun.item ∈ batch
       /\ committed Sample.strftime_utc (WorkerLoop.flush_events r.1) batch.
Proof.
  apply (run_never_forgets_a_read_message Sample.fromisoformat Sample.strftime_utc
           Sample.worker0 [] [SampleRun.world_db_up] SampleRun.world_db_down
           SampleRun.resp "blogs:genre:g1" "1704067200000-0" Sample.fields).
  - reflexivity.
  - exists (Worker.consumer_group Sample.worker0), (Worker.consumer_name Sample.worker0),
      [("blogs:genre:g1", ">")], (Worker.batch_max_count Sample.worker0), 1000.
    apply list_elem_of_further, list_elem_of_further, list_elem_of_here.
  - apply list_elem_of_here.
Defined.

(** The fields of the sample request, appended by [EnqueueBlog], come back
    as one item under the key of the sample. *)
Lemma sample_enqueue_is_read_back :
  exists bi,
    Worker.items_of
      (Worker._add_to_buffer Sample.fromisoformat Sample.worker0 "blogs:genre:g1"
         "1704067200000-0" Sample.fields 1704067200000000 1704067200000000)
      Sample.key
    = [bi]
    /\ Blogs.client_msg_id (Worker.row bi) = Some Sample.client_msg_id
    /\ Blogs.created_at (Worker.row bi) = utc_datetime 1704067200000000.
Proof.
  destruct (enqueued_fields_are_read_back Sample.fromisoformat Sample.service
              (Api.request_of Sample.body)
              "22222222-2222-2222-2222-222222222222" "2024-01-01T00:00:00+00:00"
              (Returns 1) (Returns "1704067200000-0")
              "blogs:genre:g1"
              [("client_msg_id", Sample.client_msg_id); ("author", "a"); ("content", "hi");
               ("genre", "g1"); ("location", "l1");
               ("created_at_iso", "2024-01-01T00:00:00+00:00")]
              200000 true Sample.worker0 "1704067200000-0"
              1704067200000000 1704067200000000)
    as (bi & Hitems & _ & _ & _ & _ & _ & _ & Hid & Hcreated & _).
  - apply list_elem_of_further, list_elem_of_here.
  - exists bi. split; [exact Hitems|]. split; [exact Hid|exact Hcreated].
Defined.

(** The one stored row is listed as it is stored. *)
Lemma sample_list_shows_the_stored_row :
  Api.list_blogs None (Some "g1") None Api.Absent Api.Absent
    (Api.DataService_stub Sample.fromisoformat Sample.astimezone_utc Sample.isoformat
       Sample.not_overridden Sample.service SampleRun.list_backend)
  = inr [{| Api.out_id := 1;
            Api.out_client_msg_id := Some Sample.client_msg_id;
            Api.out_author := "a";
            Api.out_created_at_iso := "2024-01-01T00:00:00+00:00";
            Api.out_updated_at_iso := "2024-01-01T00:00:00+00:00";
            Api.out_genre := "g1";
            Api.out_location := "l1";
            Api.out_content := "hi" |}].
Proof.
  destruct (list_blogs_shows_every_row_or_500 Sample.fromisoformat Sample.astimezone_utc
              Sample.isoformat Sample.not_overridden Sample.service SampleRun.list_backend
              None (Some "g1") None Api.Absent Api.Absent 50 0 eq_refl eq_refl)
    as (Hout & _).
  apply Hout. exists [Sample.stored]. split; [reflexivity|].
  constructor; [|constructor].
  exists "2024-01-01T00:00:00+00:00", "2024-01-01T00:00:00+00:00".
  split; [reflexivity|]. split; reflexivity.
Defined.
